(** * The learning loop of nucypher/network/nodes.py

    A shallow embedding of [FleetState], [Learner] and [VerifiableNode]
    (src/nucypher/network/nodes.py) and the properties of the discovery
    protocol proved about it.

    Python objects live in a store: a node is an object id ([nat]) into
    [heap], so that the record passed to [remember_node], the record held by
    [known_nodes] and the record held by the teacher queue are one object.
    Methods are computations in a state-and-exception monad [M] over the
    [World]; an exception keeps the mutations made before it was raised. *)

From Stdlib Require Import ZArith List Lia Bool Ascii String.
From stdpp Require Import base list sorting strings.

Local Open Scope string_scope.

(** ** Python exceptions *)

(** The exceptions the module raises or handles.  [requests] derives
    [SSLError] and [ConnectTimeout] from its [ConnectionError]; [InvalidNode]
    derives from [SuspiciousActivity]; [NotEnoughTeachers] from
    [RuntimeError]; [WrongMode] from [TypeError]. *)
Inductive exn : Type :=
  | KeyError
  | IndexError
  | AttributeError (attr : string)
  | UnboundLocalError (var : string)
  | ValueError
  | OverflowError
  | RuntimeError
  | NotImplementedError
  | RequestsConnectionError
  | SSLError
  | ConnectTimeout
  | ReadTimeout
  | NoSigningPower
  | SuspiciousActivity
  | InvalidNode
  | WrongMode
  | NotEnoughTeachers
  | OtherError (what : string).

Definition isa_SSLError (e : exn) : bool :=
  match e with SSLError => true | _ => false end.

Definition isa_requests_ConnectionError (e : exn) : bool :=
  match e with
  | RequestsConnectionError | SSLError | ConnectTimeout => true
  | _ => false
  end.

Definition isa_ReadTimeout (e : exn) : bool :=
  match e with ReadTimeout => true | _ => false end.

Definition isa_SuspiciousActivity (e : exn) : bool :=
  match e with SuspiciousActivity | InvalidNode => true | _ => false end.

Definition isa_WrongMode (e : exn) : bool :=
  match e with WrongMode => true | _ => false end.

Definition isa_NotEnoughTeachers (e : exn) : bool :=
  match e with NotEnoughTeachers => true | _ => false end.

Definition isa_NoSigningPower (e : exn) : bool :=
  match e with NoSigningPower => true | _ => false end.

Inductive outcome (A : Type) : Type :=
  | Ok (a : A)
  | Raise (e : exn).
Arguments Ok {A} a.
Arguments Raise {A} e.

(** ** Bytes *)

Definition bytes := list Byte.byte.

Definition hex_digit (n : N) : ascii :=
  match n with
  | 0 => "0" | 1 => "1" | 2 => "2" | 3 => "3" | 4 => "4" | 5 => "5"
  | 6 => "6" | 7 => "7" | 8 => "8" | 9 => "9" | 10 => "a" | 11 => "b"
  | 12 => "c" | 13 => "d" | 14 => "e" | _ => "f"
  end%N%char.

(** [bytes.hex()] *)
Fixpoint hex (b : bytes) : string :=
  match b with
  | [] => ""
  | x :: b' =>
      let n := Byte.to_N x in
      String (hex_digit (n / 16)) (String (hex_digit (n mod 16)) (hex b'))
  end.

(** [int.to_bytes(4, 'big')]: [OverflowError] outside [0, 2^32). *)
Definition byte_of_Z (z : Z) : Byte.byte :=
  match Byte.of_N (Z.to_N (z mod 256)) with
  | Some b => b
  | None => Byte.x00
  end.

Definition to_bytes_4_big (z : Z) : outcome bytes :=
  if ((0 <=? z) && (z <? 2 ^ 32))%Z then
    Ok [byte_of_Z (Z.shiftr z 24); byte_of_Z (Z.shiftr z 16);
        byte_of_Z (Z.shiftr z 8); byte_of_Z z]
  else Raise OverflowError.

(** [b"".join(...)] *)
Definition bytes_join (l : list bytes) : bytes := concat l.

(** ** Insertion-ordered dict

    A Python [dict] keeps insertion order, and [list(d.values())] reads it;
    [sorted_nodes] starts from that list, so the order is part of the
    model.  Keys are the checksum addresses (Python [str]). *)

Section Dict.
Context {V : Type}.

Definition dict := list (string * V).

Fixpoint dict_get (k : string) (d : dict) : option V :=
  match d with
  | [] => None
  | (k', v) :: d' => if String.eqb k k' then Some v else dict_get k d'
  end.

(** [d[k] = v]: an existing key keeps its position, a new key goes last. *)
Fixpoint dict_set (k : string) (v : V) (d : dict) : dict :=
  match d with
  | [] => [(k, v)]
  | (k', v') :: d' =>
      if String.eqb k k' then (k', v) :: d' else (k', v') :: dict_set k v d'
  end.

Fixpoint dict_remove (k : string) (d : dict) : dict :=
  match d with
  | [] => []
  | (k', v') :: d' =>
      if String.eqb k k' then d' else (k', v') :: dict_remove k d'
  end.

Definition dict_keys (d : dict) : list string := map fst d.
Definition dict_values (d : dict) : list V := map snd d.
Definition dict_contains (k : string) (d : dict) : bool :=
  match dict_get k d with Some _ => true | None => false end.
End Dict.
Arguments dict V : clear implicits.

(** Python [sorted(l, key=...)] on string keys: a stable sort; here insertion
    sort, each element placed before the first one that is not smaller. *)
Section Sorted.
Context {A : Type} (key : A -> string).

Fixpoint insert_by_key (x : A) (l : list A) : list A :=
  match l with
  | [] => [x]
  | y :: l' =>
      if String.leb (key x) (key y) then x :: y :: l'
      else y :: insert_by_key x l'
  end.

Fixpoint sorted_by_key (l : list A) : list A :=
  match l with
  | [] => []
  | x :: l' => insert_by_key x (sorted_by_key l')
  end.
End Sorted.

(** [os.path.join(directory, filename)] on POSIX paths. *)
Definition ends_with_slash (s : string) : bool :=
  match String.get (String.length s - 1) s with
  | Some "/"%char => true
  | _ => false
  end.

Definition path_join (directory filename : string) : string :=
  match filename with
  | String "/"%char _ => filename
  | _ =>
      if String.eqb directory "" then filename
      else if ends_with_slash directory then directory ++ filename
      else directory ++ "/" ++ filename
  end.

(** ** Records of the module *)

(** An x509 certificate, as far as the module reads it: the subject's common
    name and the encoded bytes. *)
Record Certificate : Type := {
  common_name : string;
  cert_bytes : bytes
}.

(** A [VerifiableNode] object.  The keys, the addresses and the rest
    interface are attributes of the subclasses (characters), read here through
    [public_keys], [stamp], [checksum_public_address] and
    [rest_information]; the constant [NOT_SIGNED] is [None], [NEVER_SEEN] is
    [None]; a timestamp is its epoch in seconds. *)
Record VerifiableNode : Type := {
  checksum_public_address : string;
  canonical_public_address : bytes;
  stamp : bytes;
  verifying_key : bytes;
  encrypting_key : bytes;
  can_sign : bool;
  node_federated_only : bool;
  rest_host : string;
  rest_port : Z;
  certificate : Certificate;
  certificate_filepath : string;
  _interface_signature_object : option bytes;
  _timestamp : option Z;
  _evidence_of_decentralized_identity : option bytes;
  last_seen : option Z;
  verified_stamp : bool;
  verified_interface : bool;
  _verified_node : bool
}.

Definition set_certificate_filepath (p : string) (n : VerifiableNode) : VerifiableNode :=
  {| checksum_public_address := checksum_public_address n;
     canonical_public_address := canonical_public_address n;
     stamp := stamp n; verifying_key := verifying_key n;
     encrypting_key := encrypting_key n; can_sign := can_sign n;
     node_federated_only := node_federated_only n;
     rest_host := rest_host n; rest_port := rest_port n;
     certificate := certificate n; certificate_filepath := p;
     _interface_signature_object := _interface_signature_object n;
     _timestamp := _timestamp n;
     _evidence_of_decentralized_identity := _evidence_of_decentralized_identity n;
     last_seen := last_seen n; verified_stamp := verified_stamp n;
     verified_interface := verified_interface n;
     _verified_node := _verified_node n |}.

Definition set_interface_signature_object (s : option bytes) (n : VerifiableNode) : VerifiableNode :=
  {| checksum_public_address := checksum_public_address n;
     canonical_public_address := canonical_public_address n;
     stamp := stamp n; verifying_key := verifying_key n;
     encrypting_key := encrypting_key n; can_sign := can_sign n;
     node_federated_only := node_federated_only n;
     rest_host := rest_host n; rest_port := rest_port n;
     certificate := certificate n; certificate_filepath := certificate_filepath n;
     _interface_signature_object := s;
     _timestamp := _timestamp n;
     _evidence_of_decentralized_identity := _evidence_of_decentralized_identity n;
     last_seen := last_seen n; verified_stamp := verified_stamp n;
     verified_interface := verified_interface n;
     _verified_node := _verified_node n |}.

Definition set_timestamp (t : option Z) (n : VerifiableNode) : VerifiableNode :=
  {| checksum_public_address := checksum_public_address n;
     canonical_public_address := canonical_public_address n;
     stamp := stamp n; verifying_key := verifying_key n;
     encrypting_key := encrypting_key n; can_sign := can_sign n;
     node_federated_only := node_federated_only n;
     rest_host := rest_host n; rest_port := rest_port n;
     certificate := certificate n; certificate_filepath := certificate_filepath n;
     _interface_signature_object := _interface_signature_object n;
     _timestamp := t;
     _evidence_of_decentralized_identity := _evidence_of_decentralized_identity n;
     last_seen := last_seen n; verified_stamp := verified_stamp n;
     verified_interface := verified_interface n;
     _verified_node := _verified_node n |}.

Definition set_last_seen (t : option Z) (n : VerifiableNode) : VerifiableNode :=
  {| checksum_public_address := checksum_public_address n;
     canonical_public_address := canonical_public_address n;
     stamp := stamp n; verifying_key := verifying_key n;
     encrypting_key := encrypting_key n; can_sign := can_sign n;
     node_federated_only := node_federated_only n;
     rest_host := rest_host n; rest_port := rest_port n;
     certificate := certificate n; certificate_filepath := certificate_filepath n;
     _interface_signature_object := _interface_signature_object n;
     _timestamp := _timestamp n;
     _evidence_of_decentralized_identity := _evidence_of_decentralized_identity n;
     last_seen := t; verified_stamp := verified_stamp n;
     verified_interface := verified_interface n;
     _verified_node := _verified_node n |}.

Definition set_verified_stamp (b : bool) (n : VerifiableNode) : VerifiableNode :=
  {| checksum_public_address := checksum_public_address n;
     canonical_public_address := canonical_public_address n;
     stamp := stamp n; verifying_key := verifying_key n;
     encrypting_key := encrypting_key n; can_sign := can_sign n;
     node_federated_only := node_federated_only n;
     rest_host := rest_host n; rest_port := rest_port n;
     certificate := certificate n; certificate_filepath := certificate_filepath n;
     _interface_signature_object := _interface_signature_object n;
     _timestamp := _timestamp n;
     _evidence_of_decentralized_identity := _evidence_of_decentralized_identity n;
     last_seen := last_seen n; verified_stamp := b;
     verified_interface := verified_interface n;
     _verified_node := _verified_node n |}.

Definition set_verified_interface (b : bool) (n : VerifiableNode) : VerifiableNode :=
  {| checksum_public_address := checksum_public_address n;
     canonical_public_address := canonical_public_address n;
     stamp := stamp n; verifying_key := verifying_key n;
     encrypting_key := encrypting_key n; can_sign := can_sign n;
     node_federated_only := node_federated_only n;
     rest_host := rest_host n; rest_port := rest_port n;
     certificate := certificate n; certificate_filepath := certificate_filepath n;
     _interface_signature_object := _interface_signature_object n;
     _timestamp := _timestamp n;
     _evidence_of_decentralized_identity := _evidence_of_decentralized_identity n;
     last_seen := last_seen n; verified_stamp := verified_stamp n;
     verified_interface := b;
     _verified_node := _verified_node n |}.

Definition set_verified_node (b : bool) (n : VerifiableNode) : VerifiableNode :=
  {| checksum_public_address := checksum_public_address n;
     canonical_public_address := canonical_public_address n;
     stamp := stamp n; verifying_key := verifying_key n;
     encrypting_key := encrypting_key n; can_sign := can_sign n;
     node_federated_only := node_federated_only n;
     rest_host := rest_host n; rest_port := rest_port n;
     certificate := certificate n; certificate_filepath := certificate_filepath n;
     _interface_signature_object := _interface_signature_object n;
     _timestamp := _timestamp n;
     _evidence_of_decentralized_identity := _evidence_of_decentralized_identity n;
     last_seen := last_seen n; verified_stamp := verified_stamp n;
     verified_interface := verified_interface n;
     _verified_node := b |}.

(** The class attributes of [VerifiableNode]: a node built from bytes starts
    with [verified_stamp = verified_interface = _verified_node = False] and
    [last_seen = NEVER_SEEN]. *)
Definition as_constructed (n : VerifiableNode) : VerifiableNode :=
  set_last_seen None
    (set_verified_node false (set_verified_interface false (set_verified_stamp false n))).

(** [FleetState(dict)]: the mapping itself ([entries], object ids of the
    nodes keyed by checksum address) and the attributes next to it.
    [NO_KNOWN_NODES] is [None]. *)
Record FleetState : Type := {
  entries : dict nat;
  _checksum : option string;
  _nickname : option string;
  _nickname_metadata : option string;
  updated : Z
}.

Definition set_entries (d : dict nat) (f : FleetState) : FleetState :=
  {| entries := d; _checksum := _checksum f; _nickname := _nickname f;
     _nickname_metadata := _nickname_metadata f; updated := updated f |}.

Definition set_updated (t : Z) (f : FleetState) : FleetState :=
  {| entries := entries f; _checksum := _checksum f; _nickname := _nickname f;
     _nickname_metadata := _nickname_metadata f; updated := t |}.

(** twisted's [LoopingCall], as far as the learner reads and writes it. *)
Record LoopingCall : Type := {
  running : bool;
  interval : Z
}.

Record SeednodeMetadata : Type := {
  seed_checksum_address : string;
  seed_rest_host : string;
  seed_rest_port : Z
}.

Definition SeednodeMetadata_eqb (a b : SeednodeMetadata) : bool :=
  String.eqb (seed_checksum_address a) (seed_checksum_address b)
  && String.eqb (seed_rest_host a) (seed_rest_host b)
  && (seed_rest_port a =? seed_rest_port b)%Z.

(** The attributes of a [Learner].  [federated_only] and [_crashed] are read
    by the methods of [Learner] and initialised by its subclasses (the class
    itself reads [self.federated_only] in [__init__]); [is_verifiable_node]
    is the test [VerifiableNode in self.__class__.__bases__]. *)
Record Learner : Type := {
  save_metadata : bool;
  _abort_on_learning_error : bool;
  _learning_listeners : dict (list nat);
  _node_ids_to_learn_about_immediately : list string;
  known_certificates_dir : string;
  known_nodes : FleetState;
  done_seeding : bool;
  teacher_nodes : list nat;
  _current_teacher_node : option nat;
  _learning_task : LoopingCall;
  _learning_round : Z;
  _rounds_without_new_nodes : Z;
  _seed_nodes : list SeednodeMetadata;
  unresponsive_seed_nodes : list SeednodeMetadata;
  _crashed : option exn;
  federated_only : bool;
  is_verifiable_node : bool
}.

Definition _SHORT_LEARNING_DELAY : Z := 5.
Definition _LONG_LEARNING_DELAY : Z := 90.
Definition LEARNING_TIMEOUT : Z := 10.
Definition _ROUNDS_WITHOUT_NODES_AFTER_WHICH_TO_SLOW_DOWN : Z := 10.

(** The checksum setter of [FleetState] also derives the nickname; see
    [set_checksum] below, which needs [nickname_from_seed]. *)

Definition set_learning_listeners (x : dict (list nat)) (r : Learner) : Learner :=
  {| save_metadata := save_metadata r;
     _abort_on_learning_error := _abort_on_learning_error r;
     _learning_listeners := x;
     _node_ids_to_learn_about_immediately := _node_ids_to_learn_about_immediately r;
     known_certificates_dir := known_certificates_dir r;
     known_nodes := known_nodes r;
     done_seeding := done_seeding r;
     teacher_nodes := teacher_nodes r;
     _current_teacher_node := _current_teacher_node r;
     _learning_task := _learning_task r;
     _learning_round := _learning_round r;
     _rounds_without_new_nodes := _rounds_without_new_nodes r;
     _seed_nodes := _seed_nodes r;
     unresponsive_seed_nodes := unresponsive_seed_nodes r;
     _crashed := _crashed r;
     federated_only := federated_only r;
     is_verifiable_node := is_verifiable_node r |}.

Definition set_node_ids_to_learn_about_immediately (x : list string) (r : Learner) : Learner :=
  {| save_metadata := save_metadata r;
     _abort_on_learning_error := _abort_on_learning_error r;
     _learning_listeners := _learning_listeners r;
     _node_ids_to_learn_about_immediately := x;
     known_certificates_dir := known_certificates_dir r;
     known_nodes := known_nodes r;
     done_seeding := done_seeding r;
     teacher_nodes := teacher_nodes r;
     _current_teacher_node := _current_teacher_node r;
     _learning_task := _learning_task r;
     _learning_round := _learning_round r;
     _rounds_without_new_nodes := _rounds_without_new_nodes r;
     _seed_nodes := _seed_nodes r;
     unresponsive_seed_nodes := unresponsive_seed_nodes r;
     _crashed := _crashed r;
     federated_only := federated_only r;
     is_verifiable_node := is_verifiable_node r |}.

Definition set_known_nodes (x : FleetState) (r : Learner) : Learner :=
  {| save_metadata := save_metadata r;
     _abort_on_learning_error := _abort_on_learning_error r;
     _learning_listeners := _learning_listeners r;
     _node_ids_to_learn_about_immediately := _node_ids_to_learn_about_immediately r;
     known_certificates_dir := known_certificates_dir r;
     known_nodes := x;
     done_seeding := done_seeding r;
     teacher_nodes := teacher_nodes r;
     _current_teacher_node := _current_teacher_node r;
     _learning_task := _learning_task r;
     _learning_round := _learning_round r;
     _rounds_without_new_nodes := _rounds_without_new_nodes r;
     _seed_nodes := _seed_nodes r;
     unresponsive_seed_nodes := unresponsive_seed_nodes r;
     _crashed := _crashed r;
     federated_only := federated_only r;
     is_verifiable_node := is_verifiable_node r |}.

Definition set_done_seeding (x : bool) (r : Learner) : Learner :=
  {| save_metadata := save_metadata r;
     _abort_on_learning_error := _abort_on_learning_error r;
     _learning_listeners := _learning_listeners r;
     _node_ids_to_learn_about_immediately := _node_ids_to_learn_about_immediately r;
     known_certificates_dir := known_certificates_dir r;
     known_nodes := known_nodes r;
     done_seeding := x;
     teacher_nodes := teacher_nodes r;
     _current_teacher_node := _current_teacher_node r;
     _learning_task := _learning_task r;
     _learning_round := _learning_round r;
     _rounds_without_new_nodes := _rounds_without_new_nodes r;
     _seed_nodes := _seed_nodes r;
     unresponsive_seed_nodes := unresponsive_seed_nodes r;
     _crashed := _crashed r;
     federated_only := federated_only r;
     is_verifiable_node := is_verifiable_node r |}.

Definition set_teacher_nodes (x : list nat) (r : Learner) : Learner :=
  {| save_metadata := save_metadata r;
     _abort_on_learning_error := _abort_on_learning_error r;
     _learning_listeners := _learning_listeners r;
     _node_ids_to_learn_about_immediately := _node_ids_to_learn_about_immediately r;
     known_certificates_dir := known_certificates_dir r;
     known_nodes := known_nodes r;
     done_seeding := done_seeding r;
     teacher_nodes := x;
     _current_teacher_node := _current_teacher_node r;
     _learning_task := _learning_task r;
     _learning_round := _learning_round r;
     _rounds_without_new_nodes := _rounds_without_new_nodes r;
     _seed_nodes := _seed_nodes r;
     unresponsive_seed_nodes := unresponsive_seed_nodes r;
     _crashed := _crashed r;
     federated_only := federated_only r;
     is_verifiable_node := is_verifiable_node r |}.

Definition set_current_teacher_node (x : option nat) (r : Learner) : Learner :=
  {| save_metadata := save_metadata r;
     _abort_on_learning_error := _abort_on_learning_error r;
     _learning_listeners := _learning_listeners r;
     _node_ids_to_learn_about_immediately := _node_ids_to_learn_about_immediately r;
     known_certificates_dir := known_certificates_dir r;
     known_nodes := known_nodes r;
     done_seeding := done_seeding r;
     teacher_nodes := teacher_nodes r;
     _current_teacher_node := x;
     _learning_task := _learning_task r;
     _learning_round := _learning_round r;
     _rounds_without_new_nodes := _rounds_without_new_nodes r;
     _seed_nodes := _seed_nodes r;
     unresponsive_seed_nodes := unresponsive_seed_nodes r;
     _crashed := _crashed r;
     federated_only := federated_only r;
     is_verifiable_node := is_verifiable_node r |}.

Definition set_learning_task (x : LoopingCall) (r : Learner) : Learner :=
  {| save_metadata := save_metadata r;
     _abort_on_learning_error := _abort_on_learning_error r;
     _learning_listeners := _learning_listeners r;
     _node_ids_to_learn_about_immediately := _node_ids_to_learn_about_immediately r;
     known_certificates_dir := known_certificates_dir r;
     known_nodes := known_nodes r;
     done_seeding := done_seeding r;
     teacher_nodes := teacher_nodes r;
     _current_teacher_node := _current_teacher_node r;
     _learning_task := x;
     _learning_round := _learning_round r;
     _rounds_without_new_nodes := _rounds_without_new_nodes r;
     _seed_nodes := _seed_nodes r;
     unresponsive_seed_nodes := unresponsive_seed_nodes r;
     _crashed := _crashed r;
     federated_only := federated_only r;
     is_verifiable_node := is_verifiable_node r |}.

Definition set_learning_round (x : Z) (r : Learner) : Learner :=
  {| save_metadata := save_metadata r;
     _abort_on_learning_error := _abort_on_learning_error r;
     _learning_listeners := _learning_listeners r;
     _node_ids_to_learn_about_immediately := _node_ids_to_learn_about_immediately r;
     known_certificates_dir := known_certificates_dir r;
     known_nodes := known_nodes r;
     done_seeding := done_seeding r;
     teacher_nodes := teacher_nodes r;
     _current_teacher_node := _current_teacher_node r;
     _learning_task := _learning_task r;
     _learning_round := x;
     _rounds_without_new_nodes := _rounds_without_new_nodes r;
     _seed_nodes := _seed_nodes r;
     unresponsive_seed_nodes := unresponsive_seed_nodes r;
     _crashed := _crashed r;
     federated_only := federated_only r;
     is_verifiable_node := is_verifiable_node r |}.

Definition set_rounds_without_new_nodes (x : Z) (r : Learner) : Learner :=
  {| save_metadata := save_metadata r;
     _abort_on_learning_error := _abort_on_learning_error r;
     _learning_listeners := _learning_listeners r;
     _node_ids_to_learn_about_immediately := _node_ids_to_learn_about_immediately r;
     known_certificates_dir := known_certificates_dir r;
     known_nodes := known_nodes r;
     done_seeding := done_seeding r;
     teacher_nodes := teacher_nodes r;
     _current_teacher_node := _current_teacher_node r;
     _learning_task := _learning_task r;
     _learning_round := _learning_round r;
     _rounds_without_new_nodes := x;
     _seed_nodes := _seed_nodes r;
     unresponsive_seed_nodes := unresponsive_seed_nodes r;
     _crashed := _crashed r;
     federated_only := federated_only r;
     is_verifiable_node := is_verifiable_node r |}.

Definition set_unresponsive_seed_nodes (x : list SeednodeMetadata) (r : Learner) : Learner :=
  {| save_metadata := save_metadata r;
     _abort_on_learning_error := _abort_on_learning_error r;
     _learning_listeners := _learning_listeners r;
     _node_ids_to_learn_about_immediately := _node_ids_to_learn_about_immediately r;
     known_certificates_dir := known_certificates_dir r;
     known_nodes := known_nodes r;
     done_seeding := done_seeding r;
     teacher_nodes := teacher_nodes r;
     _current_teacher_node := _current_teacher_node r;
     _learning_task := _learning_task r;
     _learning_round := _learning_round r;
     _rounds_without_new_nodes := _rounds_without_new_nodes r;
     _seed_nodes := _seed_nodes r;
     unresponsive_seed_nodes := x;
     _crashed := _crashed r;
     federated_only := federated_only r;
     is_verifiable_node := is_verifiable_node r |}.

Definition set_crashed (x : option exn) (r : Learner) : Learner :=
  {| save_metadata := save_metadata r;
     _abort_on_learning_error := _abort_on_learning_error r;
     _learning_listeners := _learning_listeners r;
     _node_ids_to_learn_about_immediately := _node_ids_to_learn_about_immediately r;
     known_certificates_dir := known_certificates_dir r;
     known_nodes := known_nodes r;
     done_seeding := done_seeding r;
     teacher_nodes := teacher_nodes r;
     _current_teacher_node := _current_teacher_node r;
     _learning_task := _learning_task r;
     _learning_round := _learning_round r;
     _rounds_without_new_nodes := _rounds_without_new_nodes r;
     _seed_nodes := _seed_nodes r;
     unresponsive_seed_nodes := unresponsive_seed_nodes r;
     _crashed := x;
     federated_only := federated_only r;
     is_verifiable_node := is_verifiable_node r |}.

Definition set_interval (i : Z) (t : LoopingCall) : LoopingCall :=
  {| running := running t; interval := i |}.

(** ** What the module exchanges with its collaborators *)

(** A [requests] response. *)
Record Response : Type := {
  status_code : Z;
  content : bytes
}.

(** The eight fields [_internal_splitter] cuts a node's self-description
    into. *)
Record NodeInfo : Type := {
  info_timestamp : Z;
  info_signature : bytes;
  info_identity_evidence : option bytes;
  info_verifying_key : bytes;
  info_encrypting_key : bytes;
  info_public_address : bytes;
  info_certificate_vbytes : bytes;
  info_rest_info : bytes
}.

(** The calls made on [network_middleware], in the order they were made. *)
Inductive Request : Type :=
  | node_information_request (host : string) (port : Z) (certificate_filepath : option string)
  | get_nodes_via_rest_request (url : string * Z) (nodes_i_need : list string)
      (announce_nodes : bool) (certificate_filepath : option string).

Inductive Level : Type := Debug | Info | Warn | Critical | KnownNodes.

Fixpoint bytes_eqb (a b : bytes) : bool :=
  match a, b with
  | [], [] => true
  | x :: a', y :: b' => Byte.eqb x y && bytes_eqb a' b'
  | _, _ => false
  end.

Definition evidence_eqb (a b : option bytes) : bool :=
  match a, b with
  | None, None => true
  | Some x, Some y => bytes_eqb x y
  | _, _ => false
  end.

(** A Python [set] kept as a list without repetition. *)
Definition set_add {A} (eqb : A -> A -> bool) (x : A) (s : list A) : list A :=
  if existsb (eqb x) s then s else s ++ [x].

Definition set_discard {A} (eqb : A -> A -> bool) (x : A) (s : list A) : list A :=
  List.filter (fun y => negb (eqb x y)) s.

Definition is_empty {A} (l : list A) : bool :=
  match l with [] => true | _ => false end.

(** [deque.pop()] takes from the right end, [deque.extend] adds there. *)
Fixpoint deque_pop {A} (q : list A) : option (A * list A) :=
  match q with
  | [] => None
  | [x] => Some (x, [])
  | y :: q' =>
      match deque_pop q' with
      | Some (x, r) => Some (x, y :: r)
      | None => None
      end
  end.

(** [timedelta.seconds]: the seconds within the day. *)
Definition timedelta_seconds (delta : Z) : Z := (delta mod 86400)%Z.

(** ** The computations

    State and exceptions: a computation takes the state and gives its
    outcome and the state it leaves.  An exception keeps the writes made
    before it. *)

Definition Comp (S A : Type) : Type := S -> outcome A * S.

Definition ret {S A} (a : A) : Comp S A := fun w => (Ok a, w).

Definition raise {S A} (e : exn) : Comp S A := fun w => (Raise e, w).

Definition bind {S A B} (m : Comp S A) (k : A -> Comp S B) : Comp S B :=
  fun w =>
    match m w with
    | (Ok a, w') => k a w'
    | (Raise e, w') => (Raise e, w')
    end.

Notation "'do' x <- m ; k" := (bind m (fun x => k))
  (at level 10, x name, m at level 100, k at level 200).
Notation "'do' ' p <- m ; k" := (bind m (fun x => let 'p := x in k))
  (at level 10, p pattern, m at level 100, k at level 200).

(** [try: m except ...: h]; [h e = None] when no clause matches [e]. *)
Definition try_except {S A} (m : Comp S A) (h : exn -> option (Comp S A)) : Comp S A :=
  fun w =>
    match m w with
    | (Ok a, w') => (Ok a, w')
    | (Raise e, w') =>
        match h e with
        | Some k => k w'
        | None => (Raise e, w')
        end
    end.

Definition gets {S A} (f : S -> A) : Comp S A := fun w => (Ok (f w), w).

Definition modify {S} (f : S -> S) : Comp S unit := fun w => (Ok tt, f w).

Definition lift_outcome {S A} (o : outcome A) : Comp S A := fun w => (o, w).

Definition when {S} (b : bool) (m : Comp S unit) : Comp S unit :=
  if b then m else ret tt.

Fixpoint for_each {S A} (l : list A) (body : A -> Comp S unit) : Comp S unit :=
  match l with
  | [] => ret tt
  | x :: l' => do _ <- body x; for_each l' body
  end.

(** ** The world a learner runs in *)

(** The collaborators outside this module.  [Env] is the state of everything
    behind them (the peers on the network, the random generator); a call
    reads it and may change it. *)
Class Collaborators : Type := {
  Env : Type;
  (** [node == self], the equality of the character classes. *)
  node_is_self : nat -> VerifiableNode -> bool;
  (** [bytes(node)], the serialization of the character classes. *)
  bytes_of_node : VerifiableNode -> bytes;
  (** [nucypher.crypto.api.keccak_digest] *)
  keccak_digest : bytes -> bytes;
  (** [nucypher.network.nicknames.nickname_from_seed] *)
  nickname_from_seed : string -> Z -> string * string;
  (** [EthSignature(evidence).recover_public_key_from_msg(message).to_checksum_address()] *)
  recover_checksum_address : bytes -> bytes -> outcome string;
  (** [signature.verify(message, verifying_key)] *)
  signature_verify : bytes -> bytes -> bytes -> bool;
  (** [self.stamp(message)] of a node that holds its signing key. *)
  stamp_sign : VerifiableNode -> bytes -> bytes;
  (** [bytes(rest_information()[0])] *)
  interface_info_bytes : string -> Z -> bytes;
  (** [RestMiddleware.node_information] and [RestMiddleware.get_nodes_via_rest] *)
  node_information :
    Env -> string -> Z -> option string -> outcome Response * Env;
  get_nodes_via_rest :
    Env -> string * Z -> list string -> bool -> option string -> outcome Response * Env;
  (** The splitters of the wire format. *)
  _internal_splitter : bytes -> outcome NodeInfo;
  signature_splitter : bytes -> outcome (bytes * bytes);
  (** [Ursula.batch_from_bytes] and [Ursula.from_seednode_metadata]; the
      latter answers [False] ([None]) for a seed node that does not respond. *)
  batch_from_bytes : bytes -> bool -> outcome (list VerifiableNode);
  from_seednode_metadata :
    Env -> SeednodeMetadata -> string -> Z -> bool -> outcome (option VerifiableNode) * Env;
  (** [random.shuffle] *)
  shuffle : Env -> list nat -> list nat * Env;
  shuffle_Permutation : forall e l, Permutation (shuffle e l).1 l
}.

Record World `{Collaborators} : Type := {
  heap : nat -> VerifiableNode;
  next_oid : nat;
  env : Env;
  clock : Z;
  stdout : list (Level * string);
  disk : dict Certificate;
  node_storage : list nat;
  notified : list (nat * string);
  requests_sent : list Request;
  me : Learner
}.

Section Network.
Context `{Collaborators}.

Abbreviation M := (Comp World).

Definition set_heap (x : nat -> VerifiableNode) (r : World) : World :=
  {| heap := x;
     next_oid := next_oid r;
     env := env r;
     clock := clock r;
     stdout := stdout r;
     disk := disk r;
     node_storage := node_storage r;
     notified := notified r;
     requests_sent := requests_sent r;
     me := me r |}.

Definition set_next_oid (x : nat) (r : World) : World :=
  {| heap := heap r;
     next_oid := x;
     env := env r;
     clock := clock r;
     stdout := stdout r;
     disk := disk r;
     node_storage := node_storage r;
     notified := notified r;
     requests_sent := requests_sent r;
     me := me r |}.

Definition set_env (x : Env) (r : World) : World :=
  {| heap := heap r;
     next_oid := next_oid r;
     env := x;
     clock := clock r;
     stdout := stdout r;
     disk := disk r;
     node_storage := node_storage r;
     notified := notified r;
     requests_sent := requests_sent r;
     me := me r |}.

Definition set_clock (x : Z) (r : World) : World :=
  {| heap := heap r;
     next_oid := next_oid r;
     env := env r;
     clock := x;
     stdout := stdout r;
     disk := disk r;
     node_storage := node_storage r;
     notified := notified r;
     requests_sent := requests_sent r;
     me := me r |}.

Definition set_stdout (x : list (Level * string)) (r : World) : World :=
  {| heap := heap r;
     next_oid := next_oid r;
     env := env r;
     clock := clock r;
     stdout := x;
     disk := disk r;
     node_storage := node_storage r;
     notified := notified r;
     requests_sent := requests_sent r;
     me := me r |}.

Definition set_disk (x : dict Certificate) (r : World) : World :=
  {| heap := heap r;
     next_oid := next_oid r;
     env := env r;
     clock := clock r;
     stdout := stdout r;
     disk := x;
     node_storage := node_storage r;
     notified := notified r;
     requests_sent := requests_sent r;
     me := me r |}.

Definition set_node_storage (x : list nat) (r : World) : World :=
  {| heap := heap r;
     next_oid := next_oid r;
     env := env r;
     clock := clock r;
     stdout := stdout r;
     disk := disk r;
     node_storage := x;
     notified := notified r;
     requests_sent := requests_sent r;
     me := me r |}.

Definition set_notified (x : list (nat * string)) (r : World) : World :=
  {| heap := heap r;
     next_oid := next_oid r;
     env := env r;
     clock := clock r;
     stdout := stdout r;
     disk := disk r;
     node_storage := node_storage r;
     notified := x;
     requests_sent := requests_sent r;
     me := me r |}.

Definition set_requests_sent (x : list Request) (r : World) : World :=
  {| heap := heap r;
     next_oid := next_oid r;
     env := env r;
     clock := clock r;
     stdout := stdout r;
     disk := disk r;
     node_storage := node_storage r;
     notified := notified r;
     requests_sent := x;
     me := me r |}.

Definition set_me (x : Learner) (r : World) : World :=
  {| heap := heap r;
     next_oid := next_oid r;
     env := env r;
     clock := clock r;
     stdout := stdout r;
     disk := disk r;
     node_storage := node_storage r;
     notified := notified r;
     requests_sent := requests_sent r;
     me := x |}.

Definition self : M Learner := gets me.

Definition update_self (f : Learner -> Learner) : M unit :=
  modify (fun w => set_me (f (me w)) w).

Definition deref (o : nat) : M VerifiableNode := gets (fun w => heap w o).

Definition update_node (o : nat) (f : VerifiableNode -> VerifiableNode) : M unit :=
  modify (fun w =>
    set_heap (fun o' => if Nat.eqb o' o then f (heap w o') else heap w o') w).

(** A new object. *)
Definition allocate (n : VerifiableNode) : M nat :=
  fun w =>
    let o := next_oid w in
    (Ok o,
     set_next_oid (S o)
       (set_heap (fun o' => if Nat.eqb o' o then n else heap w o') w)).

Definition maya_now : M Z := gets clock.

(** [sendMessage(encodeMessage("log:Level:..., Date:..., Message: ..."))]:
    the level and the text of the message are kept, the date and the
    formatted values are not. *)
Definition sendMessage (level : Level) (message : string) : M unit :=
  modify (fun w => set_stdout (stdout w ++ [(level, message)]) w).

Definition call_node_information (host : string) (port : Z)
    (certificate_filepath : option string) : M Response :=
  fun w =>
    let '(r, e) := node_information (env w) host port certificate_filepath in
    (r, set_env e
          (set_requests_sent
             (requests_sent w ++ [node_information_request host port certificate_filepath]) w)).

Definition call_get_nodes_via_rest (url : string * Z) (nodes_i_need : list string)
    (announce_nodes : bool) (certificate_filepath : option string) : M Response :=
  fun w =>
    let '(r, e) :=
      get_nodes_via_rest (env w) url nodes_i_need announce_nodes certificate_filepath in
    (r, set_env e
          (set_requests_sent
             (requests_sent w ++
                [get_nodes_via_rest_request url nodes_i_need announce_nodes certificate_filepath]) w)).

(** Modelled from the spec: [_write_tls_certificate] of
    nucypher/config/keyring.py is not in this module; the spec's
    [CertificateSink] has [write(certificate, path, force) -> unit], which
    persists the certificate at the path. *)
Definition _write_tls_certificate (certificate : Certificate) (full_filepath : string)
    (force : bool) : M unit :=
  modify (fun w => set_disk (dict_set full_filepath certificate (disk w)) w).

(** Modelled from the spec: the node storage class is not in this module;
    the spec's [NodeStore] has [save(record) -> id] and
    [load_all() -> sequence of records]. *)
Definition node_storage_save (node : nat) : M nat :=
  do _ <- modify (fun w => set_node_storage (node_storage w ++ [node]) w);
  ret node.

Definition node_storage_all (federated_only : bool) : M (list nat) :=
  gets node_storage.

(** ** [VerifiableNode] *)

(** [self.stamp(message)]: a stranger (a node known by its public keys only)
    cannot sign. *)
Definition stamp_call (node : nat) (message : bytes) : M bytes :=
  do n <- deref node;
  if can_sign n then ret (stamp_sign n message) else raise NoSigningPower.

Definition _signable_interface_info_message (node : nat) : M bytes :=
  do n <- deref node;
  ret (canonical_public_address n ++ interface_info_bytes (rest_host n) (rest_port n))%list.

(** [timestamp_bytes] inside reads the timestamp that was just set. *)
Definition _sign_and_date_interface_info (node : nat) : M unit :=
  do message <- _signable_interface_info_message node;
  do now <- maya_now;
  do _ <- update_node node (set_timestamp (Some now));
  do timestamp_bytes <- lift_outcome (to_bytes_4_big now);
  do signature <- stamp_call node (timestamp_bytes ++ message)%list;
  update_node node (set_interface_signature_object (Some signature)).

Definition reraise_NoSigningPower {A} (e : exn) : option (M A) :=
  if isa_NoSigningPower e then Some (raise NoSigningPower) else None.

(** The property [_interface_signature]. *)
Definition _interface_signature (node : nat) : M bytes :=
  do n <- deref node;
  match _interface_signature_object n with
  | Some signature => ret signature
  | None =>
      do _ <- try_except (_sign_and_date_interface_info node) reraise_NoSigningPower;
      do n' <- deref node;
      match _interface_signature_object n' with
      | Some signature => ret signature
      | None => raise (OtherError "unreachable: the signature was just set")
      end
  end.

(** The property [timestamp]. *)
Definition timestamp (node : nat) : M Z :=
  do n <- deref node;
  match _timestamp n with
  | Some t => ret t
  | None =>
      do _ <- try_except (_sign_and_date_interface_info node) reraise_NoSigningPower;
      do n' <- deref node;
      match _timestamp n' with
      | Some t => ret t
      | None => raise (OtherError "unreachable: the timestamp was just set")
      end
  end.

Definition timestamp_bytes (node : nat) : M bytes :=
  do t <- timestamp node;
  lift_outcome (to_bytes_4_big t).

Definition _stamp_has_valid_wallet_signature (node : nat) : M bool :=
  do n <- deref node;
  match _evidence_of_decentralized_identity n with
  | None => ret false
  | Some signature_bytes =>
      do proper_address <- lift_outcome (recover_checksum_address signature_bytes (stamp n));
      ret (String.eqb proper_address (checksum_public_address n))
  end.

Definition stamp_is_valid (node : nat) : M bool :=
  do n <- deref node;
  let signature := _evidence_of_decentralized_identity n in
  do valid <- _stamp_has_valid_wallet_signature node;
  if valid then
    do _ <- update_node node (set_verified_stamp true);
    ret true
  else if node_federated_only n && evidence_eqb signature None then raise WrongMode
  else raise InvalidNode.

Definition interface_is_valid (node : nat) : M bool :=
  do interface_info_message <- _signable_interface_info_message node;
  do stamp_bytes <- timestamp_bytes node;
  let message := (stamp_bytes ++ interface_info_message)%list in
  do signature <- _interface_signature node;
  do n <- deref node;
  let interface_is_valid := signature_verify signature message (verifying_key n) in
  do _ <- update_node node (set_verified_interface interface_is_valid);
  if interface_is_valid then ret true else raise InvalidNode.

Definition validate_metadata (node : nat) (accept_federated_only : bool) : M unit :=
  do n <- deref node;
  do _ <- when (negb (verified_interface n)) (do _ <- interface_is_valid node; ret tt);
  do n <- deref node;
  when (negb (verified_stamp n))
    (try_except (do _ <- stamp_is_valid node; ret tt)
       (fun e =>
          if isa_WrongMode e
          then Some (if negb accept_federated_only then raise e else ret tt)
          else None)).

(** [verify_node] returns [True] for a node already verified and falls off
    its end ([None]) after a successful verification. *)
Definition verify_node (node : nat) (certificate_filepath : option string)
    (accept_federated_only force : bool) : M (option bool) :=
  do n <- deref node;
  if negb force && _verified_node n then ret (Some true) else
  do _ <- validate_metadata node accept_federated_only;
  do n <- deref node;
  do response <- call_node_information (rest_host n) (rest_port n) certificate_filepath;
  if negb (status_code response =? 200)%Z then raise RuntimeError else
  do info <- lift_outcome (_internal_splitter (content response));
  do n <- deref node;
  let verifying_keys_match := bytes_eqb (info_verifying_key info) (verifying_key n) in
  let encrypting_keys_match := bytes_eqb (info_encrypting_key info) (encrypting_key n) in
  let addresses_match := bytes_eqb (info_public_address info) (canonical_public_address n) in
  let evidence_matches :=
    evidence_eqb (info_identity_evidence info) (_evidence_of_decentralized_identity n) in
  if negb (encrypting_keys_match && verifying_keys_match && addresses_match && evidence_matches)
  then
    do _ <- when (negb addresses_match)
              (sendMessage Warn "Wallet address swapped out.  It appears that someone is trying to defraud this node.");
    do _ <- when (negb verifying_keys_match)
              (sendMessage Warn "Verifying key swapped out.  It appears that someone is impersonating this node.");
    raise InvalidNode
  else
    do _ <- update_node node (set_verified_node true);
    ret None.

Definition certificate_filename (n : VerifiableNode) : string :=
  checksum_public_address n ++ ".pem".

Definition get_certificate_filepath (n : VerifiableNode) (certificates_dir : string) : string :=
  path_join certificates_dir (certificate_filename n).

Definition save_certificate_to_disk (node : nat) (directory : string) (force : bool) : M unit :=
  do n <- deref node;
  let common_name_from_cert := common_name (certificate n) in
  if negb (String.eqb (rest_host n) common_name_from_cert) then raise ValueError else
  let certificate_filepath := get_certificate_filepath n directory in
  do _ <- _write_tls_certificate (certificate n) certificate_filepath force;
  update_node node (set_certificate_filepath certificate_filepath).

(** ** [FleetState] and [Learner] *)

(** The setter of the property [FleetState.checksum]. *)
Definition set_checksum (checksum_value : string) (f : FleetState) : FleetState :=
  let '(nickname, nickname_metadata) := nickname_from_seed checksum_value 1 in
  {| entries := entries f; _checksum := Some checksum_value;
     _nickname := Some nickname; _nickname_metadata := Some nickname_metadata;
     updated := updated f |}.

Definition sorted_nodes : M (list nat) :=
  do s <- self;
  do h <- gets heap;
  let nodes_to_consider := dict_values (entries (known_nodes s)) in
  ret (sorted_by_key (fun n => checksum_public_address (h n)) nodes_to_consider).

Definition update_fleet_state : M unit :=
  do nodes <- sorted_nodes;
  do h <- gets heap;
  let checksum := hex (keccak_digest (bytes_join (map (fun n => bytes_of_node (h n)) nodes))) in
  do _ <- update_self (fun s => set_known_nodes (set_checksum checksum (known_nodes s)) s);
  do now <- maya_now;
  update_self (fun s => set_known_nodes (set_updated now (known_nodes s)) s).

Definition write_node_metadata (node : nat) : M nat := node_storage_save node.

(** The handlers of the [try] around [verify_node] in [remember_node].  The
    second one formats [already_known_node] into its message, a local that is
    bound only when the lookup in [known_nodes] succeeded. *)
Definition remember_node_handlers (already_known_node : option nat) (e : exn)
    : option (M bool) :=
  if isa_SSLError e then Some (ret false)
  else if isa_requests_ConnectionError e || isa_ReadTimeout e then
    Some (match already_known_node with
          | None => raise (UnboundLocalError "already_known_node")
          | Some _ =>
              do _ <- sendMessage Info "Skipping already known node";
              ret false
          end)
  else None.

(** The lines of [remember_node] after the verification, from
    [listeners = self._learning_listeners.pop(...)] to [return True].
    [update_fleet_stfate] is the name the source calls: the learner has no
    attribute of that name, the call raises [AttributeError]. *)
Definition remember_node_store (node : nat) (update_fleet_state : bool) : M bool :=
  do n <- deref node;
  do s <- self;
  let listeners :=
    default [] (dict_get (checksum_public_address n) (_learning_listeners s)) in
  do _ <- update_self (fun s =>
            set_learning_listeners
              (dict_remove (checksum_public_address n) (_learning_listeners s)) s);
  let address := checksum_public_address n in
  do _ <- update_self (fun s =>
            set_known_nodes
              (set_entries (dict_set address node (entries (known_nodes s)))
                 (known_nodes s)) s);
  do _ <- when (save_metadata s) (do _ <- write_node_metadata node; ret tt);
  do _ <- sendMessage Info "Remembering, popping listeners.";
  do _ <- for_each listeners
            (fun listener =>
               modify (fun w => set_notified (notified w ++ [(listener, address)]) w));
  do _ <- update_self (fun s =>
            set_node_ids_to_learn_about_immediately
              (set_discard String.eqb address (_node_ids_to_learn_about_immediately s)) s);
  do _ <- when update_fleet_state (raise (AttributeError "update_fleet_stfate"));
  ret true.

(** [remember_node]; its last lines are [remember_node_store]. *)
Definition remember_node (node : nat) (force_verification_check update_fleet_state : bool)
    : M bool :=
  do n <- deref node;
  if node_is_self node n then ret false else
  (* with suppress(KeyError): *)
  do s <- self;
  let already_known_node := dict_get (checksum_public_address n) (entries (known_nodes s)) in
  do outdated <-
    match already_known_node with
    | None => ret false
    | Some known =>
        do t <- timestamp node;
        do t_known <- timestamp known;
        if negb (t >? t_known)%Z then
          do _ <- sendMessage Debug "Skipping already known node";
          ret true
        else ret false
    end;
  if outdated then ret false else
  do _ <- save_certificate_to_disk node (known_certificates_dir s) true;
  do n <- deref node;
  let certificate_filepath := get_certificate_filepath n (known_certificates_dir s) in
  do verified <-
    try_except
      (do _ <- verify_node node (Some certificate_filepath) (federated_only s)
                 force_verification_check;
       ret true)
      (remember_node_handlers already_known_node);
  if negb verified then ret false else
  remember_node_store node update_fleet_state.

Definition read_nodes_from_storage : M unit :=
  do s <- self;
  do stored_nodes <- node_storage_all (federated_only s);
  for_each stored_nodes (fun node => do _ <- remember_node node false true; ret tt).

Definition call_from_seednode_metadata (seednode_metadata : SeednodeMetadata)
    (certificates_directory : string) (timeout : Z) (federated_only : bool)
    : M (option nat) :=
  do r <- (fun w =>
             let '(r, e) := from_seednode_metadata (env w) seednode_metadata
                              certificates_directory timeout federated_only in
             (r, set_env e w));
  match r with
  | None => ret None
  | Some n => do o <- allocate n; ret (Some o)
  end.

(** The closure [__attempt_seednode_learning] of [load_seednodes]. *)
Definition __attempt_seednode_learning (timeout : Z) (seednode_metadata : SeednodeMetadata)
    : M unit :=
  do _ <- sendMessage Debug "Seeding from";
  do s <- self;
  do seed_node <- call_from_seednode_metadata seednode_metadata
                    (known_certificates_dir s) timeout (federated_only s);
  match seed_node with
  | None =>
      update_self (fun s =>
        set_unresponsive_seed_nodes
          (set_add SeednodeMetadata_eqb seednode_metadata (unresponsive_seed_nodes s)) s)
  | Some seed_node =>
      do _ <- update_self (fun s =>
        set_unresponsive_seed_nodes
          (set_discard SeednodeMetadata_eqb seednode_metadata (unresponsive_seed_nodes s)) s);
      do _ <- remember_node seed_node false true;
      ret tt
  end.

Definition load_seednodes (read_storages : bool) (retry_attempts retry_rate timeout : Z)
    : M unit :=
  do s <- self;
  if done_seeding s then
    sendMessage Debug "Already done seeding; won't try again."
  else
    do _ <- for_each (_seed_nodes s) (__attempt_seednode_learning timeout);
    do s <- self;
    do _ <- when (is_empty (unresponsive_seed_nodes s))
              (sendMessage Info "Finished learning about all seednodes.");
    do _ <- update_self (set_done_seeding true);
    do _ <- when read_storages read_nodes_from_storage;
    do s <- self;
    when (is_empty (entries (known_nodes s)))
      (sendMessage Warn "No seednodes were available after attempts").

Definition shuffled_known_nodes : M (list nat) :=
  do s <- self;
  do nodes_we_know_about <-
    (fun w =>
       let '(l, e) := shuffle (env w) (dict_values (entries (known_nodes s))) in
       (Ok l, set_env e w));
  do _ <- sendMessage KnownNodes "known nodes";
  do _ <- sendMessage Info "Shuffled known nodes";
  ret nodes_we_know_about.

Definition select_teacher_nodes : M unit :=
  do nodes_we_know_about <- shuffled_known_nodes;
  if is_empty nodes_we_know_about then raise NotEnoughTeachers else
  update_self (fun s => set_teacher_nodes (teacher_nodes s ++ nodes_we_know_about) s).

Definition cycle_teacher_node : M unit :=
  do s <- self;
  do _ <- when (negb (is_empty (unresponsive_seed_nodes s)))
            (do _ <- sendMessage Info "Still have unresponsive seed nodes; trying again to connect.";
             load_seednodes true 3 2 3);
  do s <- self;
  do _ <- when (is_empty (teacher_nodes s)) select_teacher_nodes;
  do s <- self;
  match deque_pop (teacher_nodes s) with
  | None => raise NotEnoughTeachers
  | Some (teacher, rest) =>
      do _ <- update_self (fun s =>
                set_current_teacher_node (Some teacher) (set_teacher_nodes rest s));
      sendMessage Info "Cycled teachers; New teacher is"
  end.

Definition current_teacher_node (cycle : bool) : M nat :=
  do _ <- when cycle cycle_teacher_node;
  do s <- self;
  do _ <- when (negb (bool_decide (is_Some (_current_teacher_node s)))) cycle_teacher_node;
  do s <- self;
  match _current_teacher_node s with
  | Some teacher => ret teacher
  | None => raise (OtherError "unreachable: cycle_teacher_node sets the teacher or raises")
  end.

Definition _adjust_learning (node_list : list nat) : M unit :=
  if negb (is_empty node_list) then
    do _ <- update_self (set_rounds_without_new_nodes 0);
    update_self (fun s =>
      set_learning_task (set_interval _SHORT_LEARNING_DELAY (_learning_task s)) s)
  else
    do _ <- update_self (fun s =>
              set_rounds_without_new_nodes (_rounds_without_new_nodes s + 1) s);
    do s <- self;
    when (_rounds_without_new_nodes s >? _ROUNDS_WITHOUT_NODES_AFTER_WHICH_TO_SLOW_DOWN)%Z
      (do _ <- sendMessage Info "After rounds with no new nodes, it's time to slow down.";
       update_self (fun s =>
         set_learning_task (set_interval _LONG_LEARNING_DELAY (_learning_task s)) s)).

(** [_crash_gracefully]: the failure is recorded and raised again; the log
    line after it is never reached. *)
Definition _crash_gracefully (failure : exn) : M unit :=
  do _ <- update_self (set_crashed (Some failure));
  raise failure.

(** The body of the [for node in node_list] loop of
    [learn_from_teacher_node], and the loop. *)
Definition learn_from_teacher_node_body (eager : bool) (current_teacher : nat)
    (node : nat) (new_nodes : list nat) : M (list nat) :=
  do s <- self;
  do _ <-
    try_except
      (if eager then
         do teacher <- deref current_teacher;
         let certificate_filepath :=
           get_certificate_filepath teacher (known_certificates_dir s) in
         do _ <- verify_node node (Some certificate_filepath) (federated_only s) false;
         sendMessage Debug "Verified node"
       else validate_metadata node (federated_only s))
      (fun e =>
         if isa_SuspiciousActivity e
         then Some (sendMessage Warn "Suspicious Activity: Discovered node with bad signature.")
         else None);
  do new <- remember_node node false true;
  ret (if new then (new_nodes ++ [node])%list else new_nodes).

Fixpoint learn_from_teacher_node_loop (eager : bool) (current_teacher : nat)
    (node_list : list nat) (new_nodes : list nat) : M (list nat) :=
  match node_list with
  | [] => ret new_nodes
  | node :: node_list' =>
      do new_nodes <- learn_from_teacher_node_body eager current_teacher node new_nodes;
      learn_from_teacher_node_loop eager current_teacher node_list' new_nodes
  end.

Fixpoint allocate_all (l : list VerifiableNode) : M (list nat) :=
  match l with
  | [] => ret []
  | n :: l' =>
      do o <- allocate (as_constructed n);
      do os <- allocate_all l';
      ret (o :: os)
  end.

(** The lines of [learn_from_teacher_node] from [new_nodes = []] to
    [return new_nodes]: the loop over the batch of the teacher, the
    adjustment of the schedule, the next teacher, the certificates. *)
Definition learn_from_teacher_node_batch (eager : bool) (current_teacher : nat)
    (node_list : list nat) : M (option (list nat)) :=
  do new_nodes <- learn_from_teacher_node_loop eager current_teacher node_list [];
  do _ <- _adjust_learning new_nodes;
  do now <- maya_now;
  do _ <- update_node current_teacher (set_last_seen (Some now));
  do _ <- cycle_teacher_node;
  do _ <- sendMessage Info "Learning round.  Teacher knew about nodes, some were new.";
  do s <- self;
  do _ <- when (negb (is_empty new_nodes) && negb (String.eqb (known_certificates_dir s) ""))
            (for_each new_nodes
               (fun node => save_certificate_to_disk node (known_certificates_dir s) true));
  ret (Some new_nodes).

(** [learn_from_teacher_node] answers [None] when the round ends early and
    the list of new nodes otherwise; its last lines are
    [learn_from_teacher_node_batch]. *)
Definition learn_from_teacher_node (eager : bool) : M (option (list nat)) :=
  do _ <- update_self (fun s => set_learning_round (_learning_round s + 1) s);
  do current_teacher <-
    try_except (do t <- current_teacher_node false; ret (Some t))
      (fun e =>
         if isa_NotEnoughTeachers e
         then Some (do _ <- sendMessage Warn "Can't learn right now"; ret None)
         else None);
  match current_teacher with
  | None => ret None
  | Some current_teacher =>
      do teacher <- deref current_teacher;
      let rest_url := (rest_host teacher, rest_port teacher) in
      do s <- self;
      let announce_nodes := is_verifiable_node s in
      do response <-
        try_except
          (let certificate_filepath :=
             get_certificate_filepath teacher (known_certificates_dir s) in
           do r <- call_get_nodes_via_rest rest_url
                     (_node_ids_to_learn_about_immediately s) announce_nodes
                     (Some certificate_filepath);
           ret (Some r))
          (fun e =>
             if isa_requests_ConnectionError e
             then Some (do _ <- sendMessage Info "No Response from teacher";
                        do _ <- cycle_teacher_node;
                        ret None)
             else None);
      match response with
      | None => ret None
      | Some response =>
          if negb (status_code response =? 200)%Z then raise RuntimeError else
          do '(signature, nodes) <- lift_outcome (signature_splitter (content response));
          do parsed <- lift_outcome (batch_from_bytes nodes (federated_only s));
          do node_list <- allocate_all parsed;
          learn_from_teacher_node_batch eager current_teacher node_list
      end
  end.

(** ** Waiting for nodes *)

(** What [block_until_specific_nodes_are_known] returns: the recorded
    failure, or a boolean. *)
Inductive block_result : Type :=
  | returned_failure (failure : exn)
  | returned_bool (b : bool).

(** [canonical_addresses.issubset(known_nodes)] and
    [canonical_addresses.difference(known_nodes)], the set given as a list. *)
Definition issubset (canonical_addresses : list string) (known : dict nat) : bool :=
  forallb (fun a => dict_contains a known) canonical_addresses.

Definition difference (canonical_addresses : list string) (known : dict nat) : list string :=
  List.filter (fun a => negb (dict_contains a known)) (nodup string_dec canonical_addresses).

(** One pass through the body of [while True]: [Some r] when the method
    returns [r], [None] when it reaches [time.sleep(.1)]. *)
Definition block_until_specific_nodes_are_known_body
    (canonical_addresses : list string) (timeout allow_missing : Z)
    (learn_on_this_thread : bool) (start starting_round : Z) : M (option block_result) :=
  do s <- self;
  match _crashed s with
  | Some failure => ret (Some (returned_failure failure))
  | None =>
      let rounds_undertaken := (_learning_round s - starting_round)%Z in
      if issubset canonical_addresses (entries (known_nodes s)) then
        do _ <- when (negb (rounds_undertaken =? 0)%Z)
                  (sendMessage Info "Learned about all nodes after rounds.");
        ret (Some (returned_bool true))
      else
        do _ <- when (negb (running (_learning_task s)))
                  (sendMessage Warn "Blocking to learn about nodes, but learning loop isn't running.");
        do _ <- when learn_on_this_thread (do _ <- learn_from_teacher_node true; ret tt);
        do now <- maya_now;
        if (timedelta_seconds (now - start) >? timeout)%Z then
          do s <- self;
          let still_unknown := difference canonical_addresses (entries (known_nodes s)) in
          if (Z.of_nat (length still_unknown) <=? allow_missing)%Z then
            ret (Some (returned_bool false))
          else if negb (running (_learning_task s)) then raise NotEnoughTeachers
          else raise NotEnoughTeachers
        else ret None
  end.

(** The loop.  While the method sleeps the other threads run: each element
    of [sleeps] is what one [time.sleep(.1)] does to the world (the clock
    moves, the learning task runs or crashes).  [None]: the method is still
    polling when the given sleeps are used up. *)
Fixpoint block_until_specific_nodes_are_known_loop (sleeps : list (World -> World))
    (canonical_addresses : list string) (timeout allow_missing : Z)
    (learn_on_this_thread : bool) (start starting_round : Z) (w : World)
    : option (outcome block_result * World) :=
  match block_until_specific_nodes_are_known_body canonical_addresses timeout
          allow_missing learn_on_this_thread start starting_round w with
  | (Raise e, w') => Some (Raise e, w')
  | (Ok (Some r), w') => Some (Ok r, w')
  | (Ok None, w') =>
      match sleeps with
      | [] => None
      | during_sleep :: sleeps' =>
          block_until_specific_nodes_are_known_loop sleeps' canonical_addresses timeout
            allow_missing learn_on_this_thread start starting_round (during_sleep w')
      end
  end.

Definition block_until_specific_nodes_are_known (sleeps : list (World -> World))
    (canonical_addresses : list string) (timeout allow_missing : Z)
    (learn_on_this_thread : bool) (w : World) : option (outcome block_result * World) :=
  let start := clock w in
  let starting_round := _learning_round (me w) in
  block_until_specific_nodes_are_known_loop sleeps canonical_addresses timeout
    allow_missing learn_on_this_thread start starting_round w.

(** ** Successive rounds *)

(** The calls of [learn_from_teacher_node] the learning task makes one after
    the other, each taken to its end, be it a return or an exception. *)
Fixpoint learning_rounds (eagers : list bool) (w : World) : World :=
  match eagers with
  | [] => w
  | eager :: eagers' => learning_rounds eagers' (learn_from_teacher_node eager w).2
  end.

(** ** Live answers *)

(** What the liveness check of [verify_node] compares: the live answer
    carries the keys, the address and the evidence of the record. *)
Definition same_credentials (info : NodeInfo) (n : VerifiableNode) : Prop :=
  info_encrypting_key info = encrypting_key n
  /\ info_verifying_key info = verifying_key n
  /\ info_public_address info = canonical_public_address n
  /\ info_identity_evidence info = _evidence_of_decentralized_identity n.

(** The live answer carries a verifying key, an encrypting key, an address
    or an evidence that is not the one of the record. *)
Definition different_credentials (info : NodeInfo) (n : VerifiableNode) : Prop :=
  info_verifying_key info <> verifying_key n
  \/ info_encrypting_key info <> encrypting_key n
  \/ info_public_address info <> canonical_public_address n
  \/ info_identity_evidence info <> _evidence_of_decentralized_identity n.

(** ** The members of a fleet *)

(** The records [known_nodes] holds, in the order of the dict. *)
Definition records (w : World) : list VerifiableNode :=
  map (heap w) (dict_values (entries (known_nodes (me w)))).

(** The mapping after [known_nodes[address] = node] for the nodes of a list,
    in the order of the list, starting from the empty fleet. *)
Definition remembered_in_order (h : nat -> VerifiableNode) (nodes : list nat) : dict nat :=
  fold_left (fun d node => dict_set (checksum_public_address (h node)) node d) nodes [].

(** The checksum [update_fleet_state] computes. *)
Definition checksum_after_update (w : World) : option string :=
  _checksum (known_nodes (me (update_fleet_state w).2)).

End Network.

(** * More of the module *)

(** [int.from_bytes(b, 'big')], what the splitter
    [_interface_info_splitter = (int, 4, {'byteorder': 'big'})] applies to the
    four bytes of a timestamp. *)
Definition int_from_bytes_big (b : bytes) : Z :=
  fold_left (fun acc x => (acc * 256 + Z.of_N (Byte.to_N x))%Z) b 0%Z.

Definition isa_ConnectTimeout (e : exn) : bool :=
  match e with ConnectTimeout => true | _ => false end.

Section Network_more.
Context `{Collaborators}.

Abbreviation M := (Comp World).

(** [VerifiableNode.sorted_nodes]: the known nodes and the node itself. *)
Definition VerifiableNode_sorted_nodes (self_node : nat) : M (list nat) :=
  do s <- self;
  do h <- gets heap;
  let nodes_to_consider := (dict_values (entries (known_nodes s)) ++ [self_node])%list in
  ret (sorted_by_key (fun n => checksum_public_address (h n)) nodes_to_consider).

(** [_learning_listeners] is a [defaultdict(list)]: reading a missing key
    puts an empty list under it. *)
Definition _push_certain_newly_discovered_nodes_here (queue_to_push : nat)
    (node_addresses : list string) : M unit :=
  for_each node_addresses
    (fun node_address =>
       do _ <- sendMessage Info "Adding listener for";
       update_self (fun s =>
         set_learning_listeners
           (dict_set node_address
              (default [] (dict_get node_address (_learning_listeners s))
               ++ [queue_to_push])%list
              (_learning_listeners s)) s)).

Definition keep_learning_about_nodes : M unit :=
  do _ <- learn_from_teacher_node false;
  ret tt.

(** One pass through the body of [while True] in
    [block_until_number_of_known_nodes_is]: [Some r] when the method returns
    [r], [None] when it reaches [time.sleep(.1)]. *)
Definition block_until_number_of_known_nodes_is_body
    (number_of_nodes_to_know timeout : Z) (learn_on_this_thread : bool)
    (start starting_round : Z) : M (option bool) :=
  do s <- self;
  let rounds_undertaken := (_learning_round s - starting_round)%Z in
  if (Z.of_nat (length (entries (known_nodes s))) >=? number_of_nodes_to_know)%Z then
    do _ <- when (negb (rounds_undertaken =? 0)%Z)
              (sendMessage Info "Learned about enough nodes after rounds.");
    ret (Some true)
  else
    do _ <- when (negb (running (_learning_task s)))
              (sendMessage Warn "Blocking to learn about nodes, but learning loop isn't running.");
    do _ <- when learn_on_this_thread
              (try_except (do _ <- learn_from_teacher_node true; ret tt)
                 (fun e =>
                    if isa_ReadTimeout e || isa_ConnectTimeout e
                    then Some (sendMessage Warn "Teacher was unreachable.  No good way to handle this on the main thread.")
                    else None));
    do now <- maya_now;
    if (timedelta_seconds (now - start) >? timeout)%Z then
      do s <- self;
      if negb (running (_learning_task s)) then raise NotEnoughTeachers
      else raise NotEnoughTeachers
    else ret None.

(** The loop, with the sleeps as in
    [block_until_specific_nodes_are_known_loop]. *)
Fixpoint block_until_number_of_known_nodes_is_loop (sleeps : list (World -> World))
    (number_of_nodes_to_know timeout : Z) (learn_on_this_thread : bool)
    (start starting_round : Z) (w : World) : option (outcome bool * World) :=
  match block_until_number_of_known_nodes_is_body number_of_nodes_to_know timeout
          learn_on_this_thread start starting_round w with
  | (Raise e, w') => Some (Raise e, w')
  | (Ok (Some r), w') => Some (Ok r, w')
  | (Ok None, w') =>
      match sleeps with
      | [] => None
      | during_sleep :: sleeps' =>
          block_until_number_of_known_nodes_is_loop sleeps' number_of_nodes_to_know
            timeout learn_on_this_thread start starting_round (during_sleep w')
      end
  end.

Definition block_until_number_of_known_nodes_is (sleeps : list (World -> World))
    (number_of_nodes_to_know timeout : Z) (learn_on_this_thread : bool) (w : World)
    : option (outcome bool * World) :=
  let start := clock w in
  let starting_round := _learning_round (me w) in
  block_until_number_of_known_nodes_is_loop sleeps number_of_nodes_to_know timeout
    learn_on_this_thread start starting_round w.

End Network_more.

(** ** The seed nodes of [VerifiableNode]

    The class methods that connect to a node by its host: they build the
    node from the answer of the host.  [network_middleware.get_certificate]
    and [cls.from_bytes] are not in this module. *)

Definition isa_InvalidNode (e : exn) : bool :=
  match e with InvalidNode => true | _ => false end.

(** [if checksum_address:] is false for [None] and for the empty string. *)
Definition truthy (checksum_address : option string) : bool :=
  match checksum_address with
  | Some a => negb (String.eqb a "")
  | None => false
  end.

(** ['{}'.format(checksum_address)] *)
Definition format_address (checksum_address : option string) : string :=
  match checksum_address with
  | Some a => a
  | None => "None"
  end.

Section Seeding.
Context `{Collaborators}.
Context (get_certificate : Env -> string -> Z -> outcome Certificate * Env).
Context (from_bytes : bytes -> bool -> outcome VerifiableNode).

Abbreviation M := (Comp World).

Definition call_get_certificate (host : string) (port : Z) : M Certificate :=
  fun w =>
    let '(r, e) := get_certificate (env w) host port in
    (r, set_env e w).

Definition from_rest_url (host : string) (port : Z) (certificate_filepath : option string)
    (federated_only : bool) : M nat :=
  do response <- call_node_information host port certificate_filepath;
  if negb (status_code response =? 200)%Z then raise RuntimeError else
  do stranger_ursula_from_public_keys <-
    lift_outcome (from_bytes (content response) federated_only);
  allocate (as_constructed stranger_ursula_from_public_keys).

Definition from_seed_and_stake_info (host certificates_directory : string)
    (federated_only : bool) (port : Z) (checksum_address : option string)
    (minimum_stake : Z) : M nat :=
  do certificate <- call_get_certificate host port;
  let real_host := common_name certificate in
  let filename := format_address checksum_address ++ ".pem" in
  let certificate_filepath := path_join certificates_directory filename in
  do _ <- _write_tls_certificate certificate certificate_filepath true;
  do potential_seed_node <- from_rest_url real_host port (Some certificate_filepath) true;
  do n <- deref potential_seed_node;
  do _ <-
    (if truthy checksum_address then
       if negb (String.eqb (format_address checksum_address) (checksum_public_address n))
       then raise SuspiciousActivity
       else ret tt
     else if (minimum_stake >? 0)%Z then raise NotImplementedError
     else ret tt);
  do _ <- try_except
            (verify_node potential_seed_node (Some certificate_filepath) federated_only false)
            (fun e => if isa_InvalidNode e then Some (raise e) else None);
  ret potential_seed_node.

(** [VerifiableNode.from_seednode_metadata] *)
Definition VerifiableNode_from_seednode_metadata (seednode_metadata : SeednodeMetadata)
    (certificates_directory : string) (federated_only : bool) : M nat :=
  from_seed_and_stake_info (seed_rest_host seednode_metadata) certificates_directory
    federated_only (seed_rest_port seednode_metadata)
    (Some (seed_checksum_address seednode_metadata)) 0.

End Seeding.

(** * A small network

    One teacher and three nodes it can tell about, over collaborators simple
    enough to run: a signature is valid when it repeats the verifying key, a
    node answers [node_information] with its verifying key, and the teacher
    answers [get_nodes_via_rest] with one byte per node. *)

Definition demo_certificate (host : string) : Certificate :=
  {| common_name := host; cert_bytes := [] |}.

(** A federated node at [host] that is known by its public keys. *)
Definition demo_node (address host : string) (key signature : bytes) (t : Z)
    : VerifiableNode :=
  {| checksum_public_address := address;
     canonical_public_address := [];
     stamp := key;
     verifying_key := key;
     encrypting_key := [];
     can_sign := false;
     node_federated_only := true;
     rest_host := host;
     rest_port := 9151;
     certificate := demo_certificate host;
     certificate_filepath := "";
     _interface_signature_object := Some signature;
     _timestamp := Some t;
     _evidence_of_decentralized_identity := None;
     last_seen := None;
     verified_stamp := false;
     verified_interface := false;
     _verified_node := false |}.

Definition demo_teacher : VerifiableNode :=
  demo_node "0xA" "teacher.example" [Byte.x0a] [Byte.x0a] 100.

(** A node whose signature and live answer are in order. *)
Definition demo_good : VerifiableNode :=
  demo_node "0xB" "good.example" [Byte.x01] [Byte.x01] 100.

(** A node whose interface signature is not valid. *)
Definition demo_forged : VerifiableNode :=
  demo_node "0xC" "forged.example" [Byte.x02] [Byte.xff] 100.

(** A node whose metadata is in order and whose live answer carries another
    verifying key. *)
Definition demo_impostor : VerifiableNode :=
  demo_node "0xD" "impostor.example" [Byte.x03] [Byte.x03] 100.

(** A node whose metadata is in order and whose host does not answer. *)
Definition demo_ghost : VerifiableNode :=
  demo_node "0xE" "ghost.example" [Byte.x04] [Byte.x04] 100.

(** A later and an earlier advertisement of the good node. *)
Definition demo_good_newer : VerifiableNode :=
  demo_node "0xB" "good.example" [Byte.x01] [Byte.x01] 200.

Definition demo_good_older : VerifiableNode :=
  demo_node "0xB" "good.example" [Byte.x01] [Byte.x01] 50.

Definition demo_answer (key : bytes) : outcome Response :=
  Ok {| status_code := 200; content := key |}.

Definition demo_node_information (e : unit) (host : string) (port : Z)
    (certificate_filepath : option string) : outcome Response * unit :=
  (if String.eqb host "good.example" then demo_answer [Byte.x01]
   else if String.eqb host "teacher.example" then demo_answer [Byte.x0a]
   else if String.eqb host "forged.example" then demo_answer [Byte.x02]
   else if String.eqb host "impostor.example" then demo_answer [Byte.x09]
   else Raise RequestsConnectionError, e).

Definition demo_internal_splitter (content : bytes) : outcome NodeInfo :=
  Ok {| info_timestamp := 100; info_signature := content;
        info_identity_evidence := None; info_verifying_key := content;
        info_encrypting_key := []; info_public_address := [];
        info_certificate_vbytes := []; info_rest_info := [] |}.

(** The batch of the teacher: the forged node first, the good node second. *)
Definition demo_get_nodes_via_rest (e : unit) (url : string * Z)
    (nodes_i_need : list string) (announce_nodes : bool)
    (certificate_filepath : option string) : outcome Response * unit :=
  (Ok {| status_code := 200; content := [Byte.x02; Byte.x01] |}, e).

Definition demo_node_of_byte (b : Byte.byte) : VerifiableNode :=
  if Byte.eqb b Byte.x01 then demo_good
  else if Byte.eqb b Byte.x02 then demo_forged
  else if Byte.eqb b Byte.x03 then demo_impostor
  else demo_ghost.

Lemma demo_shuffle_Permutation (e : unit) (l : list nat) : Permutation (l, e).1 l.
Proof. reflexivity. Qed.

Definition demo_network : Collaborators :=
  {| Env := unit;
     node_is_self := fun _ n => String.eqb (checksum_public_address n) "0xSelf";
     bytes_of_node := fun n => verifying_key n;
     keccak_digest := fun b => b;
     nickname_from_seed := fun seed _ => (seed, "");
     recover_checksum_address := fun _ _ => Raise (OtherError "BadSignature");
     signature_verify := fun signature _ key => bytes_eqb signature key;
     stamp_sign := fun n _ => verifying_key n;
     interface_info_bytes := fun _ _ => [];
     node_information := demo_node_information;
     get_nodes_via_rest := demo_get_nodes_via_rest;
     _internal_splitter := demo_internal_splitter;
     signature_splitter := fun content => Ok ([], content);
     batch_from_bytes := fun nodes _ => Ok (map demo_node_of_byte nodes);
     from_seednode_metadata := fun e _ _ _ _ => (Ok None, e);
     shuffle := fun e l => (l, e);
     shuffle_Permutation := demo_shuffle_Permutation |}.

Section Scenario.
Local Existing Instance demo_network.

Definition demo_fleet (d : dict nat) : FleetState :=
  {| entries := d; _checksum := None; _nickname := None;
     _nickname_metadata := None; updated := 0 |}.

(** A learner in federated mode whose learning task runs at the short
    interval. *)
Definition demo_learner (d : dict nat) (teachers : list nat) : Learner :=
  {| save_metadata := false;
     _abort_on_learning_error := false;
     _learning_listeners := [];
     _node_ids_to_learn_about_immediately := [];
     known_certificates_dir := "/certs";
     known_nodes := demo_fleet d;
     done_seeding := true;
     teacher_nodes := teachers;
     _current_teacher_node := None;
     _learning_task := {| running := true; interval := _SHORT_LEARNING_DELAY |};
     _learning_round := 0;
     _rounds_without_new_nodes := 0;
     _seed_nodes := [];
     unresponsive_seed_nodes := [];
     _crashed := None;
     federated_only := true;
     is_verifiable_node := false |}.

(** The objects: the teacher, the four nodes, the two other advertisements
    of the good node. *)
Definition demo_heap (o : nat) : VerifiableNode :=
  match o with
  | 0 => demo_teacher
  | 1 => demo_good
  | 2 => demo_forged
  | 3 => demo_impostor
  | 4 => demo_ghost
  | 5 => demo_good_newer
  | _ => demo_good_older
  end.

Definition demo_world (d : dict nat) (teachers : list nat) : World :=
  {| heap := demo_heap; next_oid := 7; env := tt; clock := 1000; stdout := [];
     disk := []; node_storage := []; notified := []; requests_sent := [];
     me := demo_learner d teachers |}.

(** The learner knows its teacher only. *)
Definition demo_start : World := demo_world [("0xA", 0)] [0].

(** The learner knows its teacher and the good node. *)
Definition demo_knows_good : World := demo_world [("0xA", 0); ("0xB", 1)] [0].

(** The same two members, remembered in the other order. *)
Definition demo_knows_good_reordered : World := demo_world [("0xB", 1); ("0xA", 0)] [0].

(** The good node after a verification. *)
Definition demo_verified : World :=
  (verify_node 1 (Some "/certs/0xB.pem") true false demo_start).2.

(** The learner with a recorded failure. *)
Definition demo_crashed : World := (_crash_gracefully RuntimeError demo_start).2.

(** A sleep of the waiting thread during which twenty seconds pass. *)
Definition demo_long_sleep (w : World) : World := set_clock (clock w + 20) w.

End Scenario.

(** ** More of the small network *)

Section MoreScenario.
Local Existing Instance demo_network.

(** The good node as a stranger without a timestamp. *)
Definition demo_undated : World :=
  set_heap (fun o => if Nat.eqb o 1 then set_timestamp None (heap demo_start o)
                     else heap demo_start o) demo_start.

(** The good node with a certificate made out to another host, as object 1. *)
Definition demo_misnamed_node : VerifiableNode :=
  {| checksum_public_address := "0xB";
     canonical_public_address := [];
     stamp := [Byte.x01];
     verifying_key := [Byte.x01];
     encrypting_key := [];
     can_sign := false;
     node_federated_only := true;
     rest_host := "good.example";
     rest_port := 9151;
     certificate := demo_certificate "elsewhere.example";
     certificate_filepath := "";
     _interface_signature_object := Some [Byte.x01];
     _timestamp := Some 100%Z;
     _evidence_of_decentralized_identity := None;
     last_seen := None;
     verified_stamp := false;
     verified_interface := false;
     _verified_node := false |}.

Definition demo_misnamed : World :=
  set_heap (fun o => if Nat.eqb o 1 then demo_misnamed_node else heap demo_start o)
    demo_start.

(** A learner that knows nobody. *)
Definition demo_alone : World := demo_world [] [].



(** A host hands out a certificate made out to itself, and a node is built
    from the first byte of an answer. *)
Definition demo_get_certificate (e : Env) (host : string) (port : Z)
    : outcome Certificate * Env :=
  (Ok (demo_certificate host), e).

Definition demo_from_bytes (content : bytes) (federated_only : bool)
    : outcome VerifiableNode :=
  match content with
  | b :: _ => Ok (demo_node_of_byte b)
  | [] => Raise ValueError
  end.

End MoreScenario.

(** The small network with a teacher that answers 503. *)
Definition demo_network_down : Collaborators :=
  {| Env := unit;
     node_is_self := fun _ n => String.eqb (checksum_public_address n) "0xSelf";
     bytes_of_node := fun n => verifying_key n;
     keccak_digest := fun b => b;
     nickname_from_seed := fun seed _ => (seed, "");
     recover_checksum_address := fun _ _ => Raise (OtherError "BadSignature");
     signature_verify := fun signature _ key => bytes_eqb signature key;
     stamp_sign := fun n _ => verifying_key n;
     interface_info_bytes := fun _ _ => [];
     node_information := demo_node_information;
     get_nodes_via_rest :=
       fun e _ _ _ _ => (Ok {| status_code := 503; content := [] |}, e);
     _internal_splitter := demo_internal_splitter;
     signature_splitter := fun content => Ok ([], content);
     batch_from_bytes := fun nodes _ => Ok (map demo_node_of_byte nodes);
     from_seednode_metadata := fun e _ _ _ _ => (Ok None, e);
     shuffle := fun e l => (l, e);
     shuffle_Permutation := demo_shuffle_Permutation |}.

Section DownScenario.
Local Existing Instance demo_network_down.

(** On it, the learner that knows its teacher and has it as the current
    one. *)
Definition demo_down_start : World :=
  {| heap := demo_heap; next_oid := 7; env := tt; clock := 1000; stdout := [];
     disk := []; node_storage := []; notified := []; requests_sent := [];
     me := set_current_teacher_node (Some 0) (demo_learner [("0xA", 0)] []) |}.

End DownScenario.

(** ** A network that follows a script

    The small network again, with a state: the answer of the teacher to
    [get_nodes_via_rest] is given by the script, and the host of the
    impostor answers [node_information] with the key [09] the first time it
    is asked and with the key [03] of its record from then on. *)

Record Script : Type := {
  teacher_answer : outcome bytes;
  impostor_asked : nat
}.

Definition demo_scripted_node_information (s : Script) (host : string) (port : Z)
    (certificate_filepath : option string) : outcome Response * Script :=
  if String.eqb host "impostor.example" then
    (demo_answer (if Nat.eqb (impostor_asked s) 0 then [Byte.x09] else [Byte.x03]),
     {| teacher_answer := teacher_answer s; impostor_asked := S (impostor_asked s) |})
  else ((demo_node_information tt host port certificate_filepath).1, s).

Definition demo_scripted_get_nodes_via_rest (s : Script) (url : string * Z)
    (nodes_i_need : list string) (announce_nodes : bool)
    (certificate_filepath : option string) : outcome Response * Script :=
  (match teacher_answer s with
   | Ok batch => Ok {| status_code := 200; content := batch |}
   | Raise e => Raise e
   end, s).

Lemma demo_scripted_shuffle_Permutation (s : Script) (l : list nat) : Permutation (l, s).1 l.
Proof. reflexivity. Qed.

Definition demo_scripted_network : Collaborators :=
  {| Env := Script;
     node_is_self := fun _ n => String.eqb (checksum_public_address n) "0xSelf";
     bytes_of_node := fun n => verifying_key n;
     keccak_digest := fun b => b;
     nickname_from_seed := fun seed _ => (seed, "");
     recover_checksum_address := fun _ _ => Raise (OtherError "BadSignature");
     signature_verify := fun signature _ key => bytes_eqb signature key;
     stamp_sign := fun n _ => verifying_key n;
     interface_info_bytes := fun _ _ => [];
     node_information := demo_scripted_node_information;
     get_nodes_via_rest := demo_scripted_get_nodes_via_rest;
     _internal_splitter := demo_internal_splitter;
     signature_splitter := fun content => Ok ([], content);
     batch_from_bytes := fun nodes _ => Ok (map demo_node_of_byte nodes);
     from_seednode_metadata := fun e _ _ _ _ => (Ok None, e);
     shuffle := fun e l => (l, e);
     shuffle_Permutation := demo_scripted_shuffle_Permutation |}.

Section ScriptedScenario.
Local Existing Instance demo_scripted_network.

(** The objects of the small network, a script for the teacher, a learner. *)
Definition demo_scripted_world (answer : outcome bytes) (s : Learner) : World :=
  {| heap := demo_heap; next_oid := 7;
     env := {| teacher_answer := answer; impostor_asked := 0 |};
     clock := 1000; stdout := []; disk := []; node_storage := []; notified := [];
     requests_sent := []; me := s |}.

(** The learner knows its teacher only; the teacher tells about the
    impostor, about the good node, about nobody, or does not answer. *)
Definition demo_impostor_batch : World :=
  demo_scripted_world (Ok [Byte.x03]) (demo_learner [("0xA", 0)] [0]).

Definition demo_good_batch : World :=
  demo_scripted_world (Ok [Byte.x01]) (demo_learner [("0xA", 0)] [0]).

Definition demo_empty_batch : World :=
  demo_scripted_world (Ok []) (demo_learner [("0xA", 0)] [0]).

Definition demo_silent_teacher : World :=
  demo_scripted_world (Raise RequestsConnectionError) (demo_learner [("0xA", 0)] [0]).

Definition demo_slow_teacher : World :=
  demo_scripted_world (Raise ReadTimeout) (demo_learner [("0xA", 0)] [0]).

(** The learner after eleven rounds without new nodes: it has slowed down. *)
Definition demo_good_batch_slowed : World :=
  demo_scripted_world (Ok [Byte.x01])
    (set_rounds_without_new_nodes 11
       (set_learning_task {| running := true; interval := _LONG_LEARNING_DELAY |}
          (demo_learner [("0xA", 0)] [0]))).

(** A sleep of the waiting thread during which the given seconds pass. *)
Definition demo_scripted_sleep (seconds : Z) (w : World) : World :=
  set_clock (clock w + seconds) w.

(** A sleep during which another thread stores the good node. *)
Definition demo_learning_sleep (w : World) : World :=
  (remember_node_store 1 false (set_clock (clock w + 1) w)).2.

End ScriptedScenario.

(** * Properties *)

Section Properties.
Context `{Collaborators}.

Abbreviation M := (Comp World).

(** ** What a computation leaves untouched *)

(** [respects R m]: the world [m] leaves is related by [R] to the world it
    was started in, whether [m] returns or raises. *)
Definition respects {A} (R : relation World) (m : M A) : Prop :=
  forall w, R w (m w).2.

Section Respects.
Context (R : relation World) `{!PreOrder R}.

Lemma respects_ret {A} (a : A) : respects R (ret a).
Proof. by intros w. Qed.

Lemma respects_raise {A} e : respects R (raise (A:=A) e).
Proof. by intros w. Qed.

Lemma respects_gets {A} (g : World -> A) : respects R (gets g).
Proof. by intros w. Qed.

Lemma respects_lift_outcome {A} (o : outcome A) : respects R (lift_outcome o).
Proof. by intros w. Qed.

Lemma respects_modify (g : World -> World) :
  (forall w, R w (g w)) -> respects R (modify g).
Proof. intros Hg w. apply Hg. Qed.

Lemma respects_bind {A B} (m : M A) (k : A -> M B) :
  respects R m -> (forall a, respects R (k a)) -> respects R (bind m k).
Proof.
  intros Hm Hk w. unfold bind. specialize (Hm w).
  destruct (m w) as [[a|e] w']; simpl in *; [|done].
  by etrans; [|apply Hk].
Qed.

Lemma respects_try_except {A} (m : M A) h :
  respects R m -> (forall e k, h e = Some k -> respects R k) ->
  respects R (try_except m h).
Proof.
  intros Hm Hh w. unfold try_except. specialize (Hm w).
  destruct (m w) as [[a|e] w']; simpl in *; [done|].
  destruct (h e) as [k|] eqn:He; [|done].
  by etrans; [|apply (Hh _ _ He)].
Qed.

Lemma respects_when b (m : M unit) : respects R m -> respects R (when b m).
Proof. destruct b; [done|]. intros _. apply respects_ret. Qed.

Lemma respects_for_each {A} (l : list A) body :
  (forall x, respects R (body x)) -> respects R (for_each l body).
Proof.
  intros Hb. induction l as [|x l IH]; simpl.
  - apply respects_ret.
  - apply respects_bind; [apply Hb | intros _; apply IH].
Qed.

Lemma respects_allocate n :
  (forall w, R w (set_next_oid (S (next_oid w))
                    (set_heap (fun o' => if Nat.eqb o' (next_oid w) then n else heap w o') w))) ->
  respects R (allocate n).
Proof. intros Hg w. apply Hg. Qed.

Lemma respects_call_node_information host port path :
  (forall w e r, R w (set_env e (set_requests_sent r w))) ->
  respects R (call_node_information host port path).
Proof.
  intros Hg w. unfold call_node_information.
  destruct (node_information _ _ _ _) as [r e]. apply Hg.
Qed.

Lemma respects_call_get_nodes_via_rest url need ann path :
  (forall w e r, R w (set_env e (set_requests_sent r w))) ->
  respects R (call_get_nodes_via_rest url need ann path).
Proof.
  intros Hg w. unfold call_get_nodes_via_rest.
  destruct (get_nodes_via_rest _ _ _ _ _) as [r e]. apply Hg.
Qed.

Lemma respects_run {A} (m : M A) w r w' :
  respects R m -> m w = (r, w') -> R w w'.
Proof. intros Hm Hr. specialize (Hm w). by rewrite Hr in Hm. Qed.
End Respects.

(** [preserves f m]: running [m] does not change the observation [f]. *)
Definition preserved {B} (f : World -> B) : relation World :=
  fun w w' => f w' = f w.

Instance preserved_PreOrder {B} (f : World -> B) : PreOrder (preserved f).
Proof. split; [done|]. intros x y z Hxy Hyz. unfold preserved in *. congruence. Qed.

Abbreviation preserves f m := (respects (preserved f) m).

Lemma preserves_run {A B} (f : World -> B) (m : M A) w r w' :
  preserves f m -> m w = (r, w') -> f w' = f w.
Proof. intros Hm Hr. by apply (respects_run _ _ _ _ _ Hm Hr). Qed.

(** A frame on the learner gives a frame on each of its attributes. *)
Lemma preserves_me_field {A B} (g : Learner -> B) (m : M A) :
  preserves me m -> preserves (fun w => g (me w)) m.
Proof. intros Hm w. unfold preserved. by rewrite (Hm w). Qed.

(** The steps of a frame proof: split the computation along its binds and
    branches; [leaf] closes the obligations of the single writes. *)
Ltac frame_step leaf :=
  lazymatch goal with
  | |- respects _ (ret _) => apply respects_ret; tc_solve
  | |- respects _ (raise _) => apply respects_raise; tc_solve
  | |- respects _ (gets _) => apply respects_gets; tc_solve
  | |- respects _ self => apply respects_gets; tc_solve
  | |- respects _ (deref _) => apply respects_gets; tc_solve
  | |- respects _ maya_now => apply respects_gets; tc_solve
  | |- respects _ (node_storage_all _) => apply respects_gets; tc_solve
  | |- respects _ (lift_outcome _) => apply respects_lift_outcome; tc_solve
  | |- respects _ (bind _ _) => apply respects_bind; [tc_solve| |intros ?]
  | |- respects _ (when _ _) => apply respects_when; [tc_solve|]
  | |- respects _ (for_each _ _) => apply respects_for_each; [tc_solve|intros ?]
  | |- respects _ (try_except _ _) =>
      apply respects_try_except; [tc_solve| |intros ? ? ?]
  | |- respects _ (update_self _) => apply respects_modify; intros ?; leaf
  | |- respects _ (update_node _ _) => apply respects_modify; intros ?; leaf
  | |- respects _ (sendMessage _ _) => apply respects_modify; intros ?; leaf
  | |- respects _ (modify _) => apply respects_modify; intros ?; leaf
  | |- respects _ (allocate _) => apply respects_allocate; intros ?; leaf
  | |- respects _ (call_node_information _ _ _) =>
      apply respects_call_node_information; intros ? ? ?; leaf
  | |- respects _ (call_get_nodes_via_rest _ _ _ _) =>
      apply respects_call_get_nodes_via_rest; intros ? ? ?; leaf
  | |- respects _ (if ?b then _ else _) => destruct b
  | |- respects _ (match ?x with _ => _ end) => destruct x
  end.

Ltac frame_hyp :=
  match goal with
  | H : (if ?b then _ else _) = Some _ |- _ => destruct b; simplify_eq
  | H : match ?x with _ => _ end = Some _ |- _ => destruct x; simplify_eq
  | H : Some _ = Some _ |- _ => simplify_eq
  | H : None = Some _ |- _ => discriminate H
  end.

Create HintDb frame.

Ltac frame_with leaf :=
  repeat first [frame_hyp | frame_step leaf | solve [eauto with frame]].

Ltac frame := frame_with ltac:(by unfold preserved).

(** ** The methods of a node leave the learner alone *)

Lemma stamp_call_preserves_me node message : preserves me (stamp_call node message).
Proof. unfold stamp_call. frame. Qed.
Hint Resolve stamp_call_preserves_me : frame.

Lemma _signable_interface_info_message_preserves_me node :
  preserves me (_signable_interface_info_message node).
Proof. unfold _signable_interface_info_message. frame. Qed.
Hint Resolve _signable_interface_info_message_preserves_me : frame.

Lemma _sign_and_date_interface_info_preserves_me node :
  preserves me (_sign_and_date_interface_info node).
Proof. unfold _sign_and_date_interface_info. frame. Qed.
Hint Resolve _sign_and_date_interface_info_preserves_me : frame.

Lemma _interface_signature_preserves_me node : preserves me (_interface_signature node).
Proof. unfold _interface_signature, reraise_NoSigningPower. frame. Qed.
Hint Resolve _interface_signature_preserves_me : frame.

Lemma timestamp_preserves_me node : preserves me (timestamp node).
Proof. unfold timestamp, reraise_NoSigningPower. frame. Qed.
Hint Resolve timestamp_preserves_me : frame.

Lemma timestamp_bytes_preserves_me node : preserves me (timestamp_bytes node).
Proof. unfold timestamp_bytes. frame. Qed.
Hint Resolve timestamp_bytes_preserves_me : frame.

Lemma _stamp_has_valid_wallet_signature_preserves_me node :
  preserves me (_stamp_has_valid_wallet_signature node).
Proof. unfold _stamp_has_valid_wallet_signature. frame. Qed.
Hint Resolve _stamp_has_valid_wallet_signature_preserves_me : frame.

Lemma stamp_is_valid_preserves_me node : preserves me (stamp_is_valid node).
Proof. unfold stamp_is_valid. frame. Qed.
Hint Resolve stamp_is_valid_preserves_me : frame.

Lemma interface_is_valid_preserves_me node : preserves me (interface_is_valid node).
Proof. unfold interface_is_valid. frame. Qed.
Hint Resolve interface_is_valid_preserves_me : frame.

Lemma validate_metadata_preserves_me node accept :
  preserves me (validate_metadata node accept).
Proof. unfold validate_metadata. frame. Qed.
Hint Resolve validate_metadata_preserves_me : frame.

Lemma verify_node_preserves_me node path accept force :
  preserves me (verify_node node path accept force).
Proof. unfold verify_node. frame. Qed.
Hint Resolve verify_node_preserves_me : frame.

Lemma save_certificate_to_disk_preserves_me node directory force :
  preserves me (save_certificate_to_disk node directory force).
Proof. unfold save_certificate_to_disk, _write_tls_certificate. frame. Qed.
Hint Resolve save_certificate_to_disk_preserves_me : frame.

(** ** Running a computation backwards *)

Lemma bind_inv {A B} (m : M A) (k : A -> M B) w r w' :
  bind m k w = (r, w') ->
  (exists a w1, m w = (Ok a, w1) /\ k a w1 = (r, w'))
  \/ (exists e, m w = (Raise e, w') /\ r = Raise e).
Proof.
  unfold bind. destruct (m w) as [[a|e] w1]; intros Hk.
  - left. by exists a, w1.
  - right. exists e. by simplify_eq.
Qed.

Lemma try_except_inv {A} (m : M A) h w r w' :
  try_except m h w = (r, w') ->
  (exists a, m w = (Ok a, w') /\ r = Ok a)
  \/ (exists e w1 k, m w = (Raise e, w1) /\ h e = Some k /\ k w1 = (r, w'))
  \/ (exists e, m w = (Raise e, w') /\ h e = None /\ r = Raise e).
Proof.
  unfold try_except. destruct (m w) as [[a|e] w1]; intros Hk.
  - left. exists a. by simplify_eq.
  - destruct (h e) as [k|] eqn:He.
    + right; left. by exists e, w1, k.
    + right; right. exists e. by simplify_eq.
Qed.

Lemma when_inv (b : bool) (m : M unit) w r w' :
  when b m w = (r, w') ->
  (b = true /\ m w = (r, w')) \/ (b = false /\ r = Ok tt /\ w' = w).
Proof. destruct b; simpl; [by left|]. intros [= <- <-]. by right. Qed.

Lemma for_each_modify {A} (l : list A) (g : A -> World -> World) w :
  for_each l (fun x => modify (g x)) w = (Ok tt, fold_left (fun w x => g x w) l w).
Proof.
  revert w. induction l as [|x l IH]; intros w; simpl; [done|].
  unfold bind at 1, modify at 1. apply IH.
Qed.

Lemma fold_left_preserved {A B} (f : World -> B) (g : A -> World -> World) l w :
  (forall x w, f (g x w) = f w) -> f (fold_left (fun w x => g x w) l w) = f w.
Proof.
  intros Hg. revert w. induction l as [|x l IH]; intros w; simpl; [done|].
  by rewrite IH, Hg.
Qed.

Lemma call_node_information_inv host port path w r w' :
  call_node_information host port path w = (r, w') ->
  exists e,
    node_information (env w) host port path = (r, e)
    /\ w' = set_env e
              (set_requests_sent
                 (requests_sent w ++ [node_information_request host port path]) w).
Proof.
  unfold call_node_information.
  destruct (node_information _ _ _ _) as [r0 e]. intros [= <- <-]. by exists e.
Qed.

Lemma call_get_nodes_via_rest_inv url need ann path w r w' :
  call_get_nodes_via_rest url need ann path w = (r, w') ->
  exists e,
    get_nodes_via_rest (env w) url need ann path = (r, e)
    /\ w' = set_env e
              (set_requests_sent
                 (requests_sent w ++ [get_nodes_via_rest_request url need ann path]) w).
Proof.
  unfold call_get_nodes_via_rest.
  destruct (get_nodes_via_rest _ _ _ _ _) as [r0 e]. intros [= <- <-]. by exists e.
Qed.

(** Take a run [H : m w = (r, w')] apart along the structure of [m]. *)
Ltac run_atom H :=
  first
    [ progress (unfold ret, raise, gets, modify, lift_outcome, self, deref,
                update_self, update_node, maya_now, sendMessage,
                node_storage_all in H);
      simpl in H
    | idtac ].

Ltac run H :=
  lazymatch type of H with
  | bind _ _ _ = (_, _) =>
      let a := fresh "a" in
      let w1 := fresh "w" in
      let e := fresh "e" in
      let Hm := fresh "Hm" in
      let Hk := fresh "Hk" in
      let Hr := fresh "Hr" in
      apply bind_inv in H as [(a & w1 & Hm & Hk) | (e & Hm & Hr)];
      [ run Hm; run Hk | simplify_eq; run Hm ]
  | when _ _ _ = (_, _) =>
      let Hb := fresh "Hb" in
      let Hr := fresh "Hr" in
      let Hw := fresh "Hw" in
      apply when_inv in H as [[Hb H] | (Hb & Hr & Hw)]; [ run H | simplify_eq ]
  | (if ?b then _ else _) _ = (_, _) =>
      let Hb := fresh "Hb" in
      destruct b eqn:Hb; run H
  | (match ?x with Some _ => _ | None => _ end) _ = (_, _) =>
      let Hx := fresh "Hx" in
      destruct x eqn:Hx; run H
  | try_except _ _ _ = (_, _) =>
      let a := fresh "a" in
      let w1 := fresh "w" in
      let e := fresh "e" in
      let k := fresh "k" in
      let Hm := fresh "Hm" in
      let Hh := fresh "Hh" in
      let Hk := fresh "Hk" in
      let Hr := fresh "Hr" in
      apply try_except_inv in H
        as [(a & Hm & Hr) | [(e & w1 & k & Hm & Hh & Hk) | (e & Hm & Hh & Hr)]];
      [ simplify_eq; run Hm | run Hm | simplify_eq; run Hm ]
  | for_each _ (fun _ => modify _) _ = (_, _) =>
      rewrite for_each_modify in H; simplify_eq
  | call_node_information _ _ _ _ = (_, _) =>
      let e := fresh "e" in
      let Hn := fresh "Hnet" in
      let Hw := fresh "Hw" in
      apply call_node_information_inv in H as (e & Hn & Hw); subst
  | call_get_nodes_via_rest _ _ _ _ _ = (_, _) =>
      let e := fresh "e" in
      let Hn := fresh "Hnet" in
      let Hw := fresh "Hw" in
      apply call_get_nodes_via_rest_inv in H as (e & Hn & Hw); subst
  | lift_outcome _ _ = (_, _) => unfold lift_outcome in H; simplify_eq
  | ret _ _ = (_, _) => unfold ret in H; simplify_eq
  | raise _ _ = (_, _) => unfold raise in H; simplify_eq
  | gets _ _ = (_, _) => unfold gets in H; simplify_eq
  | self _ = (_, _) => unfold self, gets in H; simplify_eq
  | deref _ _ = (_, _) => unfold deref, gets in H; simplify_eq
  | maya_now _ = (_, _) => unfold maya_now, gets in H; simplify_eq
  | node_storage_all _ _ = (_, _) => unfold node_storage_all, gets in H; simplify_eq
  | modify _ _ = (_, _) => unfold modify in H; simplify_eq
  | update_self _ _ = (_, _) => unfold update_self, modify in H; simplify_eq
  | update_node _ _ _ = (_, _) => unfold update_node, modify in H; simplify_eq
  | sendMessage _ _ _ = (_, _) => unfold sendMessage, modify in H; simplify_eq
  | _ => idtac
  end.


(** ** The methods of a node write to that node only *)

(** The attributes of a node that no method of this module assigns. *)
Definition identity_of (n : VerifiableNode) :=
  (checksum_public_address n, canonical_public_address n, stamp n,
   verifying_key n, encrypting_key n, can_sign n, node_federated_only n,
   rest_host n, rest_port n, certificate n,
   _evidence_of_decentralized_identity n).

(** [touches_only node w w']: from [w] to [w'] the learner, the other
    objects, the allocation pointer, the storage and the clock are the same,
    and [node] kept its identity. *)
Definition touches_only (node : nat) : relation World :=
  fun w w' =>
    me w' = me w /\ next_oid w' = next_oid w /\ clock w' = clock w
    /\ node_storage w' = node_storage w /\ notified w' = notified w
    /\ (forall o, o <> node -> heap w' o = heap w o)
    /\ (forall o, identity_of (heap w' o) = identity_of (heap w o))
    /\ (forall o, _verified_node (heap w' o) = _verified_node (heap w o)).

Instance touches_only_PreOrder node : PreOrder (touches_only node).
Proof.
  split.
  - by intros w.
  - intros x y z (?&?&?&?&?&Hxo&Hxi&Hxv) (?&?&?&?&?&Hyo&Hyi&Hyv).
    repeat split; try congruence; intros o; intros;
      rewrite ?Hyo, ?Hyi, ?Hyv by done; auto.
Qed.

(** [verify_node] also sets [_verified_node] of its node. *)
Definition verifies (node : nat) : relation World :=
  fun w w' =>
    me w' = me w /\ next_oid w' = next_oid w /\ clock w' = clock w
    /\ node_storage w' = node_storage w /\ notified w' = notified w
    /\ (forall o, o <> node -> heap w' o = heap w o)
    /\ (forall o, identity_of (heap w' o) = identity_of (heap w o)).

Instance verifies_PreOrder node : PreOrder (verifies node).
Proof.
  split.
  - by intros w.
  - intros x y z (?&?&?&?&?&Hxo&Hxi) (?&?&?&?&?&Hyo&Hyi).
    repeat split; try congruence; intros o; intros;
      rewrite ?Hyo, ?Hyi by done; auto.
Qed.

Lemma touches_only_verifies node w w' : touches_only node w w' -> verifies node w w'.
Proof. intros (?&?&?&?&?&?&?&?). by repeat split. Qed.

Lemma respects_touches_only_verifies {A} node (m : M A) :
  respects (touches_only node) m -> respects (verifies node) m.
Proof. intros Hm w. apply touches_only_verifies, Hm. Qed.
Hint Resolve respects_touches_only_verifies : frame.

Ltac node_leaf :=
  unfold touches_only, verifies; simpl; repeat split; intros;
  repeat match goal with
         | |- context [Nat.eqb ?a ?b] => destruct (Nat.eqb_spec a b); simplify_eq
         end;
  done.

Ltac node_frame := frame_with ltac:(node_leaf).

Lemma stamp_call_touches_only node message :
  respects (touches_only node) (stamp_call node message).
Proof. unfold stamp_call. node_frame. Qed.
Hint Resolve stamp_call_touches_only : frame.

Lemma _signable_interface_info_message_touches_only node :
  respects (touches_only node) (_signable_interface_info_message node).
Proof. unfold _signable_interface_info_message. node_frame. Qed.
Hint Resolve _signable_interface_info_message_touches_only : frame.

Lemma _sign_and_date_interface_info_touches_only node :
  respects (touches_only node) (_sign_and_date_interface_info node).
Proof. unfold _sign_and_date_interface_info. node_frame. Qed.
Hint Resolve _sign_and_date_interface_info_touches_only : frame.

Lemma _interface_signature_touches_only node :
  respects (touches_only node) (_interface_signature node).
Proof. unfold _interface_signature, reraise_NoSigningPower. node_frame. Qed.
Hint Resolve _interface_signature_touches_only : frame.

Lemma timestamp_touches_only node : respects (touches_only node) (timestamp node).
Proof. unfold timestamp, reraise_NoSigningPower. node_frame. Qed.
Hint Resolve timestamp_touches_only : frame.

Lemma timestamp_bytes_touches_only node :
  respects (touches_only node) (timestamp_bytes node).
Proof. unfold timestamp_bytes. node_frame. Qed.
Hint Resolve timestamp_bytes_touches_only : frame.

Lemma _stamp_has_valid_wallet_signature_touches_only node :
  respects (touches_only node) (_stamp_has_valid_wallet_signature node).
Proof. unfold _stamp_has_valid_wallet_signature. node_frame. Qed.
Hint Resolve _stamp_has_valid_wallet_signature_touches_only : frame.

Lemma stamp_is_valid_touches_only node :
  respects (touches_only node) (stamp_is_valid node).
Proof. unfold stamp_is_valid. node_frame. Qed.
Hint Resolve stamp_is_valid_touches_only : frame.

Lemma interface_is_valid_touches_only node :
  respects (touches_only node) (interface_is_valid node).
Proof. unfold interface_is_valid. node_frame. Qed.
Hint Resolve interface_is_valid_touches_only : frame.

Lemma validate_metadata_touches_only node accept :
  respects (touches_only node) (validate_metadata node accept).
Proof. unfold validate_metadata. node_frame. Qed.
Hint Resolve validate_metadata_touches_only : frame.

Lemma verify_node_verifies node path accept force :
  respects (verifies node) (verify_node node path accept force).
Proof.
  unfold verify_node.
  node_frame.
Qed.
Hint Resolve verify_node_verifies : frame.

Lemma save_certificate_to_disk_touches_only node directory force :
  respects (touches_only node) (save_certificate_to_disk node directory force).
Proof. unfold save_certificate_to_disk, _write_tls_certificate. node_frame. Qed.
Hint Resolve save_certificate_to_disk_touches_only : frame.

Lemma touches_only_address node w w' o :
  touches_only node w w' ->
  checksum_public_address (heap w' o) = checksum_public_address (heap w o).
Proof.
  intros (_&_&_&_&_&_&Hi&_). specialize (Hi o). unfold identity_of in Hi.
  by simplify_eq.
Qed.

(** The property [timestamp] of a node that has one reads it. *)
Lemma timestamp_of_dated node t w :
  _timestamp (heap w node) = Some t -> timestamp node w = (Ok t, w).
Proof. intros Ht. unfold timestamp, bind, deref, gets. simpl. by rewrite Ht. Qed.

(** ** [remember_node] *)

(** [stores node w w']: [w'] is [w] with [node] put into [known_nodes] under
    its address; the objects, the allocation pointer, the checksum and the
    nickname of the fleet state, the round counters, the learning task and
    the teachers are those of [w]. *)
Definition stores (node : nat) (w w' : World) : Prop :=
  known_nodes (me w')
  = set_entries
      (dict_set (checksum_public_address (heap w node)) node (entries (known_nodes (me w))))
      (known_nodes (me w))
  /\ heap w' = heap w /\ next_oid w' = next_oid w /\ env w' = env w
  /\ clock w' = clock w /\ requests_sent w' = requests_sent w
  /\ _learning_round (me w') = _learning_round (me w)
  /\ _rounds_without_new_nodes (me w') = _rounds_without_new_nodes (me w)
  /\ _learning_task (me w') = _learning_task (me w)
  /\ _crashed (me w') = _crashed (me w)
  /\ teacher_nodes (me w') = teacher_nodes (me w)
  /\ _current_teacher_node (me w') = _current_teacher_node (me w).

Lemma remember_node_store_spec node upd w :
  exists w',
    remember_node_store node upd w
    = (if upd then Raise (AttributeError "update_fleet_stfate") else Ok true, w')
    /\ stores node w w'.
Proof.
  destruct (remember_node_store node upd w) as [r w'] eqn:E. exists w'.
  unfold remember_node_store, write_node_metadata, node_storage_save in E.
  run E; (split; [done|]); unfold stores; simpl;
    repeat split; rewrite ?fold_left_preserved by done; done.
Qed.

(** ** [verify_node] *)

Lemma bytes_eqb_eq (a b : bytes) : bytes_eqb a b = true <-> a = b.
Proof.
  revert b. induction a as [|x a IH]; intros [|y b]; simpl; try done.
  rewrite andb_true_iff, IH. split.
  - intros [Hxy ->]. by rewrite (Byte.byte_dec_bl _ _ Hxy).
  - intros [= -> ->]. split; [by apply Byte.byte_dec_lb|done].
Qed.

Lemma evidence_eqb_eq (a b : option bytes) : evidence_eqb a b = true <-> a = b.
Proof.
  destruct a as [a|], b as [b|]; simpl; try done.
  rewrite bytes_eqb_eq. split; congruence.
Qed.

Lemma same_credentials_all info n :
  bytes_eqb (info_encrypting_key info) (encrypting_key n)
  && bytes_eqb (info_verifying_key info) (verifying_key n)
  && bytes_eqb (info_public_address info) (canonical_public_address n)
  && evidence_eqb (info_identity_evidence info) (_evidence_of_decentralized_identity n)
  = true
  <-> same_credentials info n.
Proof.
  unfold same_credentials.
  rewrite !andb_true_iff, !bytes_eqb_eq, evidence_eqb_eq. tauto.
Qed.

Lemma same_credentials_identity info n n' :
  identity_of n' = identity_of n -> same_credentials info n' -> same_credentials info n.
Proof. unfold identity_of, same_credentials. intros [=]. congruence. Qed.

Ltac touch H :=
  lazymatch type of H with
  | ?m ?w = (_, ?w') =>
      let T := fresh "T" in
      assert (T : touches_only _ w w')
        by (refine (respects_run (touches_only _) _ _ _ _ _ H); eauto with frame)
  end.


(** The ways [verify_node] ends.  A node already verified is answered at
    once; otherwise the call raises and leaves [_verified_node] as it was, or
    it went through a live answer with status 200 that carries the
    credentials of the record. *)
Lemma verify_node_inv node path accept force w r w' :
  verify_node node path accept force w = (r, w') ->
  (negb force && _verified_node (heap w node) = true /\ r = Ok (Some true) /\ w' = w)
  \/ (negb force && _verified_node (heap w node) = false
      /\ (((exists e, r = Raise e) /\ touches_only node w w')
          \/ (r = Ok None /\ _verified_node (heap w' node) = true
              /\ exists w1 response e info,
                   validate_metadata node accept w = (Ok tt, w1)
                   /\ node_information (env w1) (rest_host (heap w1 node))
                        (rest_port (heap w1 node)) path = (Ok response, e)
                   /\ status_code response = 200%Z
                   /\ _internal_splitter (content response) = Ok info
                   /\ same_credentials info (heap w1 node)))).
Proof.
  intros Hv. unfold verify_node in Hv. run Hv.
  1: by left.
  all: right; split; [done|].
  all: try (touch Hm).
  all: try (left; split; [by eexists|]; (etrans; [exact T|]); node_leaf).
  right. split; [done|]. split.
  { simpl. by rewrite Nat.eqb_refl. }
  destruct a. exists w1, a0, e, a1.
  apply negb_false_iff in Hb1. apply same_credentials_all in Hb1.
  apply negb_false_iff, Z.eqb_eq in Hb0. done.
Qed.

(** [retains w w']: from [w] to [w'] nothing was allocated, the learner is
    the same, every object kept its identity and its [_verified_node]. *)
Definition retains : relation World :=
  fun w w' =>
    me w' = me w /\ next_oid w' = next_oid w
    /\ (forall o, identity_of (heap w' o) = identity_of (heap w o))
    /\ (forall o, _verified_node (heap w' o) = _verified_node (heap w o)).

Instance retains_PreOrder : PreOrder retains.
Proof.
  split.
  - by intros w.
  - intros x y z (?&?&Hxi&Hxv) (?&?&Hyi&Hyv).
    repeat split; try congruence; intros o; rewrite ?Hyi, ?Hyv; auto.
Qed.

Lemma touches_only_retains node w w' : touches_only node w w' -> retains w w'.
Proof. intros (?&?&?&?&?&?&?&?). by repeat split. Qed.

Ltac retain H :=
  lazymatch type of H with
  | ?m ?w = (_, ?w') =>
      let T := fresh "T" in
      assert (T : retains w w')
        by (refine (touches_only_retains _ _ _ _);
            refine (respects_run (touches_only _) _ _ _ _ _ H); eauto with frame)
  end.

Ltac retains_leaf :=
  unfold retains; simpl; repeat split; intros; done.

Lemma remember_node_handlers_false known e k w r w' :
  remember_node_handlers known e = Some k -> k w = (r, w') ->
  r <> Ok true /\ retains w w'.
Proof.
  unfold remember_node_handlers. intros Hk Hr.
  destruct (isa_SSLError e).
  { simplify_eq. run Hr. split; [done|reflexivity]. }
  destruct (isa_requests_ConnectionError e || isa_ReadTimeout e); [|done].
  simplify_eq. destruct known; run Hr; (split; [done|]);
    first [reflexivity | retains_leaf].
Qed.

Lemma verify_node_raises_retains node path accept force w e w' :
  verify_node node path accept force w = (Raise e, w') -> retains w w'.
Proof.
  intros Hv. apply verify_node_inv in Hv as [(_&?&_)|(_&[[_ T]|(?&_)])]; try done.
  by apply touches_only_retains in T.
Qed.

Ltac retains_chain :=
  first [ reflexivity
        | retains_leaf
        | etrans; [eassumption|]; retains_chain ].

(** The ways [remember_node] ends: either nothing was stored (the learner is
    as before and the answer is not [True]), or the node is not the learner
    itself, [verify_node] returned on it and the call ended in
    [remember_node_store]. *)
Lemma remember_node_inv node force upd w r w' :
  remember_node node force upd w = (r, w') ->
  (r <> Ok true /\ retains w w')
  \/ (exists w1 v w2,
        node_is_self node (heap w node) = false
        /\ retains w w1
        /\ verify_node node
             (Some (get_certificate_filepath (heap w1 node) (known_certificates_dir (me w))))
             (federated_only (me w)) force w1 = (Ok v, w2)
        /\ remember_node_store node upd w2 = (r, w')).
Proof.
  intros Hr. unfold remember_node in Hr. run Hr.
  all: repeat match goal with
       | H : timestamp _ _ = _ |- _ => retain H; revert H
       | H : save_certificate_to_disk _ _ _ _ = _ |- _ => retain H; revert H
       | H : verify_node _ _ _ _ _ = (Raise _, _) |- _ =>
           apply verify_node_raises_retains in H
       end; intros.
  all: try match goal with
       | Hh : remember_node_handlers _ _ = Some ?k, Hk : ?k _ = _ |- _ =>
           destruct (remember_node_handlers_false _ _ _ _ _ _ Hh Hk)
       end.
  all: try match goal with
       | Hv : verify_node _ _ _ _ _ = (Ok _, _),
         Hs : remember_node_store _ _ _ = _ |- _ =>
           right; eexists _, _, _; split; [done|]; split; [|split; [exact Hv|exact Hs]];
           retains_chain
       end.
  all: try (left; split; [done|retains_chain]).
  all: match goal with
       | Hne : Ok ?b <> Ok true, Hb : negb ?b = false |- _ => by destruct b
       end.
Qed.

(** ** The dict *)

Lemma dict_get_set {V} k (v : V) d : dict_get k (dict_set k v d) = Some v.
Proof.
  induction d as [|[k' v'] d IH]; simpl.
  - by rewrite String.eqb_refl.
  - destruct (String.eqb k k') eqn:E; simpl; rewrite E; [done|apply IH].
Qed.

Lemma dict_get_set_ne {V} k k' (v : V) d :
  k' <> k -> dict_get k' (dict_set k v d) = dict_get k' d.
Proof.
  intros Hne. induction d as [|[k0 v0] d IH]; simpl.
  - destruct (String.eqb_spec k' k); [done|done].
  - destruct (String.eqb_spec k k0) as [->|Hk]; simpl.
    + destruct (String.eqb_spec k' k0); [done|done].
    + destruct (String.eqb_spec k' k0); [done|apply IH].
Qed.

Lemma dict_values_set {V} k (v : V) d x :
  x ∈ dict_values (dict_set k v d) -> x = v \/ x ∈ dict_values d.
Proof.
  unfold dict_values. induction d as [|[k0 v0] d IH]; simpl.
  - intros ?%list_elem_of_singleton. by left.
  - destruct (String.eqb k k0); simpl; intros [->|Hx]%elem_of_cons.
    + by left.
    + right. by right.
    + right. by left.
    + destruct (IH Hx); [by left|right; by right].
Qed.

Lemma verifies_address node w w' o :
  verifies node w w' ->
  checksum_public_address (heap w' o) = checksum_public_address (heap w o).
Proof.
  intros (_&_&_&_&_&_&Hi). specialize (Hi o). unfold identity_of in Hi.
  by simplify_eq.
Qed.

Lemma retains_address w w' o :
  retains w w' ->
  checksum_public_address (heap w' o) = checksum_public_address (heap w o).
Proof.
  intros (_&_&Hi&_). specialize (Hi o). unfold identity_of in Hi. by simplify_eq.
Qed.

(** * The claims *)

(** C8 (verification idempotence): on a node whose [_verified_node] is set,
    [verify_node] without [force] returns [True] at once; the world it leaves
    is the world it was given, so no attribute changed, and no request was
    sent to the middleware ([node_information] was not called). *)
Theorem verify_node_idempotent node certificate_filepath accept_federated_only w :
  _verified_node (heap w node) = true ->
  verify_node node certificate_filepath accept_federated_only false w = (Ok (Some true), w)
  /\ requests_sent (verify_node node certificate_filepath accept_federated_only false w).2
     = requests_sent w.
Proof.
  intros Hv.
  assert (verify_node node certificate_filepath accept_federated_only false w
          = (Ok (Some true), w)) as ->; [|done].
  unfold verify_node, bind, deref, gets. simpl. by rewrite Hv.
Qed.

(** C1 (stale-update rejection): a learner stores a record [known] under the
    address of [node]; both records carry a timestamp.  If the timestamp of
    [node] is not greater than the stored one, [remember_node] returns
    [False] and [known_nodes] is as before.  If it is greater, the node is
    not the learner itself, its certificate was saved and [verify_node]
    returned on it, then [known_nodes] holds [node] under that address in
    the place of [known]. *)
Theorem remember_node_stale_update node known force upd w tN tO :
  dict_get (checksum_public_address (heap w node)) (entries (known_nodes (me w)))
    = Some known ->
  _timestamp (heap w node) = Some tN ->
  _timestamp (heap w known) = Some tO ->
  ((tN <= tO)%Z ->
     (remember_node node force upd w).1 = Ok false
     /\ known_nodes (me (remember_node node force upd w).2) = known_nodes (me w))
  /\ ((tN > tO)%Z ->
      node_is_self node (heap w node) = false ->
      forall w1 v w2,
        save_certificate_to_disk node (known_certificates_dir (me w)) true w = (Ok tt, w1) ->
        verify_node node
          (Some (get_certificate_filepath (heap w1 node) (known_certificates_dir (me w))))
          (federated_only (me w)) force w1 = (Ok v, w2) ->
        entries (known_nodes (me (remember_node node force upd w).2))
        = dict_set (checksum_public_address (heap w node)) node
            (entries (known_nodes (me w)))
        /\ dict_get (checksum_public_address (heap w node))
             (entries (known_nodes (me (remember_node node force upd w).2)))
           = Some node).
Proof.
  intros Hget HtN HtO. split.
  - intros Hle. unfold remember_node, bind, deref, self, gets. simpl.
    destruct (node_is_self node (heap w node)); [done|].
    rewrite Hget. rewrite (timestamp_of_dated _ _ _ HtN), (timestamp_of_dated _ _ _ HtO).
    assert ((tN >? tO)%Z = false) as -> by lia. simpl. done.
  - intros Hgt Hself w1 v w2 Hsave Hverify.
    unfold remember_node, bind, deref, self, gets. simpl.
    rewrite Hself, Hget.
    rewrite (timestamp_of_dated _ _ _ HtN), (timestamp_of_dated _ _ _ HtO).
    assert ((tN >? tO)%Z = true) as -> by lia. simpl.
    rewrite Hsave. unfold try_except. rewrite Hverify. simpl.
    destruct (remember_node_store_spec node upd w2) as (w' & -> & Hst & _). simpl.
    touch Hsave.
    pose proof (respects_run (verifies node) _ _ _ _
                  (verify_node_verifies _ _ _ _) Hverify) as Tv.
    assert (me w2 = me w) as Hme.
    { destruct T as (HT&_), Tv as (HTv&_). congruence. }
    assert (checksum_public_address (heap w2 node)
            = checksum_public_address (heap w node)) as Haddr.
    { by rewrite (verifies_address _ _ _ _ Tv), (touches_only_address _ _ _ _ T). }
    rewrite Hst, Haddr, Hme. simpl. split; [done|apply dict_get_set].
Qed.

(** ** The schedule and the round counter *)

Definition learning_round (w : World) : Z := _learning_round (me w).

Hint Extern 1 (respects (preserved learning_round) _) =>
  apply (preserves_me_field _learning_round) : frame.

Ltac round_frame := frame_with ltac:(by unfold preserved, learning_round).

Lemma remember_node_store_preserves_learning_round node upd :
  preserves learning_round (remember_node_store node upd).
Proof.
  intros w. destruct (remember_node_store_spec node upd w) as (w' & -> & Hst).
  unfold preserved, learning_round. simpl. apply Hst.
Qed.
Hint Resolve remember_node_store_preserves_learning_round : frame.

Lemma remember_node_preserves_learning_round node force upd :
  preserves learning_round (remember_node node force upd).
Proof.
  unfold remember_node, remember_node_handlers. round_frame.
Qed.
Hint Resolve remember_node_preserves_learning_round : frame.

Lemma read_nodes_from_storage_preserves_learning_round :
  preserves learning_round read_nodes_from_storage.
Proof. unfold read_nodes_from_storage. round_frame. Qed.
Hint Resolve read_nodes_from_storage_preserves_learning_round : frame.

Lemma call_from_seednode_metadata_preserves_learning_round md dir timeout fed :
  preserves learning_round (call_from_seednode_metadata md dir timeout fed).
Proof.
  unfold call_from_seednode_metadata. apply respects_bind; [tc_solve| |intros ?].
  - intros w. by destruct (from_seednode_metadata _ _ _ _ _).
  - round_frame.
Qed.
Hint Resolve call_from_seednode_metadata_preserves_learning_round : frame.

Lemma __attempt_seednode_learning_preserves_learning_round timeout md :
  preserves learning_round (__attempt_seednode_learning timeout md).
Proof. unfold __attempt_seednode_learning. round_frame. Qed.
Hint Resolve __attempt_seednode_learning_preserves_learning_round : frame.

Lemma load_seednodes_preserves_learning_round read attempts rate timeout :
  preserves learning_round (load_seednodes read attempts rate timeout).
Proof. unfold load_seednodes. round_frame. Qed.
Hint Resolve load_seednodes_preserves_learning_round : frame.

Lemma shuffled_known_nodes_preserves_learning_round :
  preserves learning_round shuffled_known_nodes.
Proof.
  unfold shuffled_known_nodes. apply respects_bind; [tc_solve|round_frame|intros s].
  apply respects_bind; [tc_solve| |intros ?; round_frame].
  intros w. by destruct (shuffle _ _).
Qed.
Hint Resolve shuffled_known_nodes_preserves_learning_round : frame.

Lemma select_teacher_nodes_preserves_learning_round :
  preserves learning_round select_teacher_nodes.
Proof. unfold select_teacher_nodes. round_frame. Qed.
Hint Resolve select_teacher_nodes_preserves_learning_round : frame.

Lemma cycle_teacher_node_preserves_learning_round :
  preserves learning_round cycle_teacher_node.
Proof. unfold cycle_teacher_node. round_frame. Qed.
Hint Resolve cycle_teacher_node_preserves_learning_round : frame.

Lemma current_teacher_node_preserves_learning_round cycle :
  preserves learning_round (current_teacher_node cycle).
Proof. unfold current_teacher_node. round_frame. Qed.
Hint Resolve current_teacher_node_preserves_learning_round : frame.

Lemma _adjust_learning_preserves_learning_round node_list :
  preserves learning_round (_adjust_learning node_list).
Proof. unfold _adjust_learning. round_frame. Qed.
Hint Resolve _adjust_learning_preserves_learning_round : frame.

Lemma learn_from_teacher_node_body_preserves_learning_round eager teacher node new_nodes :
  preserves learning_round (learn_from_teacher_node_body eager teacher node new_nodes).
Proof. unfold learn_from_teacher_node_body. round_frame. Qed.
Hint Resolve learn_from_teacher_node_body_preserves_learning_round : frame.

Lemma learn_from_teacher_node_loop_preserves_learning_round eager teacher node_list new_nodes :
  preserves learning_round (learn_from_teacher_node_loop eager teacher node_list new_nodes).
Proof.
  revert new_nodes. induction node_list as [|node node_list IH]; intros new_nodes; simpl.
  - round_frame.
  - apply respects_bind; [tc_solve|round_frame|intros ?; apply IH].
Qed.
Hint Resolve learn_from_teacher_node_loop_preserves_learning_round : frame.

Lemma allocate_all_preserves_learning_round l :
  preserves learning_round (allocate_all l).
Proof.
  induction l as [|n l IH]; simpl; [round_frame|].
  apply respects_bind; [tc_solve|round_frame|intros ?].
  apply respects_bind; [tc_solve|apply IH|intros ?]. round_frame.
Qed.
Hint Resolve allocate_all_preserves_learning_round : frame.

Lemma learn_from_teacher_node_batch_preserves_learning_round eager teacher node_list :
  preserves learning_round (learn_from_teacher_node_batch eager teacher node_list).
Proof. unfold learn_from_teacher_node_batch. round_frame. Qed.
Hint Resolve learn_from_teacher_node_batch_preserves_learning_round : frame.

(** C9 (round counting): every call of [learn_from_teacher_node] leaves
    [_learning_round] greater by exactly one, whatever the end of the round
    (a new-node list, an early return after [NotEnoughTeachers] or after an
    unresponsive teacher, or an exception); over successive rounds the
    counter grows by their number, so it never decreases. *)
Theorem learn_from_teacher_node_counts_round :
  (forall eager w,
     _learning_round (me (learn_from_teacher_node eager w).2)
     = (_learning_round (me w) + 1)%Z)
  /\ (forall eagers w,
        _learning_round (me (learning_rounds eagers w))
        = (_learning_round (me w) + Z.of_nat (length eagers))%Z).
Proof.
  assert (forall eager w,
     _learning_round (me (learn_from_teacher_node eager w).2)
     = (_learning_round (me w) + 1)%Z) as Hone.
  { intros eager w. unfold learn_from_teacher_node.
    unfold bind at 1, update_self at 1, modify at 1.
    match goal with
    | |- _learning_round (me (?m ?w1).2) = _ =>
        assert (preserves learning_round m) as Hm
    end.
    { round_frame. }
    specialize (Hm (set_me (set_learning_round (_learning_round (me w) + 1) (me w)) w)).
    unfold preserved, learning_round in Hm. by rewrite Hm. }
  split; [done|].
  induction eagers as [|eager eagers IH]; intros w; simpl.
  - lia.
  - rewrite IH, Hone. lia.
Qed.

(** ** The checksum *)

Section SortedByKey.
Context {A : Type} (key : A -> string).

Definition key_le (x y : A) : Prop := String.le (key x) (key y).

Lemma insert_by_key_Permutation x l : insert_by_key key x l ≡ₚ x :: l.
Proof.
  induction l as [|y l IH]; simpl; [done|].
  destruct (String.leb (key x) (key y)); [done|].
  rewrite IH. apply Permutation_swap.
Qed.

Lemma sorted_by_key_Permutation l : sorted_by_key key l ≡ₚ l.
Proof.
  induction l as [|x l IH]; simpl; [done|].
  by rewrite insert_by_key_Permutation, IH.
Qed.

Lemma insert_by_key_sorted x l :
  StronglySorted key_le l -> StronglySorted key_le (insert_by_key key x l).
Proof.
  induction l as [|y l IH]; simpl; intros Hs.
  - repeat constructor.
  - apply StronglySorted_inv in Hs as [Hl Hy].
    destruct (String.leb (key x) (key y)) eqn:E.
    + constructor; [by constructor|].
      assert (key_le x y) as Hxy by (unfold key_le, String.le; by rewrite E).
      constructor; [done|].
      eapply Forall_impl; [exact Hy|]. intros z Hz. unfold key_le in *. by etrans.
    + constructor; [by apply IH|].
      rewrite insert_by_key_Permutation. constructor; [|done].
      unfold key_le. destruct (total String.le (key y) (key x)) as [|Hxy]; [done|].
      unfold String.le in Hxy. by rewrite E in Hxy.
Qed.

Lemma sorted_by_key_sorted l : StronglySorted key_le (sorted_by_key key l).
Proof.
  induction l as [|x l IH]; simpl; [constructor|by apply insert_by_key_sorted].
Qed.

Lemma NoDup_key_inj l x1 x2 :
  NoDup (map key l) -> x1 ∈ l -> x2 ∈ l -> key x1 = key x2 -> x1 = x2.
Proof.
  induction l as [|y l IH]; simpl; intros Hnd Hx1 Hx2 Hk.
  - by apply elem_of_nil in Hx1.
  - apply NoDup_cons in Hnd as [Hy Hnd].
    apply elem_of_cons in Hx1 as [->|Hx1]; apply elem_of_cons in Hx2 as [->|Hx2].
    + done.
    + destruct Hy. rewrite Hk. by apply list_elem_of_fmap_2.
    + destruct Hy. rewrite <- Hk. by apply list_elem_of_fmap_2.
    + by apply IH.
Qed.

(** The sorted list does not depend on the order of the input, as long as
    no two elements share a key. *)
Lemma sorted_by_key_unique l1 l2 :
  NoDup (map key l1) -> l1 ≡ₚ l2 -> sorted_by_key key l1 = sorted_by_key key l2.
Proof.
  intros Hnd Hp.
  apply (StronglySorted_unique_strong key_le).
  - intros x1 x2 Hx1 Hx2 H12 H21.
    rewrite sorted_by_key_Permutation in Hx1, Hx2. rewrite <- Hp in Hx2.
    apply (NoDup_key_inj l1 _ _ Hnd Hx1 Hx2).
    apply (anti_symm String.le); [exact H12|exact H21].
  - apply sorted_by_key_sorted.
  - apply sorted_by_key_sorted.
  - by rewrite !sorted_by_key_Permutation.
Qed.

Lemma insert_by_key_map {B} (f : B -> A) x l :
  map f (insert_by_key (fun b => key (f b)) x l) = insert_by_key key (f x) (map f l).
Proof.
  induction l as [|y l IH]; simpl; [done|].
  destruct (String.leb (key (f x)) (key (f y))); simpl; [done|by rewrite IH].
Qed.

Lemma sorted_by_key_map {B} (f : B -> A) l :
  map f (sorted_by_key (fun b => key (f b)) l) = sorted_by_key key (map f l).
Proof.
  induction l as [|x l IH]; simpl; [done|].
  by rewrite insert_by_key_map, IH.
Qed.
End SortedByKey.

Lemma dict_set_fresh {V} k (v : V) d :
  k ∉ dict_keys d -> dict_set k v d = (d ++ [(k, v)])%list.
Proof.
  unfold dict_keys. induction d as [|[k' v'] d IH]; simpl; intros Hk; [done|].
  apply not_elem_of_cons in Hk as [Hne Hk].
  destruct (String.eqb_spec k k'); [done|]. by rewrite IH.
Qed.

Lemma remembered_in_order_values h nodes :
  NoDup (map (fun node => checksum_public_address (h node)) nodes) ->
  dict_values (remembered_in_order h nodes) = nodes
  /\ dict_keys (remembered_in_order h nodes)
     = map (fun node => checksum_public_address (h node)) nodes.
Proof.
  unfold remembered_in_order.
  induction nodes as [|node nodes IH] using rev_ind; [done|].
  rewrite map_app. simpl. intros Hnd.
  apply NoDup_app in Hnd as (Hnd & Hfresh & _).
  destruct (IH Hnd) as [Hv Hk].
  rewrite fold_left_app. simpl.
  rewrite dict_set_fresh.
  - unfold dict_values, dict_keys in *. rewrite !map_app, Hv, Hk. done.
  - rewrite Hk. intros Hin. apply (Hfresh _ Hin). by left.
Qed.

(** What [update_fleet_state] writes: the digest of the records sorted by
    address. *)
Lemma checksum_after_update_eq w :
  checksum_after_update w
  = Some (hex (keccak_digest
                 (bytes_join
                    (map bytes_of_node
                       (sorted_by_key checksum_public_address (records w)))))).
Proof.
  unfold checksum_after_update, update_fleet_state, sorted_nodes, records.
  unfold bind, self, gets, update_self, modify, maya_now. simpl.
  unfold set_checksum. destruct (nickname_from_seed _ _). simpl.
  rewrite <- (sorted_by_key_map checksum_public_address (heap w)).
  by rewrite map_map.
Qed.

(** C5 (checksum determinism): the checksum [update_fleet_state] computes is
    a function of the members alone.  Two fleets that hold the same records,
    no two under one address, in any two orders, get the same checksum; in
    particular the fleets obtained by remembering the same nodes in two
    different orders do. *)
Theorem checksum_order_independent :
  (forall w1 w2,
     NoDup (map checksum_public_address (records w1)) ->
     records w1 ≡ₚ records w2 ->
     checksum_after_update w1 = checksum_after_update w2)
  /\ (forall w1 w2 nodes1 nodes2,
        heap w1 = heap w2 ->
        NoDup (map (fun node => checksum_public_address (heap w1 node)) nodes1) ->
        nodes1 ≡ₚ nodes2 ->
        entries (known_nodes (me w1)) = remembered_in_order (heap w1) nodes1 ->
        entries (known_nodes (me w2)) = remembered_in_order (heap w2) nodes2 ->
        checksum_after_update w1 = checksum_after_update w2).
Proof.
  assert (forall w1 w2,
     NoDup (map checksum_public_address (records w1)) ->
     records w1 ≡ₚ records w2 ->
     checksum_after_update w1 = checksum_after_update w2) as Hmain.
  { intros w1 w2 Hnd Hp. rewrite !checksum_after_update_eq.
    by rewrite (sorted_by_key_unique checksum_public_address _ _ Hnd Hp). }
  split; [done|].
  intros w1 w2 nodes1 nodes2 Hh Hnd Hp He1 He2.
  assert (NoDup (map (fun node => checksum_public_address (heap w2 node)) nodes2)) as Hnd2.
  { rewrite <- Hh, <- Hp. done. }
  destruct (remembered_in_order_values _ _ Hnd) as [Hv1 _].
  destruct (remembered_in_order_values _ _ Hnd2) as [Hv2 _].
  apply Hmain; unfold records; rewrite ?He1, ?He2, ?Hv1, ?Hv2.
  - by rewrite map_map.
  - rewrite Hh. by apply Permutation_map.
Qed.

(** ** Waiting for nodes *)

Lemma block_body_crashed addrs timeout allow learn start sr w failure :
  _crashed (me w) = Some failure ->
  block_until_specific_nodes_are_known_body addrs timeout allow learn start sr w
  = (Ok (Some (returned_failure failure)), w).
Proof.
  intros Hc. unfold block_until_specific_nodes_are_known_body, bind, self, gets.
  simpl. by rewrite Hc.
Qed.

Lemma block_body_known addrs timeout allow learn start sr w :
  _crashed (me w) = None ->
  issubset addrs (entries (known_nodes (me w))) = true ->
  exists w',
    block_until_specific_nodes_are_known_body addrs timeout allow learn start sr w
    = (Ok (Some (returned_bool true)), w')
    /\ me w' = me w.
Proof.
  intros Hc Hs. unfold block_until_specific_nodes_are_known_body, bind, self, gets.
  simpl. rewrite Hc, Hs.
  destruct (negb _); simpl; by eexists.
Qed.

Lemma block_body_polls addrs timeout allow learn start sr w w1 :
  _crashed (me w) = None ->
  issubset addrs (entries (known_nodes (me w))) = false ->
  when learn (do _ <- learn_from_teacher_node true; ret tt)
    (when (negb (running (_learning_task (me w))))
       (sendMessage Warn "Blocking to learn about nodes, but learning loop isn't running.")
       w).2
  = (Ok tt, w1) ->
  block_until_specific_nodes_are_known_body addrs timeout allow learn start sr w
  = if (timedelta_seconds (clock w1 - start) >? timeout)%Z then
      if (Z.of_nat (length (difference addrs (entries (known_nodes (me w1)))))
          <=? allow)%Z
      then (Ok (Some (returned_bool false)), w1)
      else (Raise NotEnoughTeachers, w1)
    else (Ok None, w1).
Proof.
  intros Hc Hs Hp. unfold block_until_specific_nodes_are_known_body.
  unfold bind at 1, self at 1, gets at 1. rewrite Hc, Hs.
  unfold bind at 1.
  destruct (when (negb (running (_learning_task (me w)))) _ w) as [[[]|e] w0] eqn:E.
  2: { exfalso. by run E. }
  simpl in Hp. unfold bind at 1. rewrite Hp.
  unfold bind, maya_now, self, gets. simpl.
  destruct (_ >? _)%Z; [|done].
  destruct (_ <=? _)%Z; [done|].
  by destruct (running (_learning_task (me w1))).
Qed.

(** ** Impersonation *)

Lemma different_credentials_not_same info n :
  different_credentials info n -> ~ same_credentials info n.
Proof. unfold different_credentials, same_credentials. intros Hd (?&?&?&?). tauto. Qed.

(** The liveness check on an answer that differs. *)
Lemma verify_node_detects node path accept force w w1 response e info :
  negb force && _verified_node (heap w node) = false ->
  validate_metadata node accept w = (Ok tt, w1) ->
  node_information (env w1) (rest_host (heap w1 node)) (rest_port (heap w1 node)) path
  = (Ok response, e) ->
  status_code response = 200%Z ->
  _internal_splitter (content response) = Ok info ->
  different_credentials info (heap w1 node) ->
  (verify_node node path accept force w).1 = Raise InvalidNode
  /\ _verified_node (heap (verify_node node path accept force w).2 node)
     = _verified_node (heap w node).
Proof.
  intros Hu Hval Hnet Hs Hi Hd.
  destruct (verify_node node path accept force w) as [r w'] eqn:Hv. simpl.
  split.
  - unfold verify_node in Hv. unfold bind at 1, deref at 1, gets at 1 in Hv.
    rewrite Hu in Hv. unfold bind at 1 in Hv. rewrite Hval in Hv.
    unfold bind at 1, deref at 1, gets at 1 in Hv.
    unfold bind at 1, call_node_information in Hv. rewrite Hnet in Hv.
    rewrite Hs in Hv. simpl in Hv.
    unfold bind at 1, lift_outcome in Hv. rewrite Hi in Hv.
    unfold bind at 1, deref at 1, gets at 1 in Hv. simpl in Hv.
    apply different_credentials_not_same in Hd.
    rewrite <- same_credentials_all in Hd. apply not_true_is_false in Hd.
    rewrite Hd in Hv. simpl in Hv. run Hv; done.
  - apply verify_node_inv in Hv as [(Hu'&_)|(_&[[_ T]|(_&_&Hok)])].
    + congruence.
    + destruct T as (_&_&_&_&_&_&_&Hf). apply Hf.
    + destruct Hok as (w1' & response' & e' & info' & Hval' & Hnet' & _ & Hi' & Hsame).
      rewrite Hval in Hval'. simplify_eq. rewrite Hnet in Hnet'. simplify_eq.
      rewrite Hi in Hi'. simplify_eq.
      by destruct (different_credentials_not_same _ _ Hd Hsame).
Qed.

(** ** What the misspelled call does to [remember_node] *)

(** Asked to update the fleet state, [remember_node] never returns [True]:
    a node it stores is followed by the [AttributeError] of
    [update_fleet_stfate], and the checksum is the one from before. *)
Lemma remember_node_update_fleet_state_raises node force w :
  (remember_node node force true w).1 <> Ok true
  /\ _checksum (known_nodes (me (remember_node node force true w).2))
     = _checksum (known_nodes (me w)).
Proof.
  destruct (remember_node node force true w) as [r w'] eqn:Hr. simpl.
  apply remember_node_inv in Hr as [[Hne (Hme&_)]|(w1 & v & w2 & _ & T & Hv & Hs)].
  - by rewrite Hme.
  - destruct (remember_node_store_spec node true w2) as (w'' & E & Hst & _).
    rewrite Hs in E. simplify_eq. split; [done|].
    rewrite Hst. simpl.
    pose proof (respects_run (verifies node) _ _ _ _ (verify_node_verifies _ _ _ _) Hv)
      as (Hme2&_).
    destruct T as (Hme1&_). by rewrite Hme2, Hme1.
Qed.

(** * Further properties *)

(** ** The checks of a node are local *)

(** What [validate_metadata] and the methods under it leave alone: every
    observation of the world that does not read the objects. *)
Section NodeMethodsLocal.
Context {B : Type} (f : World -> B).
Context (f_heap : forall h w, f (set_heap h w) = f w).

Local Ltac local_frame := frame_with ltac:(unfold preserved; simpl; by rewrite ?f_heap).

Lemma stamp_call_local node message : preserves f (stamp_call node message).
Proof using f_heap. unfold stamp_call. local_frame. Qed.

Lemma _signable_interface_info_message_local node :
  preserves f (_signable_interface_info_message node).
Proof using f_heap. unfold _signable_interface_info_message. local_frame. Qed.

Lemma _sign_and_date_interface_info_local node :
  preserves f (_sign_and_date_interface_info node).
Proof using f_heap.
  pose proof stamp_call_local. pose proof _signable_interface_info_message_local.
  unfold _sign_and_date_interface_info. local_frame.
Qed.

Lemma _interface_signature_local node : preserves f (_interface_signature node).
Proof using f_heap.
  pose proof _sign_and_date_interface_info_local.
  unfold _interface_signature, reraise_NoSigningPower. local_frame.
Qed.

Lemma timestamp_local node : preserves f (timestamp node).
Proof using f_heap.
  pose proof _sign_and_date_interface_info_local.
  unfold timestamp, reraise_NoSigningPower. local_frame.
Qed.

Lemma timestamp_bytes_local node : preserves f (timestamp_bytes node).
Proof using f_heap. pose proof timestamp_local. unfold timestamp_bytes. local_frame. Qed.

Lemma _stamp_has_valid_wallet_signature_local node :
  preserves f (_stamp_has_valid_wallet_signature node).
Proof using f_heap. unfold _stamp_has_valid_wallet_signature. local_frame. Qed.

Lemma stamp_is_valid_local node : preserves f (stamp_is_valid node).
Proof using f_heap.
  pose proof _stamp_has_valid_wallet_signature_local.
  unfold stamp_is_valid. local_frame.
Qed.

Lemma interface_is_valid_local node : preserves f (interface_is_valid node).
Proof using f_heap.
  pose proof _signable_interface_info_message_local. pose proof timestamp_bytes_local.
  pose proof _interface_signature_local.
  unfold interface_is_valid. local_frame.
Qed.

Lemma validate_metadata_local node accept : preserves f (validate_metadata node accept).
Proof using f_heap.
  pose proof interface_is_valid_local. pose proof stamp_is_valid_local.
  unfold validate_metadata. local_frame.
Qed.
End NodeMethodsLocal.

(** X1: [validate_metadata] sends nothing and writes nothing but the record of
    its node: the requests, the network, the learner, the files, the log and
    the storage are as before, the other objects are as before, and no object
    becomes verified by it. *)
Theorem validate_metadata_stays_local node accept w :
  let w' := (validate_metadata node accept w).2 in
  requests_sent w' = requests_sent w /\ env w' = env w /\ me w' = me w
  /\ disk w' = disk w /\ stdout w' = stdout w /\ node_storage w' = node_storage w
  /\ (forall o, o <> node -> heap w' o = heap w o)
  /\ (forall o, _verified_node (heap w' o) = _verified_node (heap w o)).
Proof.
  simpl. repeat split.
  1-6: by apply (validate_metadata_local _).
  all: pose proof (validate_metadata_touches_only node accept w) as T;
    destruct T as (_&_&_&_&_&Ho&_&Hv); auto.
Qed.

Lemma touches_only_interface node w w' o :
  touches_only node w w' ->
  rest_host (heap w' o) = rest_host (heap w o) /\ rest_port (heap w' o) = rest_port (heap w o).
Proof.
  intros (_&_&_&_&_&_&Hi&_). specialize (Hi o). unfold identity_of in Hi.
  by simplify_eq.
Qed.

(** X2: [verify_node] sends at most one request, a [node_information] to the
    host and port of its node with the certificate it was given; a
    verification that succeeds sent exactly that one. *)
Theorem verify_node_requests node path accept force w :
  let r := verify_node node path accept force w in
  let request :=
    node_information_request (rest_host (heap w node)) (rest_port (heap w node)) path in
  (requests_sent r.2 = requests_sent w \/ requests_sent r.2 = (requests_sent w ++ [request])%list)
  /\ (r.1 = Ok None -> requests_sent r.2 = (requests_sent w ++ [request])%list).
Proof.
  simpl. destruct (verify_node node path accept force w) as [r w'] eqn:Hv. simpl.
  unfold verify_node in Hv. run Hv.
  all: try match goal with
       | Hm : validate_metadata _ _ _ = _ |- _ =>
           pose proof (preserves_run _ _ _ _ _ (validate_metadata_local requests_sent (fun _ _ => eq_refl) _ _) Hm) as Hreq;
           touch Hm; pose proof (touches_only_interface _ _ _ node T) as [Hhost Hport]
       end.
  all: simpl; rewrite ?Hhost, ?Hport, ?Hreq.
  all: try (split; [by left|done]).
  all: try (split; [by right|done]).
Qed.
(** ** The flags of a node *)

(** What the signing helpers write: [_timestamp] and
    [_interface_signature_object] of their node, nothing else of any
    object. *)
Section NodeFields.
Context {B : Type} (g : VerifiableNode -> B) (o : nat).
Context (g_timestamp : forall t n, g (set_timestamp t n) = g n).
Context (g_signature : forall x n, g (set_interface_signature_object x n) = g n).

Local Ltac field_leaf :=
  unfold preserved; simpl;
  repeat match goal with
         | |- context [Nat.eqb ?a ?b] => destruct (Nat.eqb a b)
         end;
  by rewrite ?g_timestamp, ?g_signature.

Local Ltac field_frame := frame_with ltac:(field_leaf).

Lemma stamp_call_field node message :
  preserves (fun w => g (heap w o)) (stamp_call node message).
Proof using Type. unfold stamp_call. field_frame. Qed.

Lemma _signable_interface_info_message_field node :
  preserves (fun w => g (heap w o)) (_signable_interface_info_message node).
Proof using Type. unfold _signable_interface_info_message. field_frame. Qed.

Lemma _sign_and_date_interface_info_field node :
  preserves (fun w => g (heap w o)) (_sign_and_date_interface_info node).
Proof using g_timestamp g_signature.
  pose proof stamp_call_field. pose proof _signable_interface_info_message_field.
  unfold _sign_and_date_interface_info. field_frame.
Qed.

Lemma _interface_signature_field node :
  preserves (fun w => g (heap w o)) (_interface_signature node).
Proof using g_timestamp g_signature.
  pose proof _sign_and_date_interface_info_field.
  unfold _interface_signature, reraise_NoSigningPower. field_frame.
Qed.

Lemma timestamp_field node : preserves (fun w => g (heap w o)) (timestamp node).
Proof using g_timestamp g_signature.
  pose proof _sign_and_date_interface_info_field.
  unfold timestamp, reraise_NoSigningPower. field_frame.
Qed.

Lemma timestamp_bytes_field node :
  preserves (fun w => g (heap w o)) (timestamp_bytes node).
Proof using g_timestamp g_signature.
  pose proof timestamp_field. unfold timestamp_bytes. field_frame.
Qed.

Lemma interface_is_valid_field node :
  (forall b n, g (set_verified_interface b n) = g n) ->
  preserves (fun w => g (heap w o)) (interface_is_valid node).
Proof using g_timestamp g_signature.
  intros g_interface.
  pose proof _signable_interface_info_message_field. pose proof timestamp_bytes_field.
  pose proof _interface_signature_field.
  unfold interface_is_valid.
  frame_with ltac:(unfold preserved; simpl;
                   repeat match goal with
                          | |- context [Nat.eqb ?a ?b] => destruct (Nat.eqb a b)
                          end;
                   by rewrite ?g_interface).
Qed.
End NodeFields.

(** [flags_kept w w']: every flag of a verification that was set in [w] is
    set in [w']. *)
Definition flags_kept (w w' : World) : Prop :=
  forall o,
    (verified_interface (heap w o) = true -> verified_interface (heap w' o) = true)
    /\ (verified_stamp (heap w o) = true -> verified_stamp (heap w' o) = true)
    /\ (_verified_node (heap w o) = true -> _verified_node (heap w' o) = true).

Instance flags_kept_PreOrder : PreOrder flags_kept.
Proof.
  split.
  - by intros w o.
  - intros x y z Hxy Hyz o. destruct (Hxy o) as (?&?&?), (Hyz o) as (?&?&?). auto.
Qed.

Lemma stamp_is_valid_flags_kept node : respects flags_kept (stamp_is_valid node).
Proof.
  intros w. destruct (stamp_is_valid node w) as [r w'] eqn:E. simpl.
  unfold stamp_is_valid, _stamp_has_valid_wallet_signature in E. run E.
  all: try reflexivity.
  all: intros o; simpl; destruct (Nat.eqb o node); auto.
Qed.

Lemma interface_is_valid_flags_kept node w :
  verified_interface (heap w node) = false ->
  flags_kept w (interface_is_valid node w).2.
Proof.
  intros Hf o.
  pose proof (interface_is_valid_field verified_stamp o (fun _ _ => eq_refl)
                (fun _ _ => eq_refl) node (fun _ _ => eq_refl) w) as Hs.
  pose proof (interface_is_valid_touches_only node w) as (_&_&_&_&_&Ho&_&Hv).
  unfold preserved in Hs. rewrite Hs, Hv. repeat split; try done.
  destruct (decide (o = node)) as [->|Hne]; [congruence|by rewrite Ho].
Qed.

Lemma validate_metadata_flags_kept node accept :
  respects flags_kept (validate_metadata node accept).
Proof.
  pose proof stamp_is_valid_flags_kept.
  assert (forall k : M unit,
            k = (do n <- deref node;
                 when (negb (verified_stamp n))
                   (try_except (do _ <- stamp_is_valid node; ret tt)
                      (fun e =>
                         if isa_WrongMode e
                         then Some (if negb accept then raise e else ret tt)
                         else None))) ->
            respects flags_kept k) as Hrest.
  { intros k ->. frame_with ltac:(idtac). }
  intros w. unfold validate_metadata.
  unfold bind at 1, deref at 1, gets at 1.
  destruct (verified_interface (heap w node)) eqn:Hvi; simpl.
  - unfold bind at 1, ret at 1. by apply Hrest.
  - pose proof (interface_is_valid_flags_kept node w Hvi) as Hi.
    unfold bind at 1. unfold bind at 1.
    destruct (interface_is_valid node w) as [[b|e] w1]; simpl in *; [|done].
    unfold ret at 1. etrans; [exact Hi|]. by apply Hrest.
Qed.

(** X3: Neither [validate_metadata] nor [verify_node] clears a flag: on every
    object, [verified_interface], [verified_stamp] and [_verified_node] that
    were set before the call are set after it, however the call ends. *)
Theorem verify_node_keeps_flags node path accept force w :
  flags_kept w (validate_metadata node accept w).2
  /\ flags_kept w (verify_node node path accept force w).2.
Proof.
  split; [apply validate_metadata_flags_kept|].
  pose proof validate_metadata_flags_kept.
  revert w. change (respects flags_kept (verify_node node path accept force)).
  unfold verify_node.
  frame_with ltac:(intros o; simpl; destruct (Nat.eqb o node); auto).
Qed.
(** ** What a validation establishes *)

Lemma stamp_is_valid_inv node w r w' :
  stamp_is_valid node w = (r, w') ->
  (r = Ok true /\ verified_stamp (heap w' node) = true
   /\ verified_interface (heap w' node) = verified_interface (heap w node))
  \/ (exists e, r = Raise e /\ w' = w).
Proof.
  intros E. unfold stamp_is_valid, _stamp_has_valid_wallet_signature in E. run E.
  all: try (left; split; [done|]; simpl; by rewrite Nat.eqb_refl).
  all: right; eexists; by repeat split.
Qed.

Lemma interface_is_valid_inv node w r w' :
  interface_is_valid node w = (Ok r, w') -> verified_interface (heap w' node) = true.
Proof.
  intros E. unfold interface_is_valid in E. run E.
  simpl. by rewrite Nat.eqb_refl.
Qed.

Lemma validate_metadata_inv node accept w w' :
  validate_metadata node accept w = (Ok tt, w') ->
  verified_interface (heap w' node) = true
  /\ (accept = false -> verified_stamp (heap w' node) = true).
Proof.
  intros E. unfold validate_metadata in E. run E.
  all: repeat match goal with
       | Hs : stamp_is_valid _ _ = _ |- _ =>
           apply stamp_is_valid_inv in Hs as [(?&?&?)|(?&?&?)]; simplify_eq
       | Hi : interface_is_valid _ _ = _ |- _ =>
           apply interface_is_valid_inv in Hi
       end.
  all: repeat match goal with
       | Hb : negb ?b = true |- _ => destruct b eqn:?; [discriminate Hb|clear Hb]
       | Hb : negb ?b = false |- _ => destruct b eqn:?; [clear Hb|discriminate Hb]
       end.
  all: try (split; [congruence|intros; congruence]).
  all: try (split; [congruence|intros; subst; simpl in *; congruence]).
  all: destruct (isa_WrongMode x); [|discriminate Hh]; simplify_eq.
  all: destruct accept; simpl in Hk0; run Hk0.
  all: split; [congruence|intros; congruence].
Qed.
(** X4: What a check that goes through has established.  A node that
    [validate_metadata] lets through has [verified_interface] set, and
    [verified_stamp] too unless nodes of a federation are accepted.  A
    verification that goes through (a call of [verify_node] that did not
    answer at once and did not raise) leaves the node with [_verified_node]
    set as well. *)
Theorem verify_node_establishes node accept w w' :
  (validate_metadata node accept w = (Ok tt, w') ->
   verified_interface (heap w' node) = true
   /\ (accept = false -> verified_stamp (heap w' node) = true))
  /\ (forall path force,
        verify_node node path accept force w = (Ok None, w') ->
        _verified_node (heap w' node) = true
        /\ verified_interface (heap w' node) = true
        /\ (accept = false -> verified_stamp (heap w' node) = true)).
Proof.
  split; [apply validate_metadata_inv|].
  intros path force E. unfold verify_node in E. run E.
  destruct a. apply validate_metadata_inv in Hm as [Hi Hs].
  simpl. rewrite Nat.eqb_refl. simpl. done.
Qed.

(** ** The timestamp of a stranger *)

(** X5: [timestamp] on a node that has no timestamp and cannot sign raises
    [NoSigningPower], but [_sign_and_date_interface_info] has dated the node
    before it failed to sign: the node now carries the time of the call, still
    without a signature, and the next read of [timestamp] returns that time. *)
Theorem timestamp_of_stranger node w :
  _timestamp (heap w node) = None ->
  can_sign (heap w node) = false ->
  (0 <= clock w < 2 ^ 32)%Z ->
  let w' := (timestamp node w).2 in
  (timestamp node w).1 = Raise NoSigningPower
  /\ _timestamp (heap w' node) = Some (clock w)
  /\ _interface_signature_object (heap w' node) = _interface_signature_object (heap w node)
  /\ timestamp node w' = (Ok (clock w), w').
Proof.
  intros Ht Hc Hclock. simpl.
  assert (to_bytes_4_big (clock w)
          = Ok [byte_of_Z (Z.shiftr (clock w) 24); byte_of_Z (Z.shiftr (clock w) 16);
                byte_of_Z (Z.shiftr (clock w) 8); byte_of_Z (clock w)]) as Hb.
  { unfold to_bytes_4_big.
    destruct (Z.leb_spec 0 (clock w)); [|lia].
    destruct (Z.ltb_spec (clock w) (2 ^ 32)); [done|lia]. }
  assert (timestamp node w
          = (Raise NoSigningPower,
             set_heap (fun o' => if Nat.eqb o' node
                                 then set_timestamp (Some (clock w)) (heap w o')
                                 else heap w o') w)) as ->.
  { unfold timestamp, _sign_and_date_interface_info, _signable_interface_info_message,
      stamp_call, reraise_NoSigningPower, try_except, bind, deref, gets, ret, raise,
      update_node, modify, maya_now, lift_outcome.
    simpl. rewrite Ht, Hb. simpl. rewrite Nat.eqb_refl. simpl. by rewrite Hc. }
  simpl. rewrite Nat.eqb_refl. repeat split; try done.
  apply timestamp_of_dated. simpl. by rewrite Nat.eqb_refl.
Qed.

(** * Further properties of the learner *)

(** ** The sorted nodes *)

(** X6: [sorted_nodes] of a learner returns its known nodes, and
    [sorted_nodes] of a node the known nodes and the node itself, in ascending
    order of their checksum addresses; neither changes anything. *)
Theorem sorted_nodes_sorted self_node w :
  (exists l,
     sorted_nodes w = (Ok l, w)
     /\ StronglySorted (key_le (fun n => checksum_public_address (heap w n))) l
     /\ l ≡ₚ dict_values (entries (known_nodes (me w))))
  /\ (exists l,
        VerifiableNode_sorted_nodes self_node w = (Ok l, w)
        /\ StronglySorted (key_le (fun n => checksum_public_address (heap w n))) l
        /\ l ≡ₚ self_node :: dict_values (entries (known_nodes (me w)))).
Proof.
  split; eexists; (split; [reflexivity|]); split.
  - apply sorted_by_key_sorted.
  - apply sorted_by_key_Permutation.
  - apply sorted_by_key_sorted.
  - rewrite sorted_by_key_Permutation. symmetry. apply Permutation_cons_append.
Qed.


(** ** The bytes of a timestamp *)

Lemma byte_of_Z_value z : Z.of_N (Byte.to_N (byte_of_Z z)) = (z mod 256)%Z.
Proof.
  unfold byte_of_Z.
  assert (0 <= z mod 256 < 256)%Z as Hr by (apply Z.mod_pos_bound; lia).
  destruct (Byte.of_N (Z.to_N (z mod 256))) as [b|] eqn:E.
  - apply Byte.to_of_N in E. rewrite E. lia.
  - apply Byte.of_N_None_iff in E. lia.
Qed.

Lemma four_bytes_value z :
  (0 <= z < 4294967296)%Z ->
  ((((0 * 256 + (z / 16777216) mod 256) * 256 + (z / 65536) mod 256) * 256
    + (z / 256) mod 256) * 256 + z mod 256)%Z = z.
Proof.
  intros Hz.
  rewrite (Z.mod_small (z / 16777216))
    by (split; [apply Z.div_pos; lia|apply Z.div_lt_upper_bound; lia]).
  assert (z / 65536 = z / 256 / 256)%Z as E1 by (by rewrite Z.div_div by lia).
  assert (z / 16777216 = z / 65536 / 256)%Z as E2 by (by rewrite Z.div_div by lia).
  pose proof (Z.div_mod z 256 ltac:(lia)) as H0.
  pose proof (Z.div_mod (z / 256) 256 ltac:(lia)) as H1.
  pose proof (Z.div_mod (z / 65536) 256 ltac:(lia)) as H2.
  rewrite <- E1 in H1. rewrite <- E2 in H2.
  remember (z / 16777216)%Z as q3. remember (z / 65536)%Z as q2.
  remember (z / 256)%Z as q1. remember (z mod 256)%Z as r0.
  remember (q1 mod 256)%Z as r1. remember (q2 mod 256)%Z as r2.
  clear - H0 H1 H2. lia.
Qed.

Lemma int_from_bytes_big_to_bytes z b :
  to_bytes_4_big z = Ok b -> length b = 4%nat /\ int_from_bytes_big b = z.
Proof.
  unfold to_bytes_4_big.
  destruct (Z.leb_spec 0 z); [|done].
  destruct (Z.ltb_spec z (2 ^ 32)); [|done].
  cbn [andb]. intros [= <-]. split; [done|].
  unfold int_from_bytes_big. cbn [fold_left].
  rewrite !byte_of_Z_value, !Z.shiftr_div_pow2 by lia.
  apply four_bytes_value. split; [lia|]. by change 4294967296%Z with (2 ^ 32)%Z.
Qed.

(** X7: [timestamp_bytes] and the splitter [(int, 4, 'big')] are inverse to
    each other on the timestamps that fit into four bytes: for a node dated
    [t] with [0 <= t < 2^32] the four bytes read back as [t]; for any other
    [t] (before 1970, or from the year 2106 on) [timestamp_bytes] raises
    [OverflowError].  Neither case changes anything. *)
Theorem timestamp_bytes_round_trip node t w :
  _timestamp (heap w node) = Some t ->
  ((0 <= t < 2 ^ 32)%Z ->
   exists b, timestamp_bytes node w = (Ok b, w)
             /\ length b = 4%nat /\ int_from_bytes_big b = t)
  /\ (~ (0 <= t < 2 ^ 32)%Z -> timestamp_bytes node w = (Raise OverflowError, w)).
Proof.
  intros Ht. unfold timestamp_bytes, bind. rewrite (timestamp_of_dated _ _ _ Ht).
  unfold lift_outcome. split.
  - intros Hr. destruct (to_bytes_4_big t) as [b|e] eqn:E.
    + exists b. split; [done|]. by apply int_from_bytes_big_to_bytes.
    + unfold to_bytes_4_big in E.
      destruct (Z.leb_spec 0 t); [|lia]. destruct (Z.ltb_spec t (2 ^ 32)); [done|lia].
  - intros Hr. unfold to_bytes_4_big.
    destruct (Z.leb_spec 0 t); [|done].
    destruct (Z.ltb_spec t (2 ^ 32)); [lia|done].
Qed.

(** ** [remember_node] without the update of the fleet state *)

Lemma verifies_me node w w' : verifies node w w' -> me w' = me w.
Proof. by intros (?&_). Qed.

(** X8: With [update_fleet_state=False] the answer of [remember_node] tells
    what it did: it returns [True] and the node is in [known_nodes] under its
    address (in the place of an older record of that address, or last), or it
    does not return [True] and [known_nodes] is what it was. *)
Theorem remember_node_without_update node force w :
  let r := remember_node node force false w in
  (r.1 = Ok true
   /\ known_nodes (me r.2)
      = set_entries
          (dict_set (checksum_public_address (heap w node)) node
             (entries (known_nodes (me w))))
          (known_nodes (me w)))
  \/ (r.1 <> Ok true /\ known_nodes (me r.2) = known_nodes (me w)).
Proof.
  simpl. destruct (remember_node node force false w) as [r w'] eqn:Hr. simpl.
  apply remember_node_inv in Hr as [[Hne (Hme&_)]|(w1 & v & w2 & _ & R1 & Hv & Hs)].
  - right. by rewrite Hme.
  - left.
    destruct (remember_node_store_spec node false w2) as (w3 & Hs' & Hst).
    rewrite Hs in Hs'. simplify_eq. split; [done|].
    assert (verifies node w1 w2) as V
      by (refine (respects_run (verifies _) _ _ _ _ _ Hv); apply verify_node_verifies).
    destruct Hst as (-> & _).
    rewrite (verifies_me _ _ _ V), (proj1 R1).
    by rewrite (verifies_address _ _ _ node V), (retains_address _ _ node R1).
Qed.

(** ** A certificate under another name *)

Lemma save_certificate_to_disk_inv node directory force w r w' :
  save_certificate_to_disk node directory force w = (r, w') ->
  (rest_host (heap w node) <> common_name (certificate (heap w node))
   /\ r = Raise ValueError /\ w' = w)
  \/ (rest_host (heap w node) = common_name (certificate (heap w node))
      /\ r = Ok tt
      /\ dict_get (get_certificate_filepath (heap w node) directory) (disk w')
         = Some (certificate (heap w node))
      /\ certificate_filepath (heap w' node)
         = get_certificate_filepath (heap w node) directory).
Proof.
  intros Hs. unfold save_certificate_to_disk, _write_tls_certificate in Hs. run Hs.
  - left. apply negb_true_iff, String.eqb_neq in Hb. done.
  - right. apply negb_false_iff, String.eqb_eq in Hb. repeat split; try done.
    + simpl. apply dict_get_set.
    + simpl. by rewrite Nat.eqb_refl.
Qed.

Lemma retains_host_and_name w w' o :
  retains w w' ->
  rest_host (heap w' o) = rest_host (heap w o)
  /\ certificate (heap w' o) = certificate (heap w o).
Proof.
  intros (_&_&Hi&_). specialize (Hi o). unfold identity_of in Hi. by simplify_eq.
Qed.

(** X9: A node whose host is not the common name of its certificate is never
    stored: [remember_node] does not return [True] and [known_nodes] is what
    it was.  When the node is not the learner itself and its address is not
    known yet, the [ValueError] of [save_certificate_to_disk] leaves
    [remember_node], which has no handler for it, and nothing at all has
    changed. *)
Theorem remember_node_wrong_common_name node force upd w :
  rest_host (heap w node) <> common_name (certificate (heap w node)) ->
  let r := remember_node node force upd w in
  r.1 <> Ok true
  /\ known_nodes (me r.2) = known_nodes (me w)
  /\ (node_is_self node (heap w node) = false ->
      dict_get (checksum_public_address (heap w node)) (entries (known_nodes (me w))) = None ->
      r = (Raise ValueError, w)).
Proof.
  intros Hname. simpl. split; [|split].
  3: { intros Hself Hnew. unfold remember_node.
       unfold bind at 1, deref at 1, gets at 1. rewrite Hself.
       unfold bind at 1, self at 1, gets at 1. rewrite Hnew.
       unfold bind at 1, ret at 1. cbn match.
       unfold bind at 1.
       destruct (save_certificate_to_disk node (known_certificates_dir (me w)) true w)
         as [r1 w1] eqn:Hs.
       apply save_certificate_to_disk_inv in Hs as [(_&->&->)|(Heq&_)]; done. }
  all: destruct (remember_node node force upd w) as [r w'] eqn:Hr; simpl.
  all: cut (r <> Ok true /\ me w' = me w); [intros [? Hme]; by rewrite ?Hme|].
  all: unfold remember_node in Hr; run Hr.
  all: repeat match goal with
       | H : timestamp _ _ = _ |- _ => retain H; revert H
       end; intros.
  all: try match goal with
       | Hn : rest_host (heap ?w0 ?n) <> _,
         H : save_certificate_to_disk _ _ _ ?w1 = _ |- _ =>
           assert (retains w0 w1) as R by retains_chain;
           apply save_certificate_to_disk_inv in H as [(_&?&?)|(Heq&_)];
           [simplify_eq
           |destruct (retains_host_and_name _ _ n R) as [Eh Ec];
            congruence]
       end.
  all: try (split; [done|]).
  all: try done.
  all: try apply R.
  all: try match goal with
       | Hn : rest_host (heap ?w0 ?n) <> _ |- me ?w1 = me ?w0 =>
           assert (retains w0 w1) as R by retains_chain; apply R
       end.
Qed.

(** ** The listeners *)

Definition listeners_at (a : string) (w : World) : list nat :=
  default [] (dict_get a (_learning_listeners (me w))).

Lemma dict_keys_set {V} k (v : V) d :
  dict_keys (dict_set k v d)
  = if bool_decide (k ∈ dict_keys d) then dict_keys d else (dict_keys d ++ [k])%list.
Proof.
  unfold dict_keys. induction d as [|[k' v'] d IH]; simpl; [done|].
  destruct (String.eqb_spec k k') as [->|Hne]; simpl.
  - rewrite bool_decide_eq_true_2; [done|by left].
  - rewrite IH. destruct (bool_decide (k ∈ map fst d)) eqn:E.
    + apply bool_decide_eq_true in E. rewrite bool_decide_eq_true_2; [done|by right].
    + apply bool_decide_eq_false in E. rewrite bool_decide_eq_false_2; [done|].
      by intros [?|?]%elem_of_cons.
Qed.

Lemma dict_set_NoDup {V} k (v : V) d :
  NoDup (dict_keys d) -> NoDup (dict_keys (dict_set k v d)).
Proof.
  intros Hnd. rewrite dict_keys_set. case_bool_decide as Hk; [done|].
  apply NoDup_app. split; [done|]. split; [|apply NoDup_singleton].
  intros x Hx ->%list_elem_of_singleton. done.
Qed.

Lemma dict_get_None {V} k (d : dict V) : k ∉ dict_keys d -> dict_get k d = None.
Proof.
  unfold dict_keys. induction d as [|[k' v'] d IH]; simpl; [done|].
  intros [Hne Hk]%not_elem_of_cons.
  destruct (String.eqb_spec k k'); [done|by apply IH].
Qed.

Lemma dict_get_remove {V} k (d : dict V) :
  NoDup (dict_keys d) -> dict_get k (dict_remove k d) = None.
Proof.
  unfold dict_keys. induction d as [|[k' v'] d IH]; simpl; [done|].
  intros [Hk' Hnd]%NoDup_cons.
  destruct (String.eqb_spec k k') as [->|Hne]; simpl.
  - by apply dict_get_None.
  - destruct (String.eqb_spec k k'); [done|by apply IH].
Qed.

Lemma notified_fold a l w :
  notified (fold_left (fun w x => set_notified (notified w ++ [(x, a)]) w) l w)
  = (notified w ++ map (fun x => (x, a)) l)%list.
Proof.
  revert w. induction l as [|x l IH]; intros w; simpl.
  - by rewrite app_nil_r.
  - rewrite IH. simpl. by rewrite <- app_assoc.
Qed.

Lemma me_fold a l w :
  me (fold_left (fun w x => set_notified (notified w ++ [(x, a)]) w) l w) = me w.
Proof. by apply fold_left_preserved. Qed.

(** What [_push_certain_newly_discovered_nodes_here] does: the queue is
    added behind the listeners of each address; nothing else of the learner
    that [remember_node] reads is touched. *)
Lemma _push_certain_newly_discovered_nodes_here_spec queue addrs w :
  let w1 := (_push_certain_newly_discovered_nodes_here queue addrs w).2 in
  (_push_certain_newly_discovered_nodes_here queue addrs w).1 = Ok tt
  /\ heap w1 = heap w /\ notified w1 = notified w
  /\ known_nodes (me w1) = known_nodes (me w)
  /\ (NoDup (dict_keys (_learning_listeners (me w))) ->
      NoDup (dict_keys (_learning_listeners (me w1))))
  /\ (forall a l, l ∈ listeners_at a w -> l ∈ listeners_at a w1)
  /\ (forall a, a ∈ addrs -> queue ∈ listeners_at a w1).
Proof.
  unfold _push_certain_newly_discovered_nodes_here.
  revert w. induction addrs as [|a0 addrs IH]; intros w; simpl.
  - repeat split; try done. intros a Ha. by apply elem_of_nil in Ha.
  - unfold bind at 1. unfold bind at 1. unfold sendMessage at 1, modify at 1.
    unfold update_self at 1, modify at 1.
    match goal with |- context [for_each addrs ?body ?w0] => specialize (IH w0) end.
    simpl in IH. destruct IH as (Hr & Hh & Hn & Hk & Hnd & Hmono & Hin).
    repeat split; try done.
    + intros ?. apply Hnd. simpl. by apply dict_set_NoDup.
    + intros a l Hl. apply Hmono. unfold listeners_at. simpl.
      destruct (decide (a = a0)) as [->|Hne].
      * rewrite dict_get_set. simpl. apply elem_of_app. by left.
      * by rewrite dict_get_set_ne.
    + intros a [->|Ha]%elem_of_cons; [|by apply Hin].
      apply Hmono. unfold listeners_at. simpl. rewrite dict_get_set. simpl.
      apply elem_of_app. right. by apply list_elem_of_singleton.
Qed.

(** X10: A queue registered for an address hears of the node that is stored
    under it: after [_push_certain_newly_discovered_nodes_here] with the
    address of a node among the addresses, the lines of [remember_node] that
    store that node notify every listener of the address once, in the order of
    their registration and the queue among them, and no listener is left for
    the address. *)
Theorem listeners_are_notified queue addrs node upd w :
  checksum_public_address (heap w node) ∈ addrs ->
  let a := checksum_public_address (heap w node) in
  let w1 := (_push_certain_newly_discovered_nodes_here queue addrs w).2 in
  let w2 := (remember_node_store node upd w1).2 in
  notified w2 = (notified w ++ map (fun l => (l, a)) (listeners_at a w1))%list
  /\ (queue, a) ∈ notified w2
  /\ (NoDup (dict_keys (_learning_listeners (me w))) -> listeners_at a w2 = []).
Proof.
  intros Ha. simpl.
  destruct (_push_certain_newly_discovered_nodes_here_spec queue addrs w)
    as (_ & Hh & Hn & _ & Hnd & _ & Hin).
  set (w1 := (_push_certain_newly_discovered_nodes_here queue addrs w).2) in *.
  specialize (Hin _ Ha).
  destruct (remember_node_store node upd w1) as [r w2] eqn:Hs. simpl.
  assert (notified w2
          = (notified w1
             ++ map (fun l => (l, checksum_public_address (heap w1 node)))
                  (listeners_at (checksum_public_address (heap w1 node)) w1))%list
          /\ _learning_listeners (me w2)
             = dict_remove (checksum_public_address (heap w1 node))
                 (_learning_listeners (me w1))) as [Hnot Hl].
  { unfold remember_node_store, write_node_metadata, node_storage_save in Hs.
    run Hs; simpl; rewrite ?notified_fold, ?me_fold; simpl; by rewrite ?app_nil_r. }
  rewrite Hh in Hnot, Hl. rewrite Hnot, Hn. split; [done|]. split.
  - apply elem_of_app. right.
    by apply (list_elem_of_fmap_2 (fun l => (l, checksum_public_address (heap w node)))).
  - intros Hnd0. unfold listeners_at. rewrite Hl, dict_get_remove; [done|by apply Hnd].
Qed.

(** * Further properties of the learning round *)

(** ** What the learner keeps while it remembers and seeds *)

(** An attribute of the learner that the storing lines of [remember_node] do
    not assign is the same after [remember_node] and after
    [read_nodes_from_storage]; one that [load_seednodes] does not assign
    either is the same after [load_seednodes]. *)
Section LearnerFields.
Context {B : Type} (g : Learner -> B).
Context (g_listeners : forall x s, g (set_learning_listeners x s) = g s).
Context (g_known_nodes : forall x s, g (set_known_nodes x s) = g s).
Context (g_ids : forall x s, g (set_node_ids_to_learn_about_immediately x s) = g s).

Local Hint Extern 1 (respects (preserved (fun w => g (me w))) _) =>
  apply (preserves_me_field g) : frame.

Local Ltac learner_leaf :=
  unfold preserved; simpl; by rewrite ?g_listeners, ?g_known_nodes, ?g_ids.

Lemma remember_node_store_field node upd :
  preserves (fun w => g (me w)) (remember_node_store node upd).
Proof using g_listeners g_known_nodes g_ids.
  unfold remember_node_store, write_node_metadata, node_storage_save.
  frame_with ltac:(learner_leaf).
Qed.

Lemma remember_node_field node force upd :
  preserves (fun w => g (me w)) (remember_node node force upd).
Proof using g_listeners g_known_nodes g_ids.
  pose proof remember_node_store_field.
  unfold remember_node, remember_node_handlers. frame_with ltac:(learner_leaf).
Qed.

Lemma read_nodes_from_storage_field :
  preserves (fun w => g (me w)) read_nodes_from_storage.
Proof using g_listeners g_known_nodes g_ids.
  pose proof remember_node_field.
  unfold read_nodes_from_storage. frame_with ltac:(learner_leaf).
Qed.

Lemma call_from_seednode_metadata_field md dir timeout fed :
  preserves (fun w => g (me w)) (call_from_seednode_metadata md dir timeout fed).
Proof using Type.
  unfold call_from_seednode_metadata. apply respects_bind; [tc_solve| |intros ?].
  - intros w. by destruct (from_seednode_metadata _ _ _ _ _).
  - frame_with ltac:(learner_leaf).
Qed.

Lemma load_seednodes_field read attempts rate timeout :
  (forall x s, g (set_unresponsive_seed_nodes x s) = g s) ->
  (forall x s, g (set_done_seeding x s) = g s) ->
  preserves (fun w => g (me w)) (load_seednodes read attempts rate timeout).
Proof using g_listeners g_known_nodes g_ids.
  intros g_unresponsive g_done.
  pose proof remember_node_field. pose proof read_nodes_from_storage_field.
  pose proof call_from_seednode_metadata_field.
  unfold load_seednodes, __attempt_seednode_learning.
  frame_with ltac:(unfold preserved; simpl; by rewrite ?g_unresponsive, ?g_done).
Qed.
End LearnerFields.

(** ** Where a teacher comes from *)

Lemma deque_pop_elem {A} (q : list A) x r : deque_pop q = Some (x, r) -> q = (r ++ [x])%list.
Proof.
  revert x r. induction q as [|y q IH]; intros x r; simpl; [done|].
  destruct q as [|z q]; [by intros [= <- <-]|].
  destruct (deque_pop (z :: q)) as [[x' r']|] eqn:E; [|done].
  intros [= <- <-]. by rewrite (IH _ _ eq_refl).
Qed.

Lemma shuffled_known_nodes_inv w r w' :
  shuffled_known_nodes w = (r, w') ->
  me w' = me w
  /\ exists l, r = Ok l /\ l ≡ₚ dict_values (entries (known_nodes (me w))).
Proof.
  unfold shuffled_known_nodes. unfold bind at 1, self at 1, gets at 1.
  unfold bind at 1.
  pose proof (shuffle_Permutation (env w) (dict_values (entries (known_nodes (me w))))) as Hp.
  destruct (shuffle _ _) as [l e]. simpl in Hp.
  intros Hr. run Hr. split; [done|]. by exists l.
Qed.

Lemma select_teacher_nodes_inv w r w' :
  select_teacher_nodes w = (r, w') ->
  known_nodes (me w') = known_nodes (me w)
  /\ _current_teacher_node (me w') = _current_teacher_node (me w)
  /\ ((r = Raise NotEnoughTeachers /\ entries (known_nodes (me w)) = []
       /\ teacher_nodes (me w') = teacher_nodes (me w))
      \/ (r = Ok tt
          /\ exists l, l ≡ₚ dict_values (entries (known_nodes (me w)))
                       /\ teacher_nodes (me w') = (teacher_nodes (me w) ++ l)%list)).
Proof.
  intros Hr. unfold select_teacher_nodes in Hr. run Hr.
  all: apply shuffled_known_nodes_inv in Hm as (Hme & l & ? & Hp); simplify_eq.
  - rewrite Hme. repeat split. left. repeat split.
    destruct l; [|done]. apply Permutation_nil in Hp.
    unfold dict_values in Hp. by destruct (entries (known_nodes (me w))).
  - simpl. rewrite Hme. repeat split. right. split; [done|]. by exists l.
Qed.

(** X11: The teacher that [cycle_teacher_node] sets is a node that was in the
    queue of teachers, or one of the known nodes: no teacher comes from
    anywhere else. *)
Theorem cycle_teacher_node_known_teacher w w' :
  cycle_teacher_node w = (Ok tt, w') ->
  exists teacher,
    _current_teacher_node (me w') = Some teacher
    /\ (teacher ∈ teacher_nodes (me w)
        \/ teacher ∈ dict_values (entries (known_nodes (me w')))).
Proof.
  intros Hc. unfold cycle_teacher_node in Hc. run Hc.
  all: repeat match goal with
       | Hl : load_seednodes _ _ _ _ _ = _ |- _ =>
           pose proof (preserves_run _ _ _ _ _
                         (load_seednodes_field teacher_nodes (fun _ _ => eq_refl)
                            (fun _ _ => eq_refl) (fun _ _ => eq_refl) _ _ _ _
                            (fun _ _ => eq_refl) (fun _ _ => eq_refl)) Hl) as Hq;
           simpl in Hq; clear Hl
       | Hs : select_teacher_nodes _ = _ |- _ =>
           apply select_teacher_nodes_inv in Hs
             as (Hknown & _ & [(?&_)|(_ & l & Hperm & Hsel)]);
           simplify_eq
       end.
  all: match goal with
       | Hp : deque_pop _ = Some ?p, Hrun : _ ?w2 = (Ok (), _) |- _ =>
           destruct p as [teacher rest]; run Hrun; exists teacher; (split; [done|])
       end.
  all: match goal with
       | Hp : deque_pop ?q = Some (?t, _) |- _ =>
           assert (t ∈ q) as Hin
             by (rewrite (deque_pop_elem _ _ _ Hp); apply elem_of_app; right;
                 by apply list_elem_of_singleton);
           clear Hp
       end.
  all: simpl.
  all: try rewrite Hq in *.
  all: try (by left).
  all: right; rewrite Hknown, <- Hperm; rewrite Hsel in Hin.
  all: apply elem_of_app in Hin as [Hin|Hin]; [|done].
  all: match goal with
       | Hempty : is_empty ?q = true |- _ =>
           destruct q; [by apply elem_of_nil in Hin|done]
       end.
Qed.

(** ** A round without a teacher, a teacher without an answer *)

(** X12: A learner that knows no node, has no teacher and no seed node to
    retry cannot learn: the round returns [None] after the warning, nothing
    was asked of the network, no node is known and no teacher is set
    afterwards; the round was counted. *)
Theorem learn_from_teacher_node_without_teachers eager w :
  entries (known_nodes (me w)) = [] ->
  teacher_nodes (me w) = [] ->
  _current_teacher_node (me w) = None ->
  unresponsive_seed_nodes (me w) = [] ->
  let r := learn_from_teacher_node eager w in
  r.1 = Ok None
  /\ requests_sent r.2 = requests_sent w
  /\ known_nodes (me r.2) = known_nodes (me w)
  /\ _current_teacher_node (me r.2) = None
  /\ _learning_round (me r.2) = (_learning_round (me w) + 1)%Z
  /\ last (stdout r.2) = Some (Warn, "Can't learn right now").
Proof.
  intros Hk Hq Ht Hu. simpl.
  pose proof (shuffle_Permutation (env w) []) as Hp.
  unfold learn_from_teacher_node, current_teacher_node, cycle_teacher_node,
    select_teacher_nodes, shuffled_known_nodes.
  unfold bind, try_except, when, update_self, modify, self, gets, ret, raise, sendMessage.
  simpl. rewrite Ht. simpl. rewrite Hu. simpl. rewrite Hq. simpl. rewrite Hk. simpl.
  destruct (shuffle (env w) []) as [l e]. simpl in Hp.
  symmetry in Hp. apply Permutation_nil in Hp. subst l. simpl.
  repeat split; try done.
  all: try (by rewrite last_snoc).
Qed.

(** X13: A teacher that answers with another status than 200 ends the round
    with [RuntimeError]: the one request to the teacher was sent, the round
    was counted, and that is all; the teacher is still the current one,
    nothing was remembered, allocated or logged, the schedule is as it was. *)
Theorem learn_from_teacher_node_bad_status eager teacher response e w :
  _current_teacher_node (me w) = Some teacher ->
  get_nodes_via_rest (env w)
    (rest_host (heap w teacher), rest_port (heap w teacher))
    (_node_ids_to_learn_about_immediately (me w)) (is_verifiable_node (me w))
    (Some (get_certificate_filepath (heap w teacher) (known_certificates_dir (me w))))
  = (Ok response, e) ->
  status_code response <> 200%Z ->
  let r := learn_from_teacher_node eager w in
  r.1 = Raise RuntimeError
  /\ me r.2 = set_learning_round (_learning_round (me w) + 1) (me w)
  /\ heap r.2 = heap w /\ next_oid r.2 = next_oid w /\ stdout r.2 = stdout w
  /\ requests_sent r.2
     = (requests_sent w
        ++ [get_nodes_via_rest_request
              (rest_host (heap w teacher), rest_port (heap w teacher))
              (_node_ids_to_learn_about_immediately (me w)) (is_verifiable_node (me w))
              (Some (get_certificate_filepath (heap w teacher)
                       (known_certificates_dir (me w))))])%list.
Proof.
  intros Ht Hnet Hs. simpl.
  unfold learn_from_teacher_node, current_teacher_node, call_get_nodes_via_rest.
  unfold bind, try_except, when, update_self, modify, self, gets, ret, raise, deref.
  simpl. rewrite Ht. simpl. rewrite Ht. simpl. rewrite Hnet. simpl.
  destruct (Z.eqb_spec (status_code response) 200); [done|]. simpl.
  done.
Qed.

(** ** Waiting for a number of nodes *)

Definition enough_known (number_of_nodes_to_know : Z) (w : World) : bool :=
  (Z.of_nat (length (entries (known_nodes (me w)))) >=? number_of_nodes_to_know)%Z.

(** The round that [block_until_number_of_known_nodes_is] runs on its own
    thread, with its handler. *)
Definition round_on_this_thread (learn_on_this_thread : bool) : M unit :=
  when learn_on_this_thread
    (try_except (do _ <- learn_from_teacher_node true; ret tt)
       (fun e =>
          if isa_ReadTimeout e || isa_ConnectTimeout e
          then Some (sendMessage Warn "Teacher was unreachable.  No good way to handle this on the main thread.")
          else None)).

Lemma number_body_known n timeout learn start sr w :
  enough_known n w = true ->
  exists w',
    block_until_number_of_known_nodes_is_body n timeout learn start sr w
    = (Ok (Some true), w')
    /\ me w' = me w /\ heap w' = heap w /\ requests_sent w' = requests_sent w.
Proof.
  intros Hs. unfold block_until_number_of_known_nodes_is_body, bind, self, gets.
  unfold enough_known in Hs. simpl. rewrite Hs.
  destruct (negb _); simpl; by eexists.
Qed.

Lemma number_body_polls n timeout learn start sr w w1 :
  enough_known n w = false ->
  round_on_this_thread learn
    (when (negb (running (_learning_task (me w))))
       (sendMessage Warn "Blocking to learn about nodes, but learning loop isn't running.")
       w).2
  = (Ok tt, w1) ->
  block_until_number_of_known_nodes_is_body n timeout learn start sr w
  = if (timedelta_seconds (clock w1 - start) >? timeout)%Z
    then (Raise NotEnoughTeachers, w1)
    else (Ok None, w1).
Proof.
  intros Hs Hp. unfold block_until_number_of_known_nodes_is_body.
  unfold bind at 1, self at 1, gets at 1. unfold enough_known in Hs. rewrite Hs.
  unfold bind at 1.
  destruct (when (negb (running (_learning_task (me w)))) _ w) as [[[]|e] w0] eqn:E.
  2: { exfalso. by run E. }
  simpl in Hp. unfold bind at 1. unfold round_on_this_thread in Hp. rewrite Hp.
  unfold bind, maya_now, self, gets. simpl.
  destruct (_ >? _)%Z; [|done].
  by destruct (running (_learning_task (me w1))).
Qed.

Lemma number_body_returns n timeout learn start sr w r w' :
  block_until_number_of_known_nodes_is_body n timeout learn start sr w
  = (Ok (Some r), w') ->
  r = true /\ enough_known n w' = true /\ enough_known n w = true.
Proof.
  intros Hb. unfold block_until_number_of_known_nodes_is_body in Hb.
  unfold enough_known. run Hb; done.
Qed.

(** The world after the warning of a poll: the line is logged when the
    learning loop is not running. *)
Definition after_warning (w : World) : World :=
  if running (_learning_task (me w)) then w
  else set_stdout
         (stdout w
          ++ [(Warn, "Blocking to learn about nodes, but learning loop isn't running.")])
         w.

Lemma when_not_running w :
  when (negb (running (_learning_task (me w))))
    (sendMessage Warn "Blocking to learn about nodes, but learning loop isn't running.") w
  = (Ok tt, after_warning w).
Proof. unfold after_warning. by destruct (running (_learning_task (me w))). Qed.

Lemma timedelta_seconds_0 w : timedelta_seconds (clock (after_warning w) - clock w) = 0%Z.
Proof.
  unfold after_warning. destruct (running (_learning_task (me w))); simpl;
    by rewrite Z.sub_diag.
Qed.

(** X14: A call of [block_until_number_of_known_nodes_is], from its start.
    When the learner knows the number of nodes asked for, the call returns
    [True] at once and nothing has changed.  Otherwise (with a timeout that
    is not negative) the first poll warns if the learning loop is not
    running and sleeps; at the second poll, in the world the sleep left, the
    call returns [True] if the nodes are known by then, and if they are not
    it raises [NotEnoughTeachers] when [(maya.now() - start).seconds], the
    seconds of the elapsed time within its last day, exceed the timeout.
    With the round on the waiting thread, a [ReadTimeout] or a
    [ConnectTimeout] of that round is logged and the wait goes on as
    before. *)
Theorem block_until_number_of_known_nodes_is_waits during_sleep sleeps n timeout w :
  (forall learn,
     enough_known n w = true ->
     block_until_number_of_known_nodes_is sleeps n timeout learn w = Some (Ok true, w))
  /\ (enough_known n w = false -> (0 <= timeout)%Z ->
      let w1 := during_sleep (after_warning w) in
      (enough_known n w1 = true ->
       exists w2,
         block_until_number_of_known_nodes_is (during_sleep :: sleeps) n timeout false w
         = Some (Ok true, w2)
         /\ me w2 = me w1)
      /\ (enough_known n w1 = false ->
          (timedelta_seconds (clock w1 - clock w) > timeout)%Z ->
          block_until_number_of_known_nodes_is (during_sleep :: sleeps) n timeout false w
          = Some (Raise NotEnoughTeachers, after_warning w1)))
  /\ (forall e w0,
        enough_known n w = false ->
        learn_from_teacher_node true (after_warning w) = (Raise e, w0) ->
        e = ReadTimeout \/ e = ConnectTimeout ->
        (timedelta_seconds (clock w0 - clock w) <= timeout)%Z ->
        let w1 :=
          during_sleep
            (set_stdout
               (stdout w0
                ++ [(Warn, "Teacher was unreachable.  No good way to handle this on the main thread.")])
               w0) in
        enough_known n w1 = true ->
        exists w2,
          block_until_number_of_known_nodes_is (during_sleep :: sleeps) n timeout true w
          = Some (Ok true, w2)
          /\ me w2 = me w1).
Proof.
  unfold block_until_number_of_known_nodes_is. split; [|split].
  - intros learn Hs.
    assert (block_until_number_of_known_nodes_is_body n timeout learn (clock w)
              (_learning_round (me w)) w = (Ok (Some true), w)) as E.
    { unfold block_until_number_of_known_nodes_is_body, bind, self, gets.
      unfold enough_known in Hs. simpl. rewrite Hs, Z.sub_diag. done. }
    destruct sleeps; simpl; by rewrite E.
  - intros Hs Ht. simpl.
    assert (block_until_number_of_known_nodes_is_body n timeout false (clock w)
              (_learning_round (me w)) w = (Ok None, after_warning w)) as E.
    { rewrite (number_body_polls n timeout false _ _ w (after_warning w) Hs)
        by (by rewrite when_not_running).
      rewrite timedelta_seconds_0.
      destruct (Z.gtb_spec 0 timeout); [lia|done]. }
    rewrite E. split.
    + intros Hs1.
      destruct (number_body_known n timeout false (clock w) (_learning_round (me w))
                  (during_sleep (after_warning w)) Hs1) as (w2 & E2 & Hme & _).
      exists w2. split; [|done]. destruct sleeps; simpl; by rewrite E2.
    + intros Hs1 Hgt.
      assert (block_until_number_of_known_nodes_is_body n timeout false (clock w)
                (_learning_round (me w)) (during_sleep (after_warning w))
              = (Raise NotEnoughTeachers, after_warning (during_sleep (after_warning w))))
        as E2.
      { rewrite (number_body_polls n timeout false _ _ _
                   (after_warning (during_sleep (after_warning w))) Hs1)
          by (by rewrite when_not_running).
        assert (clock (after_warning (during_sleep (after_warning w)))
                = clock (during_sleep (after_warning w))) as ->.
        { unfold after_warning at 1. by destruct (running _). }
        destruct (Z.gtb_spec
                    (timedelta_seconds (clock (during_sleep (after_warning w)) - clock w))
                    timeout); [done|lia]. }
      destruct sleeps; simpl; by rewrite E2.
  - intros e w0 Hs Hl He Hle. simpl. intros Hs1.
    assert (block_until_number_of_known_nodes_is_body n timeout true (clock w)
              (_learning_round (me w)) w
            = (Ok None,
               set_stdout
                 (stdout w0
                  ++ [(Warn, "Teacher was unreachable.  No good way to handle this on the main thread.")])
                 w0)) as E.
    { rewrite (number_body_polls n timeout true _ _ w
                 (set_stdout
                    (stdout w0
                     ++ [(Warn, "Teacher was unreachable.  No good way to handle this on the main thread.")])
                    w0) Hs).
      - simpl. destruct (Z.gtb_spec (timedelta_seconds (clock w0 - clock w)) timeout);
          [lia|done].
      - rewrite when_not_running. simpl.
        unfold round_on_this_thread, when, try_except. unfold bind at 1. rewrite Hl.
        by destruct He as [-> | ->]. }
    rewrite E.
    match goal with
    | |- context [during_sleep ?w1] =>
        destruct (number_body_known n timeout true (clock w) (_learning_round (me w))
                    (during_sleep w1) Hs1) as (w2 & E2 & Hme & _)
    end.
    exists w2. split; [|done]. destruct sleeps; simpl; by rewrite E2.
Qed.

(** X15: Every answer of [block_until_number_of_known_nodes_is] is [True], and
    the learner then knows the number of nodes asked for: however the other
    threads moved during the sleeps, the method does not return before that,
    it can only raise. *)
Theorem block_until_number_of_known_nodes_is_answers sleeps n timeout learn w r w' :
  block_until_number_of_known_nodes_is sleeps n timeout learn w = Some (Ok r, w') ->
  r = true /\ enough_known n w' = true.
Proof.
  unfold block_until_number_of_known_nodes_is.
  generalize (clock w) (_learning_round (me w)). intros start sr.
  revert w. induction sleeps as [|during_sleep sleeps IH]; intros w; simpl.
  - destruct (block_until_number_of_known_nodes_is_body _ _ _ _ _ _)
      as [[[r0|]|e] w0] eqn:E; try done.
    intros [= <- <-]. by apply number_body_returns in E as (?&?&?).
  - destruct (block_until_number_of_known_nodes_is_body _ _ _ _ _ _)
      as [[[r0|]|e] w0] eqn:E; try done.
    + intros [= <- <-]. by apply number_body_returns in E as (?&?&?).
    + apply IH.
Qed.

(** ** A timeout of a day *)

Lemma timedelta_seconds_bound delta : (0 <= timedelta_seconds delta <= 86399)%Z.
Proof. unfold timedelta_seconds. pose proof (Z.mod_pos_bound delta 86400). lia. Qed.

Lemma number_body_no_timeout n timeout start sr w :
  (86399 <= timeout)%Z ->
  exists w',
    block_until_number_of_known_nodes_is_body n timeout false start sr w = (Ok (Some true), w')
    \/ block_until_number_of_known_nodes_is_body n timeout false start sr w = (Ok None, w').
Proof.
  intros Ht. destruct (enough_known n w) eqn:Hs.
  - destruct (number_body_known n timeout false start sr w Hs) as (w' & E & _).
    exists w'. by left.
  - eexists. right.
    rewrite (number_body_polls n timeout false start sr w _ Hs eq_refl).
    pose proof (timedelta_seconds_bound
                  (clock (when (negb (running (_learning_task (me w))))
                            (sendMessage Warn "Blocking to learn about nodes, but learning loop isn't running.")
                            w).2 - start)).
    destruct (Z.gtb_spec (timedelta_seconds
                 (clock (when (negb (running (_learning_task (me w))))
                           (sendMessage Warn "Blocking to learn about nodes, but learning loop isn't running.")
                           w).2 - start)) timeout); [lia|done].
Qed.

Lemma specific_body_no_timeout addrs timeout allow start sr w :
  (86399 <= timeout)%Z ->
  exists r w',
    block_until_specific_nodes_are_known_body addrs timeout allow false start sr w = (Ok r, w')
    /\ r <> Some (returned_bool false).
Proof.
  intros Ht. destruct (_crashed (me w)) as [failure|] eqn:Hc.
  { rewrite (block_body_crashed _ _ _ _ _ _ _ _ Hc). by eexists _, _. }
  destruct (issubset addrs (entries (known_nodes (me w)))) eqn:Hs.
  { destruct (block_body_known addrs timeout allow false start sr w Hc Hs) as (w' & -> & _).
    by eexists _, _. }
  rewrite (block_body_polls addrs timeout allow false start sr w _ Hc Hs eq_refl).
  pose proof (timedelta_seconds_bound
                (clock (when (negb (running (_learning_task (me w))))
                          (sendMessage Warn "Blocking to learn about nodes, but learning loop isn't running.")
                          w).2 - start)).
  destruct (Z.gtb_spec (timedelta_seconds
               (clock (when (negb (running (_learning_task (me w))))
                         (sendMessage Warn "Blocking to learn about nodes, but learning loop isn't running.")
                         w).2 - start)) timeout); [lia|].
  by eexists _, _.
Qed.

(** X16: The timeouts compare [(maya.now() - start).seconds], the seconds of
    the elapsed time within its last day, a number up to 86399.  So a timeout
    of 86399 seconds or more never expires: without rounds on the waiting
    thread, [block_until_number_of_known_nodes_is] never raises and
    [block_until_specific_nodes_are_known] neither raises nor returns [False],
    however long the sleeps take; they answer when the nodes are known (or the
    failure is recorded) and poll on otherwise. *)
Theorem blocking_timeout_of_a_day_never_expires sleeps timeout w :
  (86399 <= timeout)%Z ->
  (forall n,
     block_until_number_of_known_nodes_is sleeps n timeout false w = None
     \/ exists w', block_until_number_of_known_nodes_is sleeps n timeout false w
                   = Some (Ok true, w'))
  /\ (forall addrs allow,
        block_until_specific_nodes_are_known sleeps addrs timeout allow false w = None
        \/ exists r w', block_until_specific_nodes_are_known sleeps addrs timeout allow false w
                        = Some (Ok r, w')
                        /\ r <> returned_bool false).
Proof.
  intros Ht. split.
  - intros n. unfold block_until_number_of_known_nodes_is.
    generalize (clock w) (_learning_round (me w)). intros start sr.
    revert w. induction sleeps as [|during_sleep sleeps IH]; intros w; simpl.
    + destruct (number_body_no_timeout n timeout start sr w Ht) as (w' & [-> | ->]).
      * right. by eexists.
      * by left.
    + destruct (number_body_no_timeout n timeout start sr w Ht) as (w' & [-> | ->]).
      * right. by eexists.
      * apply IH.
  - intros addrs allow. unfold block_until_specific_nodes_are_known.
    generalize (clock w) (_learning_round (me w)). intros start sr.
    revert w. induction sleeps as [|during_sleep sleeps IH]; intros w; simpl.
    + destruct (specific_body_no_timeout addrs timeout allow start sr w Ht)
        as (r & w' & -> & Hr).
      destruct r as [r|]; [|by left]. right. exists r, w'. split; [done|]. congruence.
    + destruct (specific_body_no_timeout addrs timeout allow start sr w Ht)
        as (r & w' & -> & Hr).
      destruct r as [r|]; [|apply IH]. right. exists r, w'. split; [done|]. congruence.
Qed.

(** ** Seeding and [done_seeding] *)


(** * The fleet stays keyed by address *)

(** A world is well formed when no two entries of [known_nodes] share a key,
    every entry holds an allocated object under the checksum address of that
    object, and the node storage holds allocated objects. *)
Definition allocated (w : World) (o : nat) : Prop := (o < next_oid w)%nat.

Definition fleet_ok (w : World) : Prop :=
  NoDup (dict_keys (entries (known_nodes (me w))))
  /\ (forall k o,
        (k, o) ∈ entries (known_nodes (me w)) ->
        checksum_public_address (heap w o) = k /\ allocated w o)
  /\ Forall (allocated w) (node_storage w).

(** [keeps_fleet_given l]: a computation that starts in a well-formed world
    where the objects [l] are allocated leaves a well-formed world, with
    every allocated object still allocated. *)
Definition keeps_fleet_given (l : list nat) : relation World :=
  fun w w' =>
    Forall (allocated w) l -> fleet_ok w ->
    fleet_ok w' /\ (next_oid w <= next_oid w')%nat.

Abbreviation keeps_fleet := (keeps_fleet_given []).

Instance keeps_fleet_given_PreOrder l : PreOrder (keeps_fleet_given l).
Proof.
  split.
  - intros w _ Hok. by split.
  - intros x y z Hxy Hyz Hall Hok.
    destruct (Hxy Hall Hok) as [Hy Hle].
    destruct Hyz as [Hz Hle']; [|done|split; [done|lia]].
    eapply Forall_impl; [exact Hall|]. unfold allocated. simpl. intros. lia.
Qed.

Lemma keeps_fleet_given_weaken l l' w w' :
  (forall o, o ∈ l -> o ∈ l') -> keeps_fleet_given l w w' -> keeps_fleet_given l' w w'.
Proof.
  intros Hsub Hk Hall Hok. apply Hk; [|done].
  apply Forall_forall. intros o Ho. eapply Forall_forall; [exact Hall|]. by apply Hsub.
Qed.

Lemma respects_keeps_fleet_given {A} l (m : M A) :
  respects keeps_fleet m -> respects (keeps_fleet_given l) m.
Proof.
  intros Hm w. apply (keeps_fleet_given_weaken []); [|apply Hm].
  intros o Ho. by apply elem_of_nil in Ho.
Qed.

Lemma fleet_ok_same w w' :
  (forall o, checksum_public_address (heap w' o) = checksum_public_address (heap w o)) ->
  entries (known_nodes (me w')) = entries (known_nodes (me w)) ->
  next_oid w' = next_oid w -> node_storage w' = node_storage w ->
  fleet_ok w -> fleet_ok w'.
Proof.
  intros Ha He Hn Hs (Hnd & Hk & Hst). unfold fleet_ok, allocated in *.
  rewrite He, Hn, Hs. split; [done|]. split; [|done].
  intros k o Hin. rewrite Ha. by apply Hk.
Qed.

Lemma touches_only_keeps_fleet node l w w' : touches_only node w w' -> keeps_fleet_given l w w'.
Proof.
  intros T _ Hok. pose proof (fun o => touches_only_address node w w' o T) as Ha.
  destruct T as (Hme & Hn & _ & Hs & _). split; [|lia].
  apply (fleet_ok_same w); [done|by rewrite Hme|done..].
Qed.

Lemma verifies_keeps_fleet node l w w' : verifies node w w' -> keeps_fleet_given l w w'.
Proof.
  intros T _ Hok. pose proof (fun o => verifies_address node w w' o T) as Ha.
  destruct T as (Hme & Hn & _ & Hs & _). split; [|lia].
  apply (fleet_ok_same w); [done|by rewrite Hme|done..].
Qed.

Lemma respects_touches_only_keeps_fleet {A} l x (m : M A) :
  respects (touches_only x) m -> respects (keeps_fleet_given l) m.
Proof. intros Hm w. apply (touches_only_keeps_fleet x), Hm. Qed.
Hint Resolve respects_touches_only_keeps_fleet : frame.

Lemma verify_node_keeps_fleet l x path accept force :
  respects (keeps_fleet_given l) (verify_node x path accept force).
Proof. intros w. apply (verifies_keeps_fleet x), verify_node_verifies. Qed.
Hint Resolve verify_node_keeps_fleet : frame.

(** The single writes that leave the entries alone. *)
Ltac fleet_leaf :=
  unfold keeps_fleet_given, fleet_ok, allocated; simpl;
  intros Hall (Hnd & Hk & Hs); (split; [|lia]); (split; [done|]); split;
  [ intros k o Hin; destruct (Hk k o Hin) as [Ha Hlt];
    repeat match goal with
           | |- context [Nat.eqb ?a ?b] => destruct (Nat.eqb_spec a b); simplify_eq
           end;
    try lia; (split; [done|lia])
  | eapply Forall_impl; [exact Hs|]; simpl; intros; lia ].

Ltac fleet_frame := frame_with ltac:(fleet_leaf).

Lemma dict_set_elem {V} k (v : V) d k' v' :
  (k', v') ∈ dict_set k v d -> (k' = k /\ v' = v) \/ (k', v') ∈ d.
Proof.
  induction d as [|[k0 v0] d IH]; simpl.
  - intros [= -> ->]%list_elem_of_singleton. by left.
  - destruct (String.eqb_spec k k0) as [->|Hne].
    + intros [[= -> ->]|Hin]%elem_of_cons; [by left|right; by right].
    + intros [[= -> ->]|Hin]%elem_of_cons; [right; by left|].
      destruct (IH Hin) as [?|?]; [by left|right; by right].
Qed.

Lemma remember_node_store_storage node upd w :
  node_storage (remember_node_store node upd w).2 = node_storage w
  \/ node_storage (remember_node_store node upd w).2 = (node_storage w ++ [node])%list.
Proof.
  destruct (remember_node_store node upd w) as [r w'] eqn:E. simpl.
  unfold remember_node_store, write_node_metadata, node_storage_save in E.
  run E; simpl; rewrite ?fold_left_preserved by done; simpl; auto.
Qed.

Lemma remember_node_store_keeps_fleet node upd :
  respects (keeps_fleet_given [node]) (remember_node_store node upd).
Proof.
  intros w Hall (Hnd & Hk & Hs).
  apply Forall_cons in Hall as [Hnode _].
  destruct (remember_node_store_spec node upd w) as (w' & E & Hst).
  pose proof (remember_node_store_storage node upd w) as Hsto.
  rewrite E in *. simpl in *.
  destruct Hst as (Hkn & Hh & Hn & _).
  split; [|lia]. unfold fleet_ok, allocated. rewrite Hkn, Hh, Hn. simpl.
  split; [by apply dict_set_NoDup|]. split.
  - intros k o [[-> ->]|Hin]%dict_set_elem; [done|by apply Hk].
  - destruct Hsto as [-> | ->]; [done|].
    apply Forall_app. split; [done|]. by apply Forall_singleton.
Qed.
Hint Resolve remember_node_store_keeps_fleet : frame.

Lemma remember_node_keeps_fleet node force upd :
  respects (keeps_fleet_given [node]) (remember_node node force upd).
Proof. unfold remember_node, remember_node_handlers. fleet_frame. Qed.
Hint Resolve remember_node_keeps_fleet : frame.

Lemma respects_for_each_given {A} (f : A -> nat) (l : list A) (body : A -> M unit) :
  (forall x, respects (keeps_fleet_given [f x]) (body x)) ->
  respects (keeps_fleet_given (map f l)) (for_each l body).
Proof.
  intros Hb. induction l as [|x l IH]; simpl.
  - apply respects_ret. tc_solve.
  - apply respects_bind; [tc_solve| |intros _].
    + intros w. apply (keeps_fleet_given_weaken [f x]); [|apply Hb].
      intros o ->%list_elem_of_singleton. by left.
    + intros w. apply (keeps_fleet_given_weaken (map f l)); [|apply IH].
      intros o Ho. by right.
Qed.

Lemma read_nodes_from_storage_keeps_fleet l :
  respects (keeps_fleet_given l) read_nodes_from_storage.
Proof.
  apply respects_keeps_fleet_given. intros w _ Hok.
  unfold read_nodes_from_storage.
  unfold bind at 1, self at 1, gets at 1.
  unfold bind at 1, node_storage_all at 1, gets at 1.
  pose proof (respects_for_each_given (fun node : nat => node) (node_storage w)
                (fun node => do _ <- remember_node node false true; ret tt)) as Hf.
  rewrite map_id in Hf. apply Hf; [|by apply Hok|done].
  intros x. fleet_frame.
Qed.
Hint Resolve read_nodes_from_storage_keeps_fleet : frame.

(** A computation whose result names objects it has allocated, followed by
    one that relies on them. *)
Lemma respects_bind_given {A B} (f : A -> list nat) (m : M A) (k : A -> M B) :
  respects keeps_fleet m ->
  (forall w a w', m w = (Ok a, w') -> Forall (allocated w') (f a)) ->
  (forall a, respects (keeps_fleet_given (f a)) (k a)) ->
  respects keeps_fleet (bind m k).
Proof.
  intros Hm Hf Hk w _ Hok. unfold bind.
  specialize (Hm w). specialize (Hf w).
  destruct (m w) as [[a|e] w1]; simpl in *; [|by apply Hm].
  destruct (Hm ltac:(done) Hok) as [Hok1 Hle].
  pose proof (Hf a w1 eq_refl) as Hall.
  destruct (Hk a w1 Hall Hok1) as [Hok2 Hle2]. split; [done|lia].
Qed.

Lemma call_from_seednode_metadata_keeps_fleet md dir timeout fed :
  respects keeps_fleet (call_from_seednode_metadata md dir timeout fed).
Proof.
  unfold call_from_seednode_metadata. apply respects_bind; [tc_solve| |intros ?].
  - intros w. destruct (from_seednode_metadata _ _ _ _ _) as [r e]. simpl. fleet_leaf.
  - fleet_frame.
Qed.

Lemma call_from_seednode_metadata_allocated md dir timeout fed w a w' :
  call_from_seednode_metadata md dir timeout fed w = (Ok a, w') ->
  Forall (allocated w') (match a with Some o => [o] | None => [] end).
Proof.
  unfold call_from_seednode_metadata, bind.
  destruct (from_seednode_metadata _ _ _ _ _) as [[[n|]|e] e']; simpl; try done.
  - intros [= <- <-]. apply Forall_singleton. unfold allocated. simpl. lia.
  - by intros [= <- <-].
Qed.

Lemma __attempt_seednode_learning_keeps_fleet l timeout md :
  respects (keeps_fleet_given l) (__attempt_seednode_learning timeout md).
Proof.
  apply respects_keeps_fleet_given. unfold __attempt_seednode_learning.
  apply respects_bind; [tc_solve|fleet_frame|intros _].
  apply respects_bind; [tc_solve|fleet_frame|intros s].
  apply (respects_bind_given (fun a : option nat => match a with Some o => [o] | None => [] end)).
  - apply call_from_seednode_metadata_keeps_fleet.
  - apply call_from_seednode_metadata_allocated.
  - intros [seed_node|]; fleet_frame.
Qed.
Hint Resolve __attempt_seednode_learning_keeps_fleet : frame.

Lemma load_seednodes_keeps_fleet l read attempts rate timeout :
  respects (keeps_fleet_given l) (load_seednodes read attempts rate timeout).
Proof. unfold load_seednodes. fleet_frame. Qed.
Hint Resolve load_seednodes_keeps_fleet : frame.

Lemma shuffled_known_nodes_keeps_fleet l : respects (keeps_fleet_given l) shuffled_known_nodes.
Proof.
  unfold shuffled_known_nodes. apply respects_bind; [tc_solve|fleet_frame|intros s].
  apply respects_bind; [tc_solve| |intros ?; fleet_frame].
  intros w. destruct (shuffle _ _) as [nodes e]. simpl. fleet_leaf.
Qed.
Hint Resolve shuffled_known_nodes_keeps_fleet : frame.

Lemma select_teacher_nodes_keeps_fleet l : respects (keeps_fleet_given l) select_teacher_nodes.
Proof. unfold select_teacher_nodes. fleet_frame. Qed.
Hint Resolve select_teacher_nodes_keeps_fleet : frame.

Lemma cycle_teacher_node_keeps_fleet l : respects (keeps_fleet_given l) cycle_teacher_node.
Proof. unfold cycle_teacher_node. fleet_frame. Qed.
Hint Resolve cycle_teacher_node_keeps_fleet : frame.

Lemma current_teacher_node_keeps_fleet l cycle :
  respects (keeps_fleet_given l) (current_teacher_node cycle).
Proof. unfold current_teacher_node. fleet_frame. Qed.
Hint Resolve current_teacher_node_keeps_fleet : frame.

Lemma _adjust_learning_keeps_fleet l node_list :
  respects (keeps_fleet_given l) (_adjust_learning node_list).
Proof. unfold _adjust_learning. fleet_frame. Qed.
Hint Resolve _adjust_learning_keeps_fleet : frame.

Lemma learn_from_teacher_node_body_keeps_fleet eager teacher node new_nodes :
  respects (keeps_fleet_given [node])
    (learn_from_teacher_node_body eager teacher node new_nodes).
Proof. unfold learn_from_teacher_node_body. fleet_frame. Qed.

Lemma learn_from_teacher_node_loop_keeps_fleet eager teacher node_list new_nodes :
  respects (keeps_fleet_given node_list)
    (learn_from_teacher_node_loop eager teacher node_list new_nodes).
Proof.
  revert new_nodes. induction node_list as [|x node_list IH]; intros new_nodes; simpl.
  - fleet_frame.
  - apply respects_bind; [tc_solve| |intros nn].
    + intros w. apply (keeps_fleet_given_weaken [x]);
        [|apply learn_from_teacher_node_body_keeps_fleet].
      intros o ->%list_elem_of_singleton. by left.
    + intros w. apply (keeps_fleet_given_weaken node_list); [|apply IH].
      intros o Ho. by right.
Qed.
Hint Resolve learn_from_teacher_node_loop_keeps_fleet : frame.

Lemma learn_from_teacher_node_batch_keeps_fleet eager teacher node_list :
  respects (keeps_fleet_given node_list)
    (learn_from_teacher_node_batch eager teacher node_list).
Proof. unfold learn_from_teacher_node_batch. fleet_frame. Qed.

Lemma allocate_all_keeps_fleet l : respects keeps_fleet (allocate_all l).
Proof.
  induction l as [|n l IH]; simpl; [fleet_frame|].
  apply respects_bind; [tc_solve|fleet_frame|intros ?].
  apply respects_bind; [tc_solve|apply IH|intros ?]. fleet_frame.
Qed.

Lemma allocate_all_allocated l w a w' :
  allocate_all l w = (Ok a, w') ->
  (next_oid w <= next_oid w')%nat /\ Forall (allocated w') a.
Proof.
  revert w a w'. induction l as [|n l IH]; intros w a w'; simpl.
  - intros [= <- <-]. by split.
  - intros Ha. run Ha. unfold allocate in Hm. simplify_eq.
    destruct (IH _ _ _ Hm0) as [Hle Hall]. simpl in Hle.
    split; [lia|]. apply Forall_cons. split; [|done]. unfold allocated. lia.
Qed.

Lemma learn_from_teacher_node_keeps_fleet eager :
  respects keeps_fleet (learn_from_teacher_node eager).
Proof.
  unfold learn_from_teacher_node.
  apply respects_bind; [tc_solve|fleet_frame|intros _].
  apply respects_bind; [tc_solve|fleet_frame|intros [teacher|]]; [|fleet_frame].
  apply respects_bind; [tc_solve|fleet_frame|intros n].
  apply respects_bind; [tc_solve|fleet_frame|intros s].
  apply respects_bind; [tc_solve|fleet_frame|intros [response|]]; [|fleet_frame].
  destruct (negb _); [fleet_frame|].
  apply respects_bind; [tc_solve|fleet_frame|intros [signature nodes]].
  apply respects_bind; [tc_solve|fleet_frame|intros parsed].
  apply (respects_bind_given (fun a : list nat => a)).
  - apply allocate_all_keeps_fleet.
  - intros w a w' Ha. by apply allocate_all_allocated in Ha as [_ ?].
  - intros node_list. apply learn_from_teacher_node_batch_keeps_fleet.
Qed.

Lemma fleet_ok_addresses w :
  fleet_ok w ->
  map checksum_public_address (records w) = dict_keys (entries (known_nodes (me w))).
Proof.
  intros (_ & Hk & _). unfold records, dict_values, dict_keys.
  rewrite !map_map.
  induction (entries (known_nodes (me w))) as [|[k o] d IH]; simpl; [done|].
  rewrite IH.
  - f_equal. apply Hk. by left.
  - intros k' o' Hin. apply Hk. by right.
Qed.

(** X18: The well-formedness of the fleet is an invariant of the learner.  It
    holds when nothing is known and nothing is stored; [remember_node] on an
    allocated object, [load_seednodes] and a whole learning round keep it,
    whether they return or raise.  In a well-formed world no two known records
    carry the same checksum address, and a lookup in [known_nodes] gives a
    node of the address looked up. *)
Theorem learning_round_keeps_fleet :
  (forall w,
     entries (known_nodes (me w)) = [] -> node_storage w = [] -> fleet_ok w)
  /\ (forall node force upd w,
        fleet_ok w -> allocated w node -> fleet_ok (remember_node node force upd w).2)
  /\ (forall read attempts rate timeout w,
        fleet_ok w -> fleet_ok (load_seednodes read attempts rate timeout w).2)
  /\ (forall eager w, fleet_ok w -> fleet_ok (learn_from_teacher_node eager w).2)
  /\ (forall w,
        fleet_ok w ->
        NoDup (map checksum_public_address (records w))
        /\ forall k o,
             dict_get k (entries (known_nodes (me w))) = Some o ->
             checksum_public_address (heap w o) = k).
Proof.
  split; [|split; [|split; [|split]]].
  - intros w He Hs. unfold fleet_ok. rewrite He, Hs. split; [constructor|].
    split; [|constructor]. intros k o Hin. by apply elem_of_nil in Hin.
  - intros node force upd w Hok Hnode.
    apply (remember_node_keeps_fleet node force upd w); [|done].
    by apply Forall_singleton.
  - intros read attempts rate timeout w Hok.
    by apply (load_seednodes_keeps_fleet [] read attempts rate timeout w).
  - intros eager w Hok. by apply (learn_from_teacher_node_keeps_fleet eager w).
  - intros w Hok. split.
    + rewrite fleet_ok_addresses by done. apply Hok.
    + intros k o Hget. destruct Hok as (_ & Hk & _). apply Hk.
      clear Hk. induction (entries (known_nodes (me w))) as [|[k' o'] d IH]; [done|].
      simpl in Hget. destruct (String.eqb_spec k k') as [->|Hne].
      * simplify_eq. by left.
      * right. by apply IH.
Qed.

(** * The seed nodes of [VerifiableNode] *)

Lemma verify_node_preserves_disk node path accept force :
  preserves disk (verify_node node path accept force).
Proof.
  pose proof (validate_metadata_local disk (fun _ _ => eq_refl)).
  unfold verify_node. frame.
Qed.

Section SeedingProperties.
Context (get_certificate : Env -> string -> Z -> outcome Certificate * Env).
Context (from_bytes : bytes -> bool -> outcome VerifiableNode).

Lemma call_get_certificate_inv host port w r w' :
  call_get_certificate get_certificate host port w = (r, w') ->
  exists e, get_certificate (env w) host port = (r, e) /\ w' = set_env e w.
Proof.
  unfold call_get_certificate. destruct (get_certificate _ _ _) as [r0 e].
  intros [= <- <-]. by exists e.
Qed.

Lemma from_rest_url_inv host port path fed w o w' :
  from_rest_url from_bytes host port path fed w = (Ok o, w') ->
  o = next_oid w /\ next_oid w' = S o /\ me w' = me w /\ disk w' = disk w
  /\ requests_sent w' = (requests_sent w ++ [node_information_request host port path])%list
  /\ (forall o', o' <> o -> heap w' o' = heap w o')
  /\ exists response e stranger,
       node_information (env w) host port path = (Ok response, e)
       /\ status_code response = 200%Z
       /\ from_bytes (content response) fed = Ok stranger
       /\ heap w' o = as_constructed stranger.
Proof.
  intros Hr. unfold from_rest_url in Hr. run Hr.
  unfold allocate in Hk0. simplify_eq. simpl. rewrite Nat.eqb_refl.
  repeat split; try done.
  - intros o' Hne. by destruct (Nat.eqb_spec o' (next_oid w)).
  - apply negb_false_iff, Z.eqb_eq in Hb. by eexists _, _, _.
Qed.

(** X19: What [from_seed_and_stake_info] hands out.  Whenever it returns, it
    has fetched the certificate of the host with [get_certificate], the host
    named on that certificate has answered [node_information] with status
    200, and the node returned is a new object with the attributes of the
    node that [from_bytes] builds, with [federated_only=True], from that
    answer; it is verified; its checksum address is the one that was asked
    for, and without an address no minimum stake was asked for either; the
    certificate that was fetched is on disk under the name of the address;
    the learner is untouched.  When the host answers with a node of another
    address than the one asked for, the call raises [SuspiciousActivity] with
    that node unverified: only the request of [from_rest_url] was sent. *)
Theorem from_seed_and_stake_info_checks host directory fed port address stake w :
  let path := path_join directory (format_address address ++ ".pem") in
  (forall o w',
     from_seed_and_stake_info get_certificate from_bytes host directory fed port address
       stake w = (Ok o, w') ->
     exists certificate e response e' stranger,
       get_certificate (env w) host port = (Ok certificate, e)
       /\ node_information e (common_name certificate) port (Some path) = (Ok response, e')
       /\ status_code response = 200%Z
       /\ from_bytes (content response) true = Ok stranger
       /\ o = next_oid w /\ next_oid w' = S o
       /\ identity_of (heap w' o) = identity_of stranger
       /\ _verified_node (heap w' o) = true
       /\ (truthy address = true -> address = Some (checksum_public_address stranger))
       /\ (truthy address = false -> (stake <= 0)%Z)
       /\ dict_get path (disk w') = Some certificate
       /\ me w' = me w)
  /\ (forall certificate e response e' stranger,
        get_certificate (env w) host port = (Ok certificate, e) ->
        node_information e (common_name certificate) port (Some path) = (Ok response, e') ->
        status_code response = 200%Z ->
        from_bytes (content response) true = Ok stranger ->
        truthy address = true ->
        address <> Some (checksum_public_address stranger) ->
        let r := from_seed_and_stake_info get_certificate from_bytes host directory fed port
                   address stake w in
        r.1 = Raise SuspiciousActivity
        /\ _verified_node (heap r.2 (next_oid w)) = false
        /\ requests_sent r.2
           = (requests_sent w
              ++ [node_information_request (common_name certificate) port (Some path)])%list).
Proof.
  simpl. split.
  - intros o w' Hr. unfold from_seed_and_stake_info, _write_tls_certificate in Hr.
    run Hr.
    all: match goal with
         | Hc : call_get_certificate _ _ _ _ = _ |- _ =>
             apply call_get_certificate_inv in Hc as (e1 & Hcert & ->)
         end.
    all: match goal with
         | Hu : from_rest_url _ _ _ _ _ _ = _ |- _ =>
             apply from_rest_url_inv in Hu
               as (-> & Hnext & Hme & Hdisk & Hreq & Hother & response & e2 & stranger
                   & Hnet & Hstatus & Hbytes & Hnew)
         end.
    all: simpl in *.
    all: try match goal with
         | Hh : (if isa_InvalidNode ?x then _ else _) = Some ?k |- _ =>
             destruct (isa_InvalidNode x); simplify_eq
         end.
    all: match goal with
         | Hv : verify_node _ _ _ _ _ = (Ok _, _) |- _ =>
             pose proof (respects_run (verifies _) _ _ _ _ (verify_node_verifies _ _ _ _) Hv)
               as (Hme' & Hnext' & _ & _ & _ & _ & Hid);
             pose proof (preserves_run _ _ _ _ _ (verify_node_preserves_disk _ _ _ _) Hv)
               as Hdisk';
             apply verify_node_inv in Hv
               as [(Hv & _)|(_ & [[[? ?] _]|(_ & Hverified & _)])];
             [rewrite Hnew in Hv; done|done|]
         end.
    all: specialize (Hid (next_oid w)).
    all: match goal with
         | Hc : get_certificate _ _ _ = (Ok ?c, ?e1), Hn : node_information _ _ _ _ = (Ok ?r, ?e2),
           Hf : from_bytes _ _ = Ok ?n |- _ =>
             exists c, e1, r, e2, n
         end.
    all: rewrite Hnew in *.
    all: split; [done|]; split; [done|]; split; [done|]; split; [done|].
    all: split; [done|]; split; [congruence|]; split; [exact Hid|]; split; [done|].
    all: split; [|split; [|split; [|congruence]]].
    all: try (intros; congruence).
    all: try (rewrite Hdisk', Hdisk; apply dict_get_set).
    + intros _. destruct address as [a0|]; [|done]. simpl in Hb0.
      apply negb_false_iff, String.eqb_eq in Hb0. by simplify_eq.
    + intros _. lia.
  - intros certificate e response e' stranger Hcert Hnet Hstatus Hbytes Htruthy Hne.
    simpl.
    unfold from_seed_and_stake_info, call_get_certificate, _write_tls_certificate,
      from_rest_url, call_node_information, allocate.
    unfold bind, gets, modify, lift_outcome, ret, raise, deref.
    simpl. rewrite Hcert. simpl. rewrite Hnet. simpl. rewrite Hstatus. simpl.
    rewrite Hbytes. simpl. rewrite Nat.eqb_refl, Htruthy. simpl.
    destruct address as [a0|]; [|done]. simpl.
    destruct (String.eqb_spec a0 (checksum_public_address stranger)) as [->|_]; [done|].
    simpl. by rewrite Nat.eqb_refl.
Qed.
End SeedingProperties.

End Properties.

(** * The claims on the small network *)

Section Checks.
Local Existing Instance demo_network.

(** C2 (checksum freshness), the failing run: [remember_node] with
    [update_fleet_state] enabled stores the good node and then raises
    [AttributeError] on [update_fleet_stfate]; the fleet state still has the
    checksum it had before ([NO_KNOWN_NODES]), while [update_fleet_state]
    on the same members gives a digest. *)
Theorem remember_node_leaves_checksum_stale :
  (remember_node 1 false true demo_start).1 = Raise (AttributeError "update_fleet_stfate")
  /\ entries (known_nodes (me (remember_node 1 false true demo_start).2))
     = [("0xA", 0); ("0xB", 1)]
  /\ _checksum (known_nodes (me (remember_node 1 false true demo_start).2)) = None
  /\ _nickname (known_nodes (me (remember_node 1 false true demo_start).2)) = None
  /\ checksum_after_update (remember_node 1 false true demo_start).2 = Some "0a01".
Proof. vm_compute. done. Qed.

(** C10 (admission contract), the failing runs: with the default
    [update_fleet_state] the good node is stored and the call raises
    [AttributeError] where [True] is due; a connection error on a node of an
    identity not yet known raises [UnboundLocalError] where [False] is
    due.  Without [update_fleet_state] the same node is stored and the answer
    is [True]. *)
Theorem remember_node_admission_contract_broken :
  (remember_node 1 false true demo_start).1 = Raise (AttributeError "update_fleet_stfate")
  /\ dict_get "0xB" (entries (known_nodes (me (remember_node 1 false true demo_start).2)))
     = Some 1
  /\ (remember_node 4 false true demo_start).1
     = Raise (UnboundLocalError "already_known_node")
  /\ (remember_node 1 false false demo_start).1 = Ok true.
Proof. vm_compute. done. Qed.

(** C4 (fault containment), the failing run: the teacher answers with the
    forged node and then the good node.  The lazy round warns about the
    forged node and goes on to [remember_node] on it, where [verify_node]
    raises [InvalidNode] again: the round ends with that exception, the good
    node was never looked at and [known_nodes] holds the teacher alone. *)
Theorem learning_round_aborted_by_invalid_candidate :
  (learn_from_teacher_node false demo_start).1 = Raise InvalidNode
  /\ (Warn, "Suspicious Activity: Discovered node with bad signature.")
     ∈ stdout (learn_from_teacher_node false demo_start).2
  /\ entries (known_nodes (me (learn_from_teacher_node false demo_start).2))
     = [("0xA", 0)]
  /\ (remember_node 1 false false demo_start).1 = Ok true.
Proof.
  split; [by vm_compute|]. split; [|by vm_compute].
  apply list_elem_of_In. vm_compute. tauto.
Qed.

(** C8 on the good node after its verification. *)
Lemma verify_node_idempotent_witness :
  _verified_node (heap demo_verified 1) = true
  /\ verify_node 1 (Some "/certs/0xB.pem") true false demo_verified
     = (Ok (Some true), demo_verified)
  /\ requests_sent (verify_node 1 (Some "/certs/0xB.pem") true false demo_verified).2
     = requests_sent demo_verified.
Proof.
  split; [reflexivity|].
  apply (verify_node_idempotent 1 (Some "/certs/0xB.pem") true demo_verified).
  reflexivity.
Defined.

(** C1 on the learner that knows the good node (timestamp 100): the older
    advertisement (timestamp 50, object 6) is rejected, the newer one
    (timestamp 200, object 5) takes the place of the stored record. *)
Lemma remember_node_stale_update_witness :
  ((remember_node 6 false true demo_knows_good).1 = Ok false
   /\ known_nodes (me (remember_node 6 false true demo_knows_good).2)
      = known_nodes (me demo_knows_good))
  /\ (entries (known_nodes (me (remember_node 5 false true demo_knows_good).2))
      = dict_set (checksum_public_address (heap demo_knows_good 5)) 5
          (entries (known_nodes (me demo_knows_good)))
      /\ dict_get (checksum_public_address (heap demo_knows_good 5))
           (entries (known_nodes (me (remember_node 5 false true demo_knows_good).2)))
         = Some 5).
Proof.
  split.
  - apply (proj1 (remember_node_stale_update 6 1 false true demo_knows_good 50 100
                    eq_refl eq_refl eq_refl)).
    lia.
  - apply (proj2 (remember_node_stale_update 5 1 false true demo_knows_good 200 100
                    eq_refl eq_refl eq_refl))
      with (w1 := (save_certificate_to_disk 5 "/certs" true demo_knows_good).2)
           (v := None)
           (w2 := (verify_node 5 (Some "/certs/0xB.pem") true false
                     (save_certificate_to_disk 5 "/certs" true demo_knows_good).2).2).
    + lia.
    + reflexivity.
    + reflexivity.
    + reflexivity.
Defined.

(** C5 on two fleets that hold the teacher and the good node in the two
    orders. *)
Lemma checksum_order_independent_witness :
  checksum_after_update demo_knows_good = checksum_after_update demo_knows_good_reordered
  /\ checksum_after_update demo_knows_good = Some "0a01".
Proof.
  split; [|reflexivity].
  apply (proj2 checksum_order_independent demo_knows_good demo_knows_good_reordered
           [0; 1] [1; 0]).
  - reflexivity.
  - vm_compute. apply NoDup_cons. split.
    + intros Hin. apply list_elem_of_In in Hin. simpl in Hin.
      destruct Hin as [Hin|[]]. discriminate Hin.
    + apply NoDup_singleton.
  - apply Permutation_swap.
  - reflexivity.
  - reflexivity.
Defined.

End Checks.

(** * The further properties on the small network *)

Section MoreChecks.
Local Existing Instance demo_network.

(** The good node passes [validate_metadata] in a federation, and its
    verification goes through. *)
Lemma verify_node_establishes_witness :
  (verified_interface (heap (validate_metadata 1 true demo_start).2 1) = true
   /\ (true = false -> verified_stamp (heap (validate_metadata 1 true demo_start).2 1) = true))
  /\ (_verified_node (heap demo_verified 1) = true
      /\ verified_interface (heap demo_verified 1) = true
      /\ (true = false -> verified_stamp (heap demo_verified 1) = true)).
Proof.
  split.
  - apply (proj1 (verify_node_establishes 1 true demo_start
                    (validate_metadata 1 true demo_start).2)).
    by vm_compute.
  - apply (proj2 (verify_node_establishes 1 true demo_start demo_verified)
             (Some "/certs/0xB.pem") false).
    by vm_compute.
Defined.

Lemma timestamp_of_stranger_witness :
  (timestamp 1 demo_undated).1 = Raise NoSigningPower
  /\ _timestamp (heap (timestamp 1 demo_undated).2 1) = Some 1000%Z
  /\ _interface_signature_object (heap (timestamp 1 demo_undated).2 1)
     = _interface_signature_object (heap demo_undated 1)
  /\ timestamp 1 (timestamp 1 demo_undated).2 = (Ok 1000%Z, (timestamp 1 demo_undated).2).
Proof.
  apply (timestamp_of_stranger 1 demo_undated).
  - reflexivity.
  - reflexivity.
  - simpl. lia.
Defined.

(** The good node is dated 100. *)
Lemma timestamp_bytes_round_trip_witness :
  ((0 <= 100 < 2 ^ 32)%Z ->
   exists b, timestamp_bytes 1 demo_start = (Ok b, demo_start)
             /\ length b = 4%nat /\ int_from_bytes_big b = 100%Z)
  /\ (~ (0 <= 100 < 2 ^ 32)%Z -> timestamp_bytes 1 demo_start = (Raise OverflowError, demo_start)).
Proof. apply (timestamp_bytes_round_trip 1 100 demo_start). reflexivity. Defined.

(** The node with the certificate of another host is not stored. *)
Lemma remember_node_wrong_common_name_witness :
  (remember_node 1 false true demo_misnamed).1 <> Ok true
  /\ known_nodes (me (remember_node 1 false true demo_misnamed).2)
     = known_nodes (me demo_misnamed)
  /\ (node_is_self 1 (heap demo_misnamed 1) = false ->
      dict_get (checksum_public_address (heap demo_misnamed 1))
        (entries (known_nodes (me demo_misnamed))) = None ->
      remember_node 1 false true demo_misnamed = (Raise ValueError, demo_misnamed)).
Proof.
  apply (remember_node_wrong_common_name 1 false true demo_misnamed).
  vm_compute. discriminate.
Defined.

(** The queue 7 waits for the good node. *)
Lemma listeners_are_notified_witness :
  notified (remember_node_store 1 false
              (_push_certain_newly_discovered_nodes_here 7 ["0xB"] demo_start).2).2
  = (notified demo_start
     ++ map (fun l => (l, "0xB"))
          (listeners_at "0xB"
             (_push_certain_newly_discovered_nodes_here 7 ["0xB"] demo_start).2))%list
  /\ (7, "0xB") ∈ notified (remember_node_store 1 false
                    (_push_certain_newly_discovered_nodes_here 7 ["0xB"] demo_start).2).2
  /\ (NoDup (dict_keys (_learning_listeners (me demo_start))) ->
      listeners_at "0xB"
        (remember_node_store 1 false
           (_push_certain_newly_discovered_nodes_here 7 ["0xB"] demo_start).2).2 = []).
Proof.
  apply (listeners_are_notified 7 ["0xB"] 1 false demo_start).
  apply list_elem_of_In. vm_compute. tauto.
Defined.

(** The teacher of the learner is the one in its queue. *)
Lemma cycle_teacher_node_known_teacher_witness :
  exists teacher,
    _current_teacher_node (me (cycle_teacher_node demo_start).2) = Some teacher
    /\ (teacher ∈ teacher_nodes (me demo_start)
        \/ teacher ∈ dict_values
                       (entries (known_nodes (me (cycle_teacher_node demo_start).2)))).
Proof.
  apply (cycle_teacher_node_known_teacher demo_start (cycle_teacher_node demo_start).2).
  by vm_compute.
Defined.

(** The learner that knows nobody. *)
Lemma learn_from_teacher_node_without_teachers_witness :
  (learn_from_teacher_node true demo_alone).1 = Ok None
  /\ requests_sent (learn_from_teacher_node true demo_alone).2 = requests_sent demo_alone
  /\ known_nodes (me (learn_from_teacher_node true demo_alone).2)
     = known_nodes (me demo_alone)
  /\ _current_teacher_node (me (learn_from_teacher_node true demo_alone).2) = None
  /\ _learning_round (me (learn_from_teacher_node true demo_alone).2)
     = (_learning_round (me demo_alone) + 1)%Z
  /\ last (stdout (learn_from_teacher_node true demo_alone).2)
     = Some (Warn, "Can't learn right now").
Proof.
  apply (learn_from_teacher_node_without_teachers true demo_alone); reflexivity.
Defined.

(** One poll of the learner that knows its teacher, for one node. *)
Lemma block_until_number_of_known_nodes_is_answers_witness :
  true = true /\ enough_known 1 demo_start = true.
Proof.
  apply (block_until_number_of_known_nodes_is_answers [] 1 10 false demo_start true
           demo_start).
  by vm_compute.
Defined.

(** A wait of a day for a second node, with sleeps of twenty seconds. *)
Lemma blocking_timeout_of_a_day_never_expires_witness :
  (forall n,
     block_until_number_of_known_nodes_is [demo_long_sleep; demo_long_sleep] n 86400
       false demo_start = None
     \/ exists w',
          block_until_number_of_known_nodes_is [demo_long_sleep; demo_long_sleep] n 86400
            false demo_start = Some (Ok true, w'))
  /\ (forall addrs allow,
        block_until_specific_nodes_are_known [demo_long_sleep; demo_long_sleep] addrs
          86400 allow false demo_start = None
        \/ exists r w',
             block_until_specific_nodes_are_known [demo_long_sleep; demo_long_sleep] addrs
               86400 allow false demo_start = Some (Ok r, w')
             /\ r <> returned_bool false).
Proof.
  apply (blocking_timeout_of_a_day_never_expires [demo_long_sleep; demo_long_sleep] 86400
           demo_start).
  lia.
Defined.


(** The learner that knows its teacher is well formed. *)
Lemma demo_start_fleet_ok : fleet_ok demo_start.
Proof.
  split; [|split].
  - apply NoDup_singleton.
  - intros k o [= -> ->]%list_elem_of_singleton. split; [reflexivity|].
    unfold allocated. simpl. lia.
  - constructor.
Qed.

(** The invariant on the small network: after [remember_node] on the good
    node, after [load_seednodes] and after an eager round the world is well
    formed, and the addresses of the known records are distinct. *)
Lemma learning_round_keeps_fleet_witness :
  fleet_ok (remember_node 1 false true demo_start).2
  /\ fleet_ok (load_seednodes true 3 2 3 demo_start).2
  /\ fleet_ok (learn_from_teacher_node true demo_start).2
  /\ NoDup (map checksum_public_address (records (learn_from_teacher_node true demo_start).2)).
Proof.
  destruct learning_round_keeps_fleet as (_ & Hremember & Hseed & Hround & Hrecords).
  split; [|split; [|split]].
  - apply Hremember; [apply demo_start_fleet_ok|]. unfold allocated. simpl. lia.
  - apply Hseed, demo_start_fleet_ok.
  - apply Hround, demo_start_fleet_ok.
  - apply Hrecords, Hround, demo_start_fleet_ok.
Defined.

(** The good host as a seed node, asked for under its address and under
    another one. *)
Lemma from_seed_and_stake_info_checks_witness :
  (exists certificate stranger,
     demo_get_certificate (env demo_start) "good.example" 9151 = (Ok certificate, tt)
     /\ demo_from_bytes [Byte.x01] true = Ok stranger
     /\ identity_of
          (heap (from_seed_and_stake_info demo_get_certificate demo_from_bytes
                   "good.example" "/certs" true 9151 (Some "0xB") 0 demo_start).2 7)
        = identity_of stranger
     /\ _verified_node
          (heap (from_seed_and_stake_info demo_get_certificate demo_from_bytes
                   "good.example" "/certs" true 9151 (Some "0xB") 0 demo_start).2 7) = true
     /\ dict_get "/certs/0xB.pem"
          (disk (from_seed_and_stake_info demo_get_certificate demo_from_bytes
                   "good.example" "/certs" true 9151 (Some "0xB") 0 demo_start).2)
        = Some certificate)
  /\ (from_seed_and_stake_info demo_get_certificate demo_from_bytes "good.example"
        "/certs" true 9151 (Some "0xF") 0 demo_start).1 = Raise SuspiciousActivity.
Proof.
  split.
  - destruct (proj1 (from_seed_and_stake_info_checks demo_get_certificate demo_from_bytes
                       "good.example" "/certs" true 9151 (Some "0xB") 0 demo_start)
                7 (from_seed_and_stake_info demo_get_certificate demo_from_bytes
                     "good.example" "/certs" true 9151 (Some "0xB") 0 demo_start).2)
      as (certificate & e & response & e' & stranger & Hcert & Hnet & Hstatus & Hbytes
          & _ & _ & Hid & Hverified & _ & _ & Hdisk & _).
    + by vm_compute.
    + vm_compute in Hcert. injection Hcert as Hc He. subst certificate e.
      vm_compute in Hnet. injection Hnet as Hr He. subst response e'.
      eexists _, stranger. repeat split; done.
  - apply (proj2 (from_seed_and_stake_info_checks demo_get_certificate demo_from_bytes
                    "good.example" "/certs" true 9151 (Some "0xF") 0 demo_start)
             (demo_certificate "good.example") tt
             {| status_code := 200; content := [Byte.x01] |} tt demo_good).
    + reflexivity.
    + reflexivity.
    + reflexivity.
    + reflexivity.
    + reflexivity.
    + discriminate.
Defined.

End MoreChecks.

(** * The network with the failing teacher *)

Section DownChecks.
Local Existing Instance demo_network_down.

(** The teacher answers 503. *)
Lemma learn_from_teacher_node_bad_status_witness :
  (learn_from_teacher_node true demo_down_start).1 = Raise RuntimeError
  /\ me (learn_from_teacher_node true demo_down_start).2
     = set_learning_round 1 (me demo_down_start)
  /\ heap (learn_from_teacher_node true demo_down_start).2 = heap demo_down_start
  /\ next_oid (learn_from_teacher_node true demo_down_start).2 = 7
  /\ stdout (learn_from_teacher_node true demo_down_start).2 = []
  /\ requests_sent (learn_from_teacher_node true demo_down_start).2
     = [get_nodes_via_rest_request ("teacher.example", 9151%Z) [] false
          (Some "/certs/0xA.pem")].
Proof.
  apply (@learn_from_teacher_node_bad_status demo_network_down true 0
           {| status_code := 503; content := [] |} tt demo_down_start).
  - reflexivity.
  - reflexivity.
  - simpl. lia.
Defined.

End DownChecks.

(** * The claims on the network that follows a script *)

Section ScriptedChecks.
Local Existing Instance demo_scripted_network.

(** C3 (impersonation detection), the failing run: the teacher tells about
    the impostor, whose host answers the first [node_information] with the
    verifying key [09] where the record has [03].  [verify_node] on the
    record raises [InvalidNode], and so does the check of the eager round:
    the round logs the two warnings.  It then goes on to [remember_node]
    with the same candidate, which asks the host a second time; this answer
    carries the key of the record, and the candidate (object 7, address
    [0xD]) is verified and stored in [known_nodes]. *)
Theorem impostor_remembered_by_eager_round :
  (node_information (env demo_impostor_batch) "impostor.example" 9151 (Some "/certs/0xA.pem")).1
  = Ok {| status_code := 200; content := [Byte.x09] |}
  /\ verifying_key (heap demo_impostor_batch 3) = [Byte.x03]
  /\ (verify_node 3 (Some "/certs/0xA.pem") true false demo_impostor_batch).1
     = Raise InvalidNode
  /\ stdout (learn_from_teacher_node true demo_impostor_batch).2
     = [(Info, "Cycled teachers; New teacher is");
        (Warn, "Verifying key swapped out.  It appears that someone is impersonating this node.");
        (Warn, "Suspicious Activity: Discovered node with bad signature.");
        (Info, "Remembering, popping listeners.")]
  /\ requests_sent (learn_from_teacher_node true demo_impostor_batch).2
     = [get_nodes_via_rest_request ("teacher.example", 9151%Z) [] false
          (Some "/certs/0xA.pem");
        node_information_request "impostor.example" 9151 (Some "/certs/0xA.pem");
        node_information_request "impostor.example" 9151 (Some "/certs/0xD.pem")]
  /\ entries (known_nodes (me (learn_from_teacher_node true demo_impostor_batch).2))
     = [("0xA", 0); ("0xD", 7)]
  /\ checksum_public_address (heap (learn_from_teacher_node true demo_impostor_batch).2 7)
     = "0xD"
  /\ _verified_node (heap (learn_from_teacher_node true demo_impostor_batch).2 7) = true.
Proof. vm_compute. done. Qed.

(** C6 (adaptive backoff), the failing runs.  A learner that has slowed down
    (eleven rounds without new nodes, long interval) runs a round in which
    the teacher tells about the good node: the node is stored, and the call
    [update_fleet_stfate] in [remember_node] raises [AttributeError] before
    the round reaches [_adjust_learning]; the counter is still eleven and
    the interval still [_LONG_LEARNING_DELAY].  From the fresh learner, after
    exactly [_ROUNDS_WITHOUT_NODES_AFTER_WHICH_TO_SLOW_DOWN] (ten) rounds in
    which the teacher tells about nobody the interval is still
    [_SHORT_LEARNING_DELAY]; it is long after the eleventh.  Eleven rounds in
    which the teacher does not answer are counted as rounds and not as rounds
    without new nodes: the interval stays short. *)
Theorem backoff_missed_by_learning_rounds :
  ((learn_from_teacher_node true demo_good_batch_slowed).1
   = Raise (AttributeError "update_fleet_stfate")
   /\ entries (known_nodes (me (learn_from_teacher_node true demo_good_batch_slowed).2))
      = [("0xA", 0); ("0xB", 7)]
   /\ _rounds_without_new_nodes (me (learn_from_teacher_node true demo_good_batch_slowed).2)
      = 11%Z
   /\ interval (_learning_task (me (learn_from_teacher_node true demo_good_batch_slowed).2))
      = _LONG_LEARNING_DELAY)
  /\ (Z.of_nat 10 = _ROUNDS_WITHOUT_NODES_AFTER_WHICH_TO_SLOW_DOWN
      /\ _rounds_without_new_nodes (me (learning_rounds (repeat true 10) demo_empty_batch))
         = 10%Z
      /\ interval (_learning_task (me (learning_rounds (repeat true 10) demo_empty_batch)))
         = _SHORT_LEARNING_DELAY
      /\ interval (_learning_task (me (learning_rounds (repeat true 11) demo_empty_batch)))
         = _LONG_LEARNING_DELAY)
  /\ (_learning_round (me (learning_rounds (repeat true 11) demo_silent_teacher)) = 11%Z
      /\ _rounds_without_new_nodes
           (me (learning_rounds (repeat true 11) demo_silent_teacher)) = 0%Z
      /\ interval (_learning_task (me (learning_rounds (repeat true 11) demo_silent_teacher)))
         = _SHORT_LEARNING_DELAY).
Proof. vm_compute. done. Qed.

(** C7 (blocking wait), the failing runs, waiting for the good node ([0xB])
    with a timeout of ten seconds.  The timeout is compared with
    [(maya.now() - start).seconds], the seconds of the elapsed time within
    its last day: at the poll 86405 seconds after the start this is five, and
    the method neither returns [False] (one address may be missing) nor
    raises (none may); it sleeps again, and raises twenty seconds later.
    With the round on the waiting thread, the round stores the good node and
    raises [AttributeError] in [remember_node]: the method ends with that
    exception, all the addresses known, no timeout, no failure recorded. *)
Theorem blocking_wait_misses_timeout :
  block_until_specific_nodes_are_known [demo_scripted_sleep 86405] ["0xB"] 10 1 false
    demo_empty_batch = None
  /\ block_until_specific_nodes_are_known [demo_scripted_sleep 86405] ["0xB"] 10 0 false
       demo_empty_batch = None
  /\ (fun '(r, w) => (r, clock w, clock w - clock demo_empty_batch)%Z)
       <$> block_until_specific_nodes_are_known
             [demo_scripted_sleep 86405; demo_scripted_sleep 20] ["0xB"] 10 0 false
             demo_empty_batch
     = Some (Raise NotEnoughTeachers, 87425%Z, 86425%Z)
  /\ (fun '(r, w) => (r, entries (known_nodes (me w)), _crashed (me w), clock w))
       <$> block_until_specific_nodes_are_known [] ["0xB"] 10 0 true demo_good_batch
     = Some (Raise (AttributeError "update_fleet_stfate"),
             [("0xA", 0); ("0xB", 7)], None, 1000%Z).
Proof. vm_compute. done. Qed.

(** X14 on the learner that knows its teacher: with one node asked for the
    call returns at once; with two, it returns after a sleep during which
    the good node is stored, and raises after a sleep of twenty seconds with
    a timeout of ten; a teacher that times out does not stop the wait. *)
Lemma block_until_number_of_known_nodes_is_waits_witness :
  block_until_number_of_known_nodes_is [] 1 10 true demo_empty_batch
  = Some (Ok true, demo_empty_batch)
  /\ (exists w2,
        block_until_number_of_known_nodes_is [demo_learning_sleep] 2 10 false
          demo_empty_batch = Some (Ok true, w2)
        /\ me w2 = me (demo_learning_sleep (after_warning demo_empty_batch)))
  /\ block_until_number_of_known_nodes_is [demo_scripted_sleep 20] 2 10 false
       demo_empty_batch
     = Some (Raise NotEnoughTeachers,
             after_warning (demo_scripted_sleep 20 (after_warning demo_empty_batch)))
  /\ (exists w2,
        block_until_number_of_known_nodes_is [demo_learning_sleep] 2 10 true
          demo_slow_teacher = Some (Ok true, w2)
        /\ dict_get "0xB" (entries (known_nodes (me w2))) = Some 1).
Proof.
  split; [|split; [|split]].
  - apply (proj1 (block_until_number_of_known_nodes_is_waits demo_learning_sleep []
                    1 10 demo_empty_batch)).
    by vm_compute.
  - apply (proj1 (proj1 (proj2 (block_until_number_of_known_nodes_is_waits
                                  demo_learning_sleep [] 2 10 demo_empty_batch))
                    ltac:(by vm_compute) ltac:(lia))).
    by vm_compute.
  - apply (proj2 (proj1 (proj2 (block_until_number_of_known_nodes_is_waits
                                  (demo_scripted_sleep 20) [] 2 10 demo_empty_batch))
                    ltac:(by vm_compute) ltac:(lia))).
    + by vm_compute.
    + vm_compute. reflexivity.
  - destruct (proj2 (proj2 (block_until_number_of_known_nodes_is_waits
                              demo_learning_sleep [] 2 10 demo_slow_teacher))
                ReadTimeout
                (learn_from_teacher_node true (after_warning demo_slow_teacher)).2)
      as (w2 & Hw2 & Hme).
    + by vm_compute.
    + by vm_compute.
    + by left.
    + vm_compute. discriminate.
    + by vm_compute.
    + exists w2. split; [exact Hw2|]. rewrite Hme. by vm_compute.
Defined.

End ScriptedChecks.
